(** * whatsmeow session runtime: a shallow embedding of the client core

    The definitions below follow the Go sources of the client
    ([Client], [NewClient], [Connect], [onDisconnect], [autoReconnect],
    [Logout], the event bus, [handleFrame], [handlerQueueLoop], the
    connection event handlers and [GetProfilePictureInfo]).

    Conventions of the embedding:
    - Go's fixed-width integers are [Z] with the wrap-around written out
      ([wrapU32], [wrapU64], [wrapS64]);
    - Go maps are [gmap]s, slices are lists, a buffered channel is the list
      of its buffered elements together with its capacity;
    - a method of [*Client] is a computation in the monad [M]: it reads and
      updates the [Client] record, appends to a trace of observable
      [Effect]s, and either returns or panics;
    - every use of the [go] statement is an [ESpawn] effect naming the
      spawned task; the body of the task is a definition of its own;
    - what the network, the codec or the device store answer during a call
      is an argument of the modelled function. *)

From Stdlib Require Import ZArith List Lia.
From Stdlib.Strings Require Import Byte.
From stdpp Require Import base option list strings pretty gmap.

Local Open Scope Z_scope.
Local Open Scope string_scope.
Local Open Scope list_scope.

(** ** Fixed-width integers *)

Definition wrapU32 (z : Z) : Z := z mod 2 ^ 32.
Definition wrapU64 (z : Z) : Z := z mod 2 ^ 64.
Definition wrapS64 (z : Z) : Z := (z + 2 ^ 63) mod 2 ^ 64 - 2 ^ 63.

(** ** Nodes of the binary XML stream (package [binary])

    The node type and its accessors belong to the codec package, which is
    not among the sources; the client core only uses the accessors below. *)

Definition JID := string.

(** Attribute values are [interface{}] in the source; the decoder produces
    strings and JIDs, the client also writes integers. *)
Inductive AttrVal : Type :=
| AString (s : string)
| AInt (z : Z)
| AJID (j : JID).

Inductive NodeContent (N : Type) : Type :=
| ContentNil
| ContentBytes (b : list byte)
| ContentNodes (children : list N).
Arguments ContentNil {N}.
Arguments ContentBytes {N} b.
Arguments ContentNodes {N} children.

#[warnings="-register-all"]
Inductive Node : Type :=
  mkNode { Tag : string; Attrs : gmap string AttrVal; Content : NodeContent Node }.

(** [node.Attrs[key].(string)] with the comma-ok form: the zero string when
    the attribute is absent or not a string.  [AttrGetter().String(key)]
    returns the same string and records an error in the second case. *)
Definition attrStringOk (n : Node) (key : string) : string * bool :=
  match Attrs n !! key with
  | Some (AString s) => (s, true)
  | _ => ("", false)
  end.

(** Modelled from the spec: [GetChildren] of the codec package is missing;
    the content of a node is "bytes | sequence<Node>", and the children are
    that sequence, none for any other content. *)
Definition GetChildren (n : Node) : list Node :=
  match Content n with
  | ContentNodes children => children
  | _ => []
  end.

Definition emptyNode : Node := mkNode "" ∅ ContentNil.

(** Modelled from the spec: [GetOptionalChildByTag] and [GetChildByTag] of
    the codec package are missing; they are taken by their names: the first
    child carrying the tag and whether there is one, the empty node when
    there is none. *)
Definition GetOptionalChildByTag (n : Node) (tag : string) : Node * bool :=
  match List.find (fun c => bool_decide (Tag c = tag)) (GetChildren n) with
  | Some c => (c, true)
  | None => (emptyNode, false)
  end.

Definition GetChildByTag (n : Node) (tag : string) : Node :=
  fst (GetOptionalChildByTag n tag).

(** ** Events, errors, effects *)

Inductive Event : Type :=
| EvConnected
| EvDisconnected
| EvLoggedOut (OnConnect : bool)
| EvConnectFailure (Reason : string) (Raw : Node)
| EvStreamError (Code : string) (Raw : Node)
| EvQRScannedWithoutMultidevice
| EvOther (payload : string).

(** The sentinel errors of the package (their declarations are in a file
    that is not among the sources), errors coming from outside, and the
    wrapping done by [fmt.Errorf] with [%w]. *)
Inductive error : Type :=
| ErrAlreadyConnected
| ErrNotConnected
| ErrNotLoggedIn
| ErrNoPushName
| ErrIQError
| ErrIQTimedOut
| ErrIQDisconnected
| ErrProfilePictureUnauthorized
| ErrExternal (msg : string)
| ErrWrap (msg : string) (inner : error).

(** [errors.Is]: the chain built by [fmt.Errorf("...: %w", err)] is followed
    down to a sentinel. *)
Fixpoint errors_Is (err target : error) : bool :=
  match err, target with
  | ErrWrap _ inner, _ => errors_Is inner target
  | ErrAlreadyConnected, ErrAlreadyConnected => true
  | ErrNotConnected, ErrNotConnected => true
  | ErrNotLoggedIn, ErrNotLoggedIn => true
  | ErrNoPushName, ErrNoPushName => true
  | ErrIQError, ErrIQError => true
  | ErrIQTimedOut, ErrIQTimedOut => true
  | ErrIQDisconnected, ErrIQDisconnected => true
  | ErrProfilePictureUnauthorized, ErrProfilePictureUnauthorized => true
  | ErrExternal a, ErrExternal b => bool_decide (a = b)
  | _, _ => false
  end.

Inductive LogLevel : Type := LDebug | LInfo | LWarn | LError.
Inductive Logger : Type := LogMain | LogRecv | LogSend.

(** The tasks the client starts with the [go] statement. *)
Inductive Task : Type :=
| TaskDispatchEvent (evt : Event)
| TaskAutoReconnect
| TaskKeepAliveLoop (sock : nat)
| TaskHandlerQueueLoop (sock : nat)
| TaskBlockingPush (node : Node)
| TaskReconnect515
| TaskPostConnect.

Inductive Effect : Type :=
| ELog (logger : Logger) (lvl : LogLevel) (format : string)
| ESpawn (t : Task)
| ESocketStop (sock : nat) (disconnect : bool)
| EStoreExpectedDisconnect (v : Z)
| ESleep (nanoseconds : Z)
| ENewFrameSocket
| EFrameSocketClose (code : Z)
| ESendFrame (sock : nat) (node : Node)
| EWaiterSignal (id : string) (waiter : nat) (node : option Node)
| EStoreDelete
| EInvoke (id : Z) (evt : Event).

(** ** The client *)

(** What a subscriber does with an event: it returns, or it panics. *)
Inductive HandlerOutcome : Type :=
| HReturns
| HPanics (value : string).

Definition EventHandler := Event -> HandlerOutcome.

Record wrappedEventHandler : Type :=
  mkWrapped { fn : option EventHandler; id : Z }.

(** The methods registered in [nodeHandlers]. *)
Inductive nodeHandler : Type :=
| M_handleEncryptedMessage
| M_handleReceipt
| M_handleChatState
| M_handleNotification
| M_handleConnectSuccess
| M_handleConnectFailure
| M_handleStreamError
| M_handleIQ
| M_handleIB.

(** Modelled from the spec: the device store is an external interface,
    "ID: Option<JID> -- presence signals paired" and "Delete() -> err".
    [DeleteResult] is what the backing container will answer to [Delete]. *)
Record Device : Type :=
  mkDevice { ID : option JID; PushName : string; DeleteResult : option error }.

(** The fields of [Client] the modelled methods use.  A socket is known by
    its identity (the pointer in the source); a response waiter by the
    identity of its channel. *)
Record Client : Type := mkClient {
  Store : Device;
  socket : option nat;
  expectedDisconnectVal : Z;
  EnableAutoReconnect : bool;
  LastSuccessfulConnect : Z;
  AutoReconnectErrors : Z;
  IsLoggedIn : bool;
  responseWaiters : gmap string nat;
  nodeHandlers : gmap string nodeHandler;
  handlerQueue : list Node;
  eventHandlers : list wrappedEventHandler;
  uniqueID : string;
  idCounter : Z
}.

Definition handlerQueueSize : nat := 2048.

Definition set_Store (v : Device) (c : Client) : Client :=
  mkClient v (socket c) (expectedDisconnectVal c) (EnableAutoReconnect c)
    (LastSuccessfulConnect c) (AutoReconnectErrors c) (IsLoggedIn c)
    (responseWaiters c) (nodeHandlers c) (handlerQueue c) (eventHandlers c)
    (uniqueID c) (idCounter c).
Definition set_socket (v : option nat) (c : Client) : Client :=
  mkClient (Store c) v (expectedDisconnectVal c) (EnableAutoReconnect c)
    (LastSuccessfulConnect c) (AutoReconnectErrors c) (IsLoggedIn c)
    (responseWaiters c) (nodeHandlers c) (handlerQueue c) (eventHandlers c)
    (uniqueID c) (idCounter c).
Definition set_expectedDisconnectVal (v : Z) (c : Client) : Client :=
  mkClient (Store c) (socket c) v (EnableAutoReconnect c)
    (LastSuccessfulConnect c) (AutoReconnectErrors c) (IsLoggedIn c)
    (responseWaiters c) (nodeHandlers c) (handlerQueue c) (eventHandlers c)
    (uniqueID c) (idCounter c).
Definition set_LastSuccessfulConnect (v : Z) (c : Client) : Client :=
  mkClient (Store c) (socket c) (expectedDisconnectVal c) (EnableAutoReconnect c)
    v (AutoReconnectErrors c) (IsLoggedIn c)
    (responseWaiters c) (nodeHandlers c) (handlerQueue c) (eventHandlers c)
    (uniqueID c) (idCounter c).
Definition set_AutoReconnectErrors (v : Z) (c : Client) : Client :=
  mkClient (Store c) (socket c) (expectedDisconnectVal c) (EnableAutoReconnect c)
    (LastSuccessfulConnect c) v (IsLoggedIn c)
    (responseWaiters c) (nodeHandlers c) (handlerQueue c) (eventHandlers c)
    (uniqueID c) (idCounter c).
Definition set_IsLoggedIn (v : bool) (c : Client) : Client :=
  mkClient (Store c) (socket c) (expectedDisconnectVal c) (EnableAutoReconnect c)
    (LastSuccessfulConnect c) (AutoReconnectErrors c) v
    (responseWaiters c) (nodeHandlers c) (handlerQueue c) (eventHandlers c)
    (uniqueID c) (idCounter c).
Definition set_responseWaiters (v : gmap string nat) (c : Client) : Client :=
  mkClient (Store c) (socket c) (expectedDisconnectVal c) (EnableAutoReconnect c)
    (LastSuccessfulConnect c) (AutoReconnectErrors c) (IsLoggedIn c)
    v (nodeHandlers c) (handlerQueue c) (eventHandlers c)
    (uniqueID c) (idCounter c).
Definition set_handlerQueue (v : list Node) (c : Client) : Client :=
  mkClient (Store c) (socket c) (expectedDisconnectVal c) (EnableAutoReconnect c)
    (LastSuccessfulConnect c) (AutoReconnectErrors c) (IsLoggedIn c)
    (responseWaiters c) (nodeHandlers c) v (eventHandlers c)
    (uniqueID c) (idCounter c).
Definition set_eventHandlers (v : list wrappedEventHandler) (c : Client) : Client :=
  mkClient (Store c) (socket c) (expectedDisconnectVal c) (EnableAutoReconnect c)
    (LastSuccessfulConnect c) (AutoReconnectErrors c) (IsLoggedIn c)
    (responseWaiters c) (nodeHandlers c) (handlerQueue c) v
    (uniqueID c) (idCounter c).
Definition set_idCounter (v : Z) (c : Client) : Client :=
  mkClient (Store c) (socket c) (expectedDisconnectVal c) (EnableAutoReconnect c)
    (LastSuccessfulConnect c) (AutoReconnectErrors c) (IsLoggedIn c)
    (responseWaiters c) (nodeHandlers c) (handlerQueue c) (eventHandlers c)
    (uniqueID c) v.

(** ** The monad of client methods *)

Inductive Outcome (A : Type) : Type :=
| Ret (a : A)
| Panic (value : string).
Arguments Ret {A} a.
Arguments Panic {A} value.

Definition M (A : Type) : Type := Client -> Outcome A * Client * list Effect.

Definition ret {A} (a : A) : M A := fun c => (Ret a, c, []).
Definition panic {A} (value : string) : M A := fun c => (Panic value, c, []).
Definition bind {A B} (m : M A) (k : A -> M B) : M B :=
  fun c =>
    match m c with
    | (Ret a, c1, t1) =>
        match k a c1 with
        | (o, c2, t2) => (o, c2, t1 ++ t2)
        end
    | (Panic v, c1, t1) => (Panic v, c1, t1)
    end.

#[global] Instance M_ret : MRet M := @ret.
#[global] Instance M_bind : MBind M := fun A B k m => bind m k.

Definition get : M Client := fun c => (Ret c, c, []).
Definition modify (f : Client -> Client) : M unit := fun c => (Ret tt, f c, []).
Definition emit (e : Effect) : M unit := fun c => (Ret tt, c, [e]).
Definition log (l : Logger) (lvl : LogLevel) (format : string) : M unit :=
  emit (ELog l lvl format).
Definition spawn (t : Task) : M unit := emit (ESpawn t).

(** A deferred function with [recover()]: [h] runs when [m] returns and
    when it panics, and receives what [recover()] yields. *)
Definition deferRecover {A} (m : M A) (zero : A) (h : option string -> M unit) : M A :=
  fun c =>
    match m c with
    | (Ret a, c1, t1) =>
        match h None c1 with
        | (Ret _, c2, t2) => (Ret a, c2, t1 ++ t2)
        | (Panic v, c2, t2) => (Panic v, c2, t1 ++ t2)
        end
    | (Panic v, c1, t1) =>
        match h (Some v) c1 with
        | (Ret _, c2, t2) => (Ret zero, c2, t1 ++ t2)
        | (Panic v', c2, t2) => (Panic v', c2, t1 ++ t2)
        end
    end.

Definition outcomeOf {A} (r : Outcome A * Client * list Effect) : Outcome A := fst (fst r).
Definition stateOf {A} (r : Outcome A * Client * list Effect) : Client := snd (fst r).
Definition traceOf {A} (r : Outcome A * Client * list Effect) : list Effect := snd r.

(** ** Event bus *)

(** The package-level counter [nextHandlerID] is shared by all clients, so
    it is passed in; [atomic.AddUint32] returns the new value, which is both
    the counter afterwards and the id handed out. *)
Definition AddEventHandler (handler : option EventHandler) (nextHandlerID : Z) : M Z :=
  let nextID := wrapU32 (nextHandlerID + 1) in
  modify (fun c => set_eventHandlers (eventHandlers c ++ [mkWrapped handler nextID]) c);;
  mret nextID.

(** The [for index := range cli.eventHandlers] search of [RemoveEventHandler]. *)
Fixpoint rangeFind (id0 : Z) (hs : list wrappedEventHandler) (index : nat) : option nat :=
  match hs with
  | [] => None
  | h :: rest =>
      if bool_decide (id h = id0) then Some index else rangeFind id0 rest (S index)
  end.

(** Go's built-in [copy(dst, src)]: [min (len dst) (len src)] elements are
    copied, with memmove semantics when the slices overlap. *)
Definition copySlice {A} (dst src : list A) : list A :=
  take (length dst) src ++ drop (length src) dst.

(** [s[i].fn = nil] *)
Definition clearFn (h : wrappedEventHandler) : wrappedEventHandler :=
  mkWrapped None (id h).

Definition RemoveEventHandler (id0 : Z) : M bool :=
  fun c =>
    let hs := eventHandlers c in
    match rangeFind id0 hs 0 with
    | Some index =>
        if bool_decide (index = 0%nat) then
          let hs1 := alter clearFn 0%nat hs in
          (Ret true, set_eventHandlers (drop 1 hs1) c, [])
        else
          let hs1 :=
            if bool_decide (index < length hs - 1)%nat
            then take index hs ++ copySlice (drop index hs) (drop (S index) hs)
            else hs in
          let hs2 := alter clearFn (length hs1 - 1)%nat hs1 in
          (Ret true, set_eventHandlers (take (length hs2 - 1) hs2) c, [])
    | None => (Ret false, c, [])
    end.

Definition RemoveEventHandlers : M unit :=
  modify (set_eventHandlers []).

(** [handler.fn(evt)]: calling a nil func value panics. *)
Definition callHandler (h : wrappedEventHandler) (evt : Event) : M unit :=
  match fn h with
  | None => panic "invalid memory address or nil pointer dereference"
  | Some f =>
      emit (EInvoke (id h) evt);;
      match f evt with
      | HReturns => mret tt
      | HPanics v => panic v
      end
  end.

(** [for _, handler := range cli.eventHandlers { handler.fn(evt) }] *)
Fixpoint rangeHandlers (hs : list wrappedEventHandler) (evt : Event) : M unit :=
  match hs with
  | [] => mret tt
  | h :: rest => callHandler h evt;; rangeHandlers rest evt
  end.

(** The format's last verb receives [debug.Stack()]. *)
Definition panicFormat : string :=
  "Event handler panicked while handling a %T: %v\n%s".

(** One deferred function around the whole loop releases the read lock and
    recovers. *)
Definition dispatchEvent (evt : Event) : M unit :=
  deferRecover
    (c ← get; rangeHandlers (eventHandlers c) evt)
    tt
    (fun err =>
       match err with
       | Some _ => log LogMain LError panicFormat
       | None => mret tt
       end).

(** ** Construction *)

(** [rand.Read] fills the two bytes; they are an argument here.  [%d] prints
    an unsigned byte in decimal, which is stdpp's [pretty] on [N]. *)
Definition NewClient (deviceStore : Device) (randomBytes : byte * byte) : Client :=
  {| Store := deviceStore;
     socket := None;
     expectedDisconnectVal := 0;
     EnableAutoReconnect := true;
     LastSuccessfulConnect := 0;
     AutoReconnectErrors := 0;
     IsLoggedIn := false;
     responseWaiters := ∅;
     nodeHandlers :=
       list_to_map
         [ ("message", M_handleEncryptedMessage);
           ("receipt", M_handleReceipt);
           ("chatstate", M_handleChatState);
           ("notification", M_handleNotification);
           ("success", M_handleConnectSuccess);
           ("failure", M_handleConnectFailure);
           ("stream:error", M_handleStreamError);
           ("iq", M_handleIQ);
           ("ib", M_handleIB) ];
     handlerQueue := [];
     eventHandlers := [];
     uniqueID := pretty (Byte.to_N (fst randomBytes)) +:+ "."
                 +:+ pretty (Byte.to_N (snd randomBytes)) +:+ "-";
     idCounter := 0 |}.

(** ** Expected-disconnect flag *)

Definition expectDisconnect : M unit :=
  emit (EStoreExpectedDisconnect 1);; modify (set_expectedDisconnectVal 1).

Definition resetExpectedDisconnect : M unit :=
  emit (EStoreExpectedDisconnect 0);; modify (set_expectedDisconnectVal 0).

Definition isExpectedDisconnect : M bool :=
  c ← get; mret (bool_decide (expectedDisconnectVal c = 1)).

(** ** Socket slot *)

Definition unlockedDisconnect : M unit :=
  c ← get;
  match socket c with
  | Some s => emit (ESocketStop s true);; modify (set_socket None)
  | None => mret tt
  end.

Definition Disconnect : M unit :=
  c ← get;
  match socket c with
  | None => mret tt
  | Some _ => unlockedDisconnect
  end.

(** Modelled from the spec: [clearResponseWaiters] is not among the sources.
    "All waiters are released with a disconnect error" and the waiter map is
    empty afterwards; a released waiter receives no node. *)
Definition clearResponseWaiters : M unit :=
  fun c =>
    (Ret tt,
     set_responseWaiters ∅ c,
     map (fun kw => EWaiterSignal (fst kw) (snd kw) None)
         (map_to_list (responseWaiters c))).

Definition onDisconnect (ns : nat) (remote : bool) : M unit :=
  emit (ESocketStop ns false);;
  c ← get;
  if bool_decide (socket c = Some ns) then
    modify (set_socket None);;
    clearResponseWaiters;;
    expected ← isExpectedDisconnect;
    if negb expected && remote then
      log LogMain LDebug "Emitting Disconnected event";;
      spawn (TaskDispatchEvent EvDisconnected);;
      spawn TaskAutoReconnect
    else if remote then
      log LogMain LDebug "OnDisconnect() called, but it was expected, so not emitting event"
    else
      log LogMain LDebug "OnDisconnect() called after manual disconnection"
  else
    log LogMain LDebug "Ignoring OnDisconnect on different socket".

(** ** Connect *)

(** What the outside world answers during one call of [Connect]: whether the
    socket in the slot still reports connected, the result of
    [fs.Connect()], and the result of the Noise handshake (an error, or the
    fresh socket). *)
Record ConnectEnv : Type := mkConnectEnv {
  socketIsConnected : bool;
  fsConnectResult : option error;
  handshakeResult : error + nat
}.

(** Modelled from the spec: [doHandshake] is not among the sources.  "On
    success, the frame transport is wrapped", which installs the new socket
    in the slot; on failure the error is returned. *)
Definition doHandshake (env : ConnectEnv) : M (option error) :=
  match handshakeResult env with
  | inl err => mret (Some err)
  | inr ns => modify (set_socket (Some ns));; mret None
  end.

Definition Connect (env : ConnectEnv) : M (option error) :=
  c ← get;
  already ←
    match socket c with
    | Some _ =>
        if negb (socketIsConnected env)
        then unlockedDisconnect;; mret false
        else mret true
    | None => mret false
    end;
  if already : bool then mret (Some ErrAlreadyConnected)
  else
    resetExpectedDisconnect;;
    emit ENewFrameSocket;;
    match fsConnectResult env with
    | Some err => emit (EFrameSocketClose 0);; mret (Some err)
    | None =>
        herr ← doHandshake env;
        match herr with
        | Some err =>
            emit (EFrameSocketClose 0);;
            mret (Some (ErrWrap "noise handshake failed" err))
        | None =>
            c' ← get;
            match socket c' with
            | Some s =>
                spawn (TaskKeepAliveLoop s);;
                spawn (TaskHandlerQueueLoop s);;
                mret None
            | None => panic "invalid memory address or nil pointer dereference"
            end
        end
    end.

(** ** Auto-reconnect *)

Inductive LoopStatus : Type := Exited | StillLooping.

Definition time_Second : Z := 1000000000.

(** [time.Duration(cli.AutoReconnectErrors) * 2 * time.Second] in [int64]
    nanoseconds. *)
Definition autoReconnectDelay (errors : Z) : Z :=
  wrapS64 (wrapS64 (wrapS64 errors * 2) * time_Second).

(** The [for] loop of [autoReconnect].  Each element of [envs] scripts one
    call of [Connect]; when the script is used up the loop is still
    running. *)
Fixpoint autoReconnectLoop (envs : list ConnectEnv) : M LoopStatus :=
  match envs with
  | [] => mret StillLooping
  | env :: rest =>
      modify (fun c => set_AutoReconnectErrors (wrapS64 (AutoReconnectErrors c + 1)) c);;
      c ← get;
      log LogMain LDebug "Automatically reconnecting after %v";;
      emit (ESleep (autoReconnectDelay (AutoReconnectErrors c)));;
      err ← Connect env;
      match err with
      | Some e =>
          if errors_Is e ErrAlreadyConnected then
            log LogMain LDebug "Connect() said we're already connected after autoreconnect sleep";;
            mret Exited
          else
            log LogMain LError "Error reconnecting after autoreconnect sleep: %v";;
            autoReconnectLoop rest
      | None => mret Exited
      end
  end.

Definition autoReconnect (envs : list ConnectEnv) : M LoopStatus :=
  c ← get;
  if negb (EnableAutoReconnect c) || bool_decide (ID (Store c) = None)
  then mret Exited
  else autoReconnectLoop envs.

(** ** Requests *)

(** Modelled from the spec: [generateRequestID] is not among the sources.
    A request id is "<unique-prefix><++counter>": the 64-bit counter is
    incremented first and its new value is printed in decimal after the
    prefix. *)
Definition generateRequestID : M string :=
  modify (fun c => set_idCounter (wrapU64 (idCounter c + 1)) c);;
  c ← get;
  mret (uniqueID c +:+ pretty (idCounter c)).

(** What the codec and the socket answer during one [sendNode]. *)
Record SendEnv : Type := mkSendEnv {
  marshalResult : option error;
  sendFrameResult : option error
}.

Definition sendNode (node : Node) (env : SendEnv) : M (option error) :=
  c ← get;
  match socket c with
  | None => mret (Some ErrNotConnected)
  | Some sock =>
      match marshalResult env with
      | Some err => mret (Some (ErrWrap "failed to marshal ping IQ" err))
      | None =>
          log LogSend LDebug "%s";;
          emit (ESendFrame sock node);;
          mret (sendFrameResult env)
      end
  end.

Record infoQuery : Type := mkInfoQuery {
  Namespace : string;
  IQType : string;
  To : JID;
  IQContent : list Node
}.

Inductive IQReply : Type :=
| ReplyNode (n : Node)
| ReplyTimeout
| ReplyDisconnected.

Record IQEnv : Type := mkIQEnv {
  iqSend : SendEnv;
  iqWaiter : nat;
  iqReply : IQReply
}.

(** A "server error node (tag error child or top-level iq with
    type=error)". *)
Definition isErrorReply (n : Node) : bool :=
  snd (GetOptionalChildByTag n "error")
  || (bool_decide (Tag n = "iq")
      && bool_decide (attrStringOk n "type" = ("error", true))).

(** Modelled from the spec: [sendIQ] is not among the sources.  It
    "allocates a request id from the session, registers a waiter,
    serializes the node, sends it via the transport", then awaits the
    waiter: a server error node gives [ErrIQError] together with the node,
    another node is returned, a timeout deregisters the waiter, a teardown
    signals it. *)
Definition sendIQ (query : infoQuery) (env : IQEnv) : M (option Node * option error) :=
  reqID ← generateRequestID;
  modify (fun c => set_responseWaiters (<[reqID := iqWaiter env]> (responseWaiters c)) c);;
  err ← sendNode
          (mkNode "iq"
             (<["id" := AString reqID]>
                (<["xmlns" := AString (Namespace query)]>
                   (<["type" := AString (IQType query)]>
                      {["to" := AJID (To query)]})))
             (ContentNodes (IQContent query)))
          (iqSend env);
  modify (fun c => set_responseWaiters (delete reqID (responseWaiters c)) c);;
  match err with
  | Some e => mret (None, Some e)
  | None =>
      match iqReply env with
      | ReplyNode n =>
          if isErrorReply n then mret (Some n, Some ErrIQError)
          else mret (Some n, None)
      | ReplyTimeout => mret (None, Some ErrIQTimedOut)
      | ReplyDisconnected => mret (None, Some ErrIQDisconnected)
      end
  end.

(** Modelled from the spec: [store.Device.Delete] is outside the sources.
    "Delete() -> err -- drops all session state"; the identity is what
    signals "paired", so a successful delete leaves none. *)
Definition Store_Delete : M (option error) :=
  emit EStoreDelete;;
  c ← get;
  match DeleteResult (Store c) with
  | Some err => mret (Some err)
  | None =>
      modify (set_Store (mkDevice None "" (DeleteResult (Store c))));;
      mret None
  end.

Definition ServerJID : JID := "s.whatsapp.net".

Definition logoutQuery (jid : JID) : infoQuery :=
  {| Namespace := "md";
     IQType := "set";
     To := ServerJID;
     IQContent :=
       [ mkNode "remove-companion-device"
           (<["jid" := AJID jid]> {["reason" := AString "user_initiated"]})
           ContentNil ] |}.

Definition Logout (env : IQEnv) : M (option error) :=
  c ← get;
  match ID (Store c) with
  | None => mret (Some ErrNotLoggedIn)
  | Some jid =>
      r ← sendIQ (logoutQuery jid) env;
      match snd r with
      | Some err => mret (Some (ErrWrap "error sending logout request" err))
      | None =>
          Disconnect;;
          derr ← Store_Delete;
          match derr with
          | Some err => mret (Some (ErrWrap "error deleting data from store" err))
          | None => mret None
          end
      end
  end.

(** ** Profile pictures *)

Record ProfilePictureInfo : Type := mkProfilePictureInfo {
  pURL : string;
  pID : string;
  pType : string;
  pDirectPath : string
}.

(** [x.(string)] without the comma-ok form panics unless [x] holds a
    string. *)
Definition assertString (v : option AttrVal) : M string :=
  match v with
  | Some (AString s) => mret s
  | _ => panic "interface conversion: interface {} is not string"
  end.

(** Following a [*Node]. *)
Definition derefNode (p : option Node) : M Node :=
  match p with
  | Some n => mret n
  | None => panic "invalid memory address or nil pointer dereference"
  end.

Definition profilePictureQuery (jid : JID) (preview : bool) : infoQuery :=
  {| Namespace := "w:profile:picture";
     IQType := "get";
     To := jid;
     IQContent :=
       [ mkNode "picture"
           (<["type" := AString (if preview then "preview" else "image")]>
              {["query" := AString "url"]})
           ContentNil ] |}.

Definition GetProfilePictureInfo (jid : JID) (preview : bool) (env : IQEnv)
  : M (option ProfilePictureInfo * option error) :=
  r ← sendIQ (profilePictureQuery jid preview) env;
  match snd r with
  | Some err =>
      if errors_Is err ErrIQError then
        resp ← derefNode (fst r);
        code ← assertString (Attrs (GetChildByTag resp "error") !! "code");
        if bool_decide (code = "404") then mret (None, None)
        else if bool_decide (code = "401")
             then mret (None, Some ErrProfilePictureUnauthorized)
             else mret (None, Some err)
      else mret (None, Some err)
  | None =>
      resp ← derefNode (fst r);
      let (picture, ok) := GetOptionalChildByTag resp "picture" in
      if negb ok
      then mret (None, Some (ErrExternal "missing <picture> element in response to profile picture query"))
      else
        let id_ := attrStringOk picture "id" in
        let url := attrStringOk picture "url" in
        let type := attrStringOk picture "type" in
        let path := attrStringOk picture "direct_path" in
        let info := mkProfilePictureInfo (fst url) (fst id_) (fst type) (fst path) in
        if snd id_ && snd url && snd type && snd path
        then mret (Some info, None)
        else mret (Some info, Some (ErrExternal "attribute getter errors"))
  end.

(** ** Connection event handlers *)

Definition handleStreamError (node : Node) : M unit :=
  modify (set_IsLoggedIn false);;
  let code := fst (attrStringOk node "code") in
  if bool_decide (code = "515") then
    log LogMain LInfo "Got 515 code, reconnecting...";;
    spawn TaskReconnect515
  else if bool_decide (code = "401") then
    let (conflict, ok) := GetOptionalChildByTag node "conflict" in
    let conflictType := fst (attrStringOk conflict "type") in
    if ok && bool_decide (conflictType = "device_removed") then
      expectDisconnect;;
      log LogMain LInfo "Got device removed stream error, sending LoggedOut event and deleting session";;
      spawn (TaskDispatchEvent (EvLoggedOut false));;
      err ← Store_Delete;
      match err with
      | Some _ => log LogMain LWarn "Failed to delete store after device_removed error: %v"
      | None => mret tt
      end
    else
      log LogMain LError "Unknown stream error code 401: %s";;
      spawn (TaskDispatchEvent (EvStreamError code node))
  else
    log LogMain LError "Unknown stream error: %s";;
    spawn (TaskDispatchEvent (EvStreamError code node)).

(** The task started by [handleStreamError] on code 515. *)
Definition reconnectAfter515 (env : ConnectEnv) : M unit :=
  Disconnect;;
  err ← Connect env;
  match err with
  | Some _ => log LogMain LError "Failed to reconnect after 515 code:"
  | None => mret tt
  end.

Definition handleIB (node : Node) : M unit :=
  match GetChildren node with
  | [child] =>
      if bool_decide (Tag child = "downgrade_webclient")
      then spawn (TaskDispatchEvent EvQRScannedWithoutMultidevice)
      else mret tt
  | _ => mret tt
  end.

Definition handleConnectFailure (node : Node) : M unit :=
  let reason := fst (attrStringOk node "reason") in
  if bool_decide (reason = "401") then
    expectDisconnect;;
    log LogMain LInfo "Got 401 connect failure, sending LoggedOut event and deleting session";;
    spawn (TaskDispatchEvent (EvLoggedOut true));;
    err ← Store_Delete;
    match err with
    | Some _ => log LogMain LWarn "Failed to delete store after 401 failure: %v"
    | None => mret tt
    end
  else
    log LogMain LWarn "Unknown connect failure: %s";;
    spawn (TaskDispatchEvent (EvConnectFailure reason node)).

(** [now] is what [time.Now()] returns. *)
Definition handleConnectSuccess (node : Node) (now : Z) : M unit :=
  log LogMain LInfo "Successfully authenticated";;
  modify (set_LastSuccessfulConnect now);;
  modify (set_AutoReconnectErrors 0);;
  modify (set_IsLoggedIn true);;
  spawn TaskPostConnect.

(** ** Inbound router and handler queue *)

(** Modelled from the spec: [receiveResponse] is not among the sources.
    "If the node has an id attribute matching an outstanding waiter:
    deliver the node to that waiter (single-shot), remove the entry". *)
Definition receiveResponse (node : Node) : M bool :=
  c ← get;
  match attrStringOk node "id" with
  | (reqID, true) =>
      match responseWaiters c !! reqID with
      | Some waiter =>
          modify (set_responseWaiters (delete reqID (responseWaiters c)));;
          emit (EWaiterSignal reqID waiter (Some node));;
          mret true
      | None => mret false
      end
  | _ => mret false
  end.

(** [cli.handlerQueue <- node] when the buffer has room. *)
Definition enqueue (node : Node) : M unit :=
  modify (fun c => set_handlerQueue (handlerQueue c ++ [node]) c).

Definition queueHasRoom (c : Client) : bool :=
  bool_decide (length (handlerQueue c) < handlerQueueSize)%nat.

(** The detached task [go func() { cli.handlerQueue <- node }()]: the send
    goes through once the buffer has room; the result tells whether it
    did. *)
Definition blockingPush (node : Node) : M bool :=
  c ← get;
  if queueHasRoom c then enqueue node;; mret true else mret false.

(** One case of the [select] in [handlerQueueLoop]: the context is done, or
    a node is received ([now] is the clock the handler reads). *)
Inductive SelectCase : Type :=
| RecvNode (now : Z)
| CtxDone.

Section Router.

(** The codec ([waBinary.Unpack], [waBinary.Unmarshal]) and the node
    handlers that are defined in other files of the package. *)
Variable Unpack : list byte -> error + list byte.
Variable Unmarshal : list byte -> error + Node.
Variable otherHandler : nodeHandler -> Node -> M unit.

Definition handleFrame (data : list byte) : M unit :=
  match Unpack data with
  | inl _ =>
      log LogMain LWarn "Failed to decompress frame: %v";;
      log LogMain LDebug "Errored frame hex: %s"
  | inr decompressed =>
      match Unmarshal decompressed with
      | inl _ =>
          log LogMain LWarn "Failed to decode node in frame: %v";;
          log LogMain LDebug "Errored frame hex: %s"
      | inr node =>
          log LogRecv LDebug "%s";;
          if bool_decide (Tag node = "xmlstreamend") then
            expected ← isExpectedDisconnect;
            if negb expected
            then log LogMain LWarn "Received stream end frame"
            else mret tt
          else
            handled ← receiveResponse node;
            if handled : bool then mret tt
            else
              c ← get;
              match nodeHandlers c !! Tag node with
              | Some _ =>
                  if queueHasRoom c then enqueue node
                  else
                    log LogMain LWarn "Handler queue is full, message ordering is no longer guaranteed";;
                    spawn (TaskBlockingPush node)
              | None => log LogMain LDebug "Didn't handle WhatsApp node"
              end
      end
  end.

(** [cli.nodeHandlers[node.Tag](node)]: a missing key yields the nil
    func, and calling it panics. *)
Definition callNodeHandler (h : option nodeHandler) (node : Node) (now : Z) : M unit :=
  match h with
  | None => panic "invalid memory address or nil pointer dereference"
  | Some M_handleConnectSuccess => handleConnectSuccess node now
  | Some M_handleConnectFailure => handleConnectFailure node
  | Some M_handleStreamError => handleStreamError node
  | Some M_handleIB => handleIB node
  | Some other => otherHandler other node
  end.

(** [handlerQueueLoop], scripted by the cases its [select] takes.  A
    receive on an empty buffer does not fire: the loop keeps waiting. *)
Fixpoint handlerQueueLoop (cases : list SelectCase) : M LoopStatus :=
  match cases with
  | [] => mret StillLooping
  | CtxDone :: _ => mret Exited
  | RecvNode now :: rest =>
      c ← get;
      match handlerQueue c with
      | [] => handlerQueueLoop rest
      | node :: queue =>
          modify (set_handlerQueue queue);;
          callNodeHandler (nodeHandlers c !! Tag node) node now;;
          handlerQueueLoop rest
      end
  end.

(** *** The session as a transition system

    A [Session] is the client together with the detached pushers that
    are blocked on the full queue.  A transition is one call into the
    client or the completion of a blocked push. *)
Record Session : Type := mkSession {
  client : Client;
  blockedPushers : list Node
}.

Inductive Call : Type :=
| CallHandleFrame (data : list byte)
| CallHandlerQueueRecv (now : Z)
| CallAddEventHandler (handler : option EventHandler) (nextHandlerID : Z)
| CallRemoveEventHandler (id0 : Z)
| CallRemoveEventHandlers
| CallDispatchEvent (evt : Event)
| CallConnect (env : ConnectEnv)
| CallDisconnect
| CallOnDisconnect (ns : nat) (remote : bool)
| CallAutoReconnect (envs : list ConnectEnv)
| CallReconnectAfter515 (env : ConnectEnv)
| CallLogout (env : IQEnv)
| CallSendIQ (query : infoQuery) (env : IQEnv)
| CallGetProfilePictureInfo (jid : JID) (preview : bool) (env : IQEnv).

Definition runCall (call : Call) : M unit :=
  match call with
  | CallHandleFrame data => handleFrame data
  | CallHandlerQueueRecv now => handlerQueueLoop [RecvNode now];; mret tt
  | CallAddEventHandler handler g => AddEventHandler handler g;; mret tt
  | CallRemoveEventHandler id0 => RemoveEventHandler id0;; mret tt
  | CallRemoveEventHandlers => RemoveEventHandlers
  | CallDispatchEvent evt => dispatchEvent evt
  | CallConnect env => Connect env;; mret tt
  | CallDisconnect => Disconnect
  | CallOnDisconnect ns remote => onDisconnect ns remote
  | CallAutoReconnect envs => autoReconnect envs;; mret tt
  | CallReconnectAfter515 env => reconnectAfter515 env
  | CallLogout env => Logout env;; mret tt
  | CallSendIQ query env => sendIQ query env;; mret tt
  | CallGetProfilePictureInfo jid preview env =>
      GetProfilePictureInfo jid preview env;; mret tt
  end.

(** The nodes of the [TaskBlockingPush] tasks spawned in a trace. *)
Fixpoint spawnedPushers (trace : list Effect) : list Node :=
  match trace with
  | [] => []
  | ESpawn (TaskBlockingPush node) :: rest => node :: spawnedPushers rest
  | _ :: rest => spawnedPushers rest
  end.

Inductive step : Session -> Session -> Prop :=
| step_call (s : Session) (call : Call) :
    step s (mkSession (stateOf (runCall call (client s)))
                      (blockedPushers s
                       ++ spawnedPushers (traceOf (runCall call (client s)))))
| step_push (s : Session) (before after : list Node) (node : Node) :
    blockedPushers s = before ++ node :: after ->
    queueHasRoom (client s) = true ->
    step s (mkSession (stateOf (blockingPush node (client s)))
                      (before ++ after)).

Definition initial (deviceStore : Device) (randomBytes : byte * byte) : Session :=
  mkSession (NewClient deviceStore randomBytes) [].

Inductive reachable (s0 : Session) : Session -> Prop :=
| reachable_refl : reachable s0 s0
| reachable_step (s s' : Session) :
    reachable s0 s -> step s s' -> reachable s0 s'.

End Router.

(** [n] successive calls of [generateRequestID]. *)
Fixpoint requestIDs (n : nat) : M (list string) :=
  match n with
  | O => mret []
  | S n' =>
      reqID ← generateRequestID;
      rest ← requestIDs n';
      mret (reqID :: rest)
  end.

(** [hex.EncodeToString]: two lower-case hexadecimal digits per byte. *)
Definition hexDigit (n : N) : string :=
  match n with
  | 0 => "0" | 1 => "1" | 2 => "2" | 3 => "3" | 4 => "4" | 5 => "5"
  | 6 => "6" | 7 => "7" | 8 => "8" | 9 => "9" | 10 => "a" | 11 => "b"
  | 12 => "c" | 13 => "d" | 14 => "e" | _ => "f"
  end%N.

Fixpoint hex_EncodeToString (data : list byte) : string :=
  match data with
  | [] => ""
  | b :: rest =>
      hexDigit (Byte.to_N b / 16) +:+ hexDigit (Byte.to_N b mod 16)
      +:+ hex_EncodeToString rest
  end.

(** The unique prefix in the words of the specification: "two bytes,
    hex-encoded".  It is compared with the [uniqueID] of [NewClient]. *)
Definition specUniquePrefix (randomBytes : byte * byte) : string :=
  hex_EncodeToString [fst randomBytes; snd randomBytes].

(** ** Concrete inputs used by the examples *)

Definition emptyStore : Device := mkDevice None "" None.
Definition pairedStore : Device := mkDevice (Some "12345@s.whatsapp.net") "me" None.

Definition quietHandler : EventHandler := fun _ => HReturns.
Definition panickingHandler : EventHandler := fun _ => HPanics "boom".

(** Three subscribers, the middle one panics on every event. *)
Definition threeSubscribers : Client :=
  set_eventHandlers
    [ mkWrapped (Some quietHandler) 1;
      mkWrapped (Some panickingHandler) 2;
      mkWrapped (Some quietHandler) 3 ]
    (NewClient pairedStore (xff, x10)).

(** A connected, paired session on socket 7 with one outstanding waiter. *)
Definition connectedClient : Client :=
  set_idCounter 1
    (set_responseWaiters {["255.16-1" := 4%nat]}
       (set_socket (Some 7%nat) (NewClient pairedStore (xff, x10)))).

(** [<stream:error code="515"/>] *)
Definition streamError515 : Node :=
  mkNode "stream:error" {["code" := AString "515"]} ContentNil.

(** A [Connect] during which the network and the handshake succeed and
    socket 8 is installed. *)
Definition connectOk : ConnectEnv := mkConnectEnv false None (inr 8%nat).

(** A codec for the examples: frames are not compressed and every frame
    decodes to the given node. *)
Definition plainUnpack (data : list byte) : error + list byte := inr data.
Definition decodesTo (node : Node) (data : list byte) : error + Node := inr node.

(** [<xmlstreamend id="255.16-1"/>]: a stream end carrying the id of the
    outstanding waiter of [connectedClient]. *)
Definition streamEndWithID : Node :=
  mkNode "xmlstreamend" {["id" := AString "255.16-1"]} ContentNil.

(** [<iq id="255.16-1" type="result"/>] and [<message/>] *)
Definition iqResult : Node :=
  mkNode "iq" (<["id" := AString "255.16-1"]> {["type" := AString "result"]})
    ContentNil.
Definition messageNode : Node := mkNode "message" ∅ ContentNil.

(** A [Connect] during which the network is unreachable. *)
Definition connectRefused : ConnectEnv :=
  mkConnectEnv false (Some (ErrExternal "connection refused")) (inr 8%nat).

(** A paired session whose slot is empty, after two failed reconnects. *)
Definition disconnectedClient : Client :=
  set_AutoReconnectErrors 2 (NewClient pairedStore (xff, x10)).

(** Answers to an IQ: the frame goes out and the server replies with an
    empty result, or with an error node. *)
Definition iqResultEnv : IQEnv :=
  mkIQEnv (mkSendEnv None None) 5%nat (ReplyNode (mkNode "iq" {["type" := AString "result"]} ContentNil)).
Definition iqTimeoutEnv : IQEnv :=
  mkIQEnv (mkSendEnv None None) 5%nat ReplyTimeout.

(** [<iq type="error"><error code=.../></iq>] and the same reply whose
    error child carries a text but no code. *)
Definition iqErrorWithCode (code : string) : Node :=
  mkNode "iq" {["type" := AString "error"]}
    (ContentNodes [mkNode "error" {["code" := AString code]} ContentNil]).
Definition iqErrorWithoutCode : Node :=
  mkNode "iq" {["type" := AString "error"]}
    (ContentNodes [mkNode "error" {["text" := AString "item-not-found"]} ContentNil]).

Definition iqReplyEnv (reply : Node) : IQEnv :=
  mkIQEnv (mkSendEnv None None) 5%nat (ReplyNode reply).

(** ** Vocabulary of the statements *)

Definition invocations (hs : list wrappedEventHandler) (evt : Event) : list Effect :=
  map (fun h => EInvoke (id h) evt) hs.

(** A subscriber that returns normally on [evt]. *)
Definition returnsOn (evt : Event) (h : wrappedEventHandler) : Prop :=
  exists f, fn h = Some f /\ f evt = HReturns.

Definition panicsOn (evt : Event) (h : wrappedEventHandler) : Prop :=
  exists f v, fn h = Some f /\ f evt = HPanics v.

Definition hasOtherId (id0 : Z) (h : wrappedEventHandler) : Prop := id h <> id0.

(** All ids are positive and at most the process-wide counter [g]. *)
Definition idsBelow (g : Z) (hs : list wrappedEventHandler) : Prop :=
  Forall (fun h => 0 < id h <= g) hs.

(** The signals [clearResponseWaiters] sends: one per outstanding waiter,
    carrying no node. *)
Definition releases (waiters : gmap string nat) : list Effect :=
  map (fun kw => EWaiterSignal (fst kw) (snd kw) None) (map_to_list waiters).

(** The value of the expected-disconnect flag at the moment of the first
    socket stop of a trace, when the flag is [flag] at the start of the
    trace; [None] when the trace stops no socket. *)
Fixpoint flagAtFirstStop (flag : Z) (trace : list Effect) : option Z :=
  match trace with
  | [] => None
  | ESocketStop _ _ :: _ => Some flag
  | EStoreExpectedDisconnect v :: rest => flagAtFirstStop v rest
  | _ :: rest => flagAtFirstStop flag rest
  end.

(** The request id made from prefix [uniqueID c] and counter value
    [idCounter c + k], as [generateRequestID] prints it. *)
Definition requestIDAt (c : Client) (k : nat) : string :=
  uniqueID c +:+ pretty (wrapU64 (idCounter c + Z.of_nat k)).

(** The outstanding waiter an inbound node is addressed to, if any: the
    node has a string attribute [id] that is a key of the waiter map. *)
Definition waiterFor (c : Client) (node : Node) : option (string * nat) :=
  match attrStringOk node "id" with
  | (reqID, true) =>
      match responseWaiters c !! reqID with
      | Some waiter => Some (reqID, waiter)
      | None => None
      end
  | _ => None
  end.

Definition recvLog : Effect := ELog LogRecv LDebug "%s".

(** The durations slept in a trace, in nanoseconds. *)
Fixpoint sleepsOf (trace : list Effect) : list Z :=
  match trace with
  | [] => []
  | ESleep d :: rest => d :: sleepsOf rest
  | _ :: rest => sleepsOf rest
  end.

(** A script entry on which [Connect], called with an empty slot, returns
    an error that is not [ErrAlreadyConnected]. *)
Definition connectFails (env : ConnectEnv) : bool :=
  match fsConnectResult env with
  | Some e => negb (errors_Is e ErrAlreadyConnected)
  | None =>
      match handshakeResult env with
      | inl e => negb (errors_Is e ErrAlreadyConnected)
      | inr _ => false
      end
  end.

(** The largest error count whose delay still fits [int64] nanoseconds. *)
Definition maxReconnectErrors : Z := 4611686018.

(** The delays of attempts number [from + 1] to [from + n]: two seconds
    times the error count. *)
Definition reconnectDelays (from : Z) (n : nat) : list Z :=
  map (fun k => (from + Z.of_nat k) * 2 * time_Second) (seq 1 n).

(** A computation that leaves the handler table and the handler queue as
    they are and starts no detached pusher. *)
Definition keepsRouter {A} (m : M A) : Prop :=
  forall c,
    nodeHandlers (stateOf (m c)) = nodeHandlers c
    /\ handlerQueue (stateOf (m c)) = handlerQueue c
    /\ spawnedPushers (traceOf (m c)) = [].

(** A handler that does nothing, standing for the handlers of the other
    files in the examples. *)
Definition idleHandler (h : nodeHandler) (node : Node) : M unit := mret tt.

(** The session after one inbound [<message/>] frame. *)
Definition afterOneMessage : Session :=
  mkSession
    (stateOf (runCall plainUnpack (decodesTo messageNode) idleHandler
                (CallHandleFrame []) (NewClient pairedStore (xff, x10))))
    ([] ++ spawnedPushers
             (traceOf (runCall plainUnpack (decodesTo messageNode) idleHandler
                         (CallHandleFrame []) (NewClient pairedStore (xff, x10))))).

(** A node whose tag is a key of the handler table. *)
Definition routed (table : gmap string nodeHandler) (node : Node) : Prop :=
  is_Some (table !! Tag node).

(** The invariant of the router: the handler table is the one [NewClient]
    built, and every node that is buffered in the queue or held by a
    blocked pusher has its tag in the table. *)
Definition routerInvariant (table : gmap string nodeHandler) (s : Session) : Prop :=
  nodeHandlers (client s) = table
  /\ Forall (routed table) (handlerQueue (client s))
  /\ Forall (routed table) (blockedPushers s).

(** A computation that leaves the unique prefix as it is. *)
Definition keepsPrefix {A} (m : M A) : Prop :=
  forall c, uniqueID (stateOf (m c)) = uniqueID c.

(** * Further methods of the client *)

(** [IsConnected]: [cli.socket != nil && cli.socket.IsConnected()]; the
    argument is what the socket in the slot reports, and it is not asked
    when the slot is empty. *)
Definition IsConnected (socketReportsConnected : bool) : M bool :=
  c ← get;
  match socket c with
  | Some _ => mret socketReportsConnected
  | None => mret false
  end.

Definition passiveQuery (passive : bool) : infoQuery :=
  {| Namespace := "passive";
     IQType := "set";
     To := ServerJID;
     IQContent := [mkNode (if passive then "passive" else "active") ∅ ContentNil] |}.

Definition SetPassive (passive : bool) (env : IQEnv) : M (option error) :=
  r ← sendIQ (passiveQuery passive) env;
  match snd r with
  | Some err => mret (Some err)
  | None => mret None
  end.

Definition presenceNode (name state : string) : Node :=
  mkNode "presence"
    (<["name" := AString name]> {["type" := AString state]})
    ContentNil.

(** [types.Presence] is a string type. *)
Definition SendPresence (state : string) (env : SendEnv) : M (option error) :=
  c ← get;
  if bool_decide (String.length (PushName (Store c)) = 0%nat)
  then mret (Some ErrNoPushName)
  else sendNode (presenceNode (PushName (Store c)) state) env.

Definition chatstateNode (own jid : JID) (state : string) : Node :=
  mkNode "chatstate"
    (<["from" := AJID own]> {["to" := AJID jid]})
    (ContentNodes [mkNode state ∅ ContentNil]).

(** The node literal dereferences [cli.Store.ID] before [sendNode] is
    called. *)
Definition SendChatPresence (state : string) (jid : JID) (env : SendEnv)
  : M (option error) :=
  c ← get;
  match ID (Store c) with
  | None => panic "invalid memory address or nil pointer dereference"
  | Some own => sendNode (chatstateNode own jid state) env
  end.

(** The tasks started in a trace, in order. *)
Fixpoint spawnedTasks (trace : list Effect) : list Task :=
  match trace with
  | [] => []
  | ESpawn t :: rest => t :: spawnedTasks rest
  | _ :: rest => spawnedTasks rest
  end.

(** The frames sent in a trace, in order. *)
Fixpoint sentFrames (trace : list Effect) : list (nat * Node) :=
  match trace with
  | [] => []
  | ESendFrame sock node :: rest => (sock, node) :: sentFrames rest
  | _ :: rest => sentFrames rest
  end.

(** The waiter signals of a trace, in order. *)
Fixpoint waiterSignals (trace : list Effect) : list (string * nat * option Node) :=
  match trace with
  | [] => []
  | EWaiterSignal reqID w node :: rest => (reqID, w, node) :: waiterSignals rest
  | _ :: rest => waiterSignals rest
  end.

(** The [code] attribute as [handleStreamError] reads it, and whether the
    node carries a [conflict] child of type [device_removed]. *)
Definition streamErrorCode (node : Node) : string := fst (attrStringOk node "code").

Definition isDeviceRemoved (node : Node) : bool :=
  snd (GetOptionalChildByTag node "conflict")
  && bool_decide
       (fst (attrStringOk (fst (GetOptionalChildByTag node "conflict")) "type")
        = "device_removed").

(** [<stream:error code="401"><conflict type="device_removed"/></stream:error>],
    [<failure reason="401"/>] and [<ib><downgrade_webclient/></ib>] *)
Definition deviceRemovedError : Node :=
  mkNode "stream:error" {["code" := AString "401"]}
    (ContentNodes [mkNode "conflict" {["type" := AString "device_removed"]} ContentNil]).
Definition failure401 : Node :=
  mkNode "failure" {["reason" := AString "401"]} ContentNil.
Definition downgradeIB : Node :=
  mkNode "ib" ∅ (ContentNodes [mkNode "downgrade_webclient" ∅ ContentNil]).

(** What a frame decodes to, when both the decompression and the decoding
    succeed. *)
Definition decodeFrame
    (Unpack : list byte -> error + list byte)
    (Unmarshal : list byte -> error + Node)
    (data : list byte) : option Node :=
  match Unpack data with
  | inl _ => None
  | inr decompressed =>
      match Unmarshal decompressed with
      | inl _ => None
      | inr node => Some node
      end
  end.

(** The read loop of the socket calls [handleFrame] on every frame, one
    after the other. *)
Fixpoint handleFrames
    (Unpack : list byte -> error + list byte)
    (Unmarshal : list byte -> error + Node)
    (frames : list (list byte)) : M unit :=
  match frames with
  | [] => mret tt
  | data :: rest =>
      handleFrame Unpack Unmarshal data;;
      handleFrames Unpack Unmarshal rest
  end.

(** A node that [handleFrame] routes to the handler queue of [c]: it is not
    a stream end, no outstanding waiter claims it, and its tag is in the
    handler table. *)
Definition queuedBy (c : Client) (node : Node) : Prop :=
  Tag node <> "xmlstreamend"
  /\ waiterFor c node = None
  /\ is_Some (nodeHandlers c !! Tag node).

(** An effect [handleFrame] can have: a log line, the delivery of a node to
    a waiter, or the start of a detached pusher. *)
Definition routerEffect (e : Effect) : Prop :=
  match e with
  | ELog _ _ _ => True
  | EWaiterSignal _ _ (Some _) => True
  | ESpawn (TaskBlockingPush _) => True
  | _ => False
  end.

(** ** Device lists ([parseDeviceList])

    [types.JID], its constructor [NewADJID] and the attribute getter
    [GetInt64] belong to packages that are not among the sources; they are
    parameters.  JIDs are compared with [!=], so their type has decidable
    equality.  The slice behind [appendTo] is an option ([None] for the nil
    pointer); the function returns the returned slice ([None] for [nil])
    and the slice behind [appendTo] afterwards. *)
Section DeviceList.

Context {ADJID : Type} `{EqDecision ADJID}.
Variable NewADJID : string -> Z -> Z -> ADJID.
Variable GetInt64 : Node -> string -> Z * bool.

(** [byte(deviceID)]: the low eight bits. *)
Definition toByte (z : Z) : Z := z mod 256.

(** The [for _, device := range children] loop. *)
Fixpoint rangeDevices (user : string) (children : list Node)
    (appendTo : list ADJID) (ignore : option ADJID) : list ADJID :=
  match children with
  | [] => appendTo
  | device :: rest =>
      let (deviceID, ok) := GetInt64 device "id" in
      if negb (bool_decide (Tag device = "device")) || negb ok
      then rangeDevices user rest appendTo ignore
      else
        let deviceJID := NewADJID user 0 (toByte deviceID) in
        match ignore with
        | Some ignored =>
            if bool_decide (deviceJID = ignored)
            then rangeDevices user rest appendTo ignore
            else rangeDevices user rest (appendTo ++ [deviceJID]) ignore
        | None => rangeDevices user rest (appendTo ++ [deviceJID]) ignore
        end
  end.

Definition parseDeviceList (user : string) (deviceNode : Node)
    (appendTo : option (list ADJID)) (ignore : option ADJID)
  : option (list ADJID) * option (list ADJID) :=
  let deviceList := GetChildByTag deviceNode "device-list" in
  if negb (bool_decide (Tag deviceNode = "devices"))
     || negb (bool_decide (Tag deviceList = "device-list"))
  then (None, appendTo)
  else
    let children := GetChildren deviceList in
    let result :=
      rangeDevices user children
        (match appendTo with Some arr => arr | None => [] end) ignore in
    (Some result,
     match appendTo with
     | Some _ => Some result
     | None => None
     end).

(** The children that name a device: tagged [device], with an [id] that
    [GetInt64] accepts. *)
Definition namesDevice (device : Node) : bool :=
  bool_decide (Tag device = "device") && snd (GetInt64 device "id").

Definition deviceJIDOf (user : string) (device : Node) : ADJID :=
  NewADJID user 0 (toByte (fst (GetInt64 device "id"))).

(** The devices a list of children stands for, the ignored one left out. *)
Definition listedDevices (user : string) (children : list Node)
    (ignore : option ADJID) : list ADJID :=
  List.filter (fun jid => negb (bool_decide (Some jid = ignore)))
    (map (deviceJIDOf user) (List.filter namesDevice children)).

End DeviceList.

(** A device list for the examples: ids are read off a string attribute by
    a table, the JID is the triple. *)
Definition tableInt64 (node : Node) (key : string) : Z * bool :=
  match Attrs node !! key with
  | Some (AString "0") => (0, true)
  | Some (AString "1") => (1, true)
  | Some (AString "257") => (257, true)
  | _ => (0, false)
  end.

Definition devicesNode : Node :=
  mkNode "devices" ∅
    (ContentNodes
       [mkNode "device-list" ∅
          (ContentNodes
             [mkNode "device" {["id" := AString "0"]} ContentNil;
              mkNode "device" {["id" := AString "1"]} ContentNil;
              mkNode "key-index-list" ∅ ContentNil;
              mkNode "device" {["id" := AString "257"]} ContentNil])]).

(** [<picture id=... url=... type=... direct_path=.../>] inside a result *)
Definition pictureResult : Node :=
  mkNode "iq" {["type" := AString "result"]}
    (ContentNodes
       [mkNode "picture"
          (<["id" := AString "1"]>
             (<["url" := AString "https://pps.whatsapp.net/a"]>
                (<["type" := AString "image"]>
                   {["direct_path" := AString "/a"]})))
          ContentNil]).

(** Decimal digits, and strings made of them. *)
Definition isDigitChar (a : Ascii.ascii) : bool :=
  existsb (Ascii.eqb a) (String.list_ascii_of_string "0123456789").

Fixpoint digitsOnly (s : string) : bool :=
  match s with
  | EmptyString => true
  | String a rest => isDigitChar a && digitsOnly rest
  end.

(** Two subscribers that return on every event, registered with ids 1
    and 2. *)
Definition twoQuietSubscribers : Client :=
  set_eventHandlers
    [ mkWrapped (Some quietHandler) 1;
      mkWrapped (Some quietHandler) 2 ]
    (NewClient pairedStore (xff, x10)).

(** * Verification *)

(** ** Unfolding the monad *)

Ltac unfold_M :=
  unfold mbind, M_bind, mret, M_ret, bind, ret, log, spawn, emit, get, modify, panic in *.

(** ** Event bus *)

Lemma rangeHandlers_all_return evt hs c :
  Forall (returnsOn evt) hs ->
  rangeHandlers hs evt c = (Ret tt, c, invocations hs evt).
Proof.
  induction 1 as [|h rest [f [Hf Hr]] _ IH]; [reflexivity|].
  simpl. unfold callHandler. rewrite Hf.
  unfold mbind, M_bind, bind, emit. rewrite Hr. simpl.
  unfold mbind, M_bind, bind in IH. rewrite IH. reflexivity.
Qed.

Lemma rangeHandlers_panic evt pre h post c :
  Forall (returnsOn evt) pre ->
  panicsOn evt h ->
  exists v, rangeHandlers (pre ++ h :: post) evt c
            = (Panic v, c, invocations (pre ++ [h]) evt).
Proof.
  intros Hpre (f & v & Hf & Hp). exists v.
  induction Hpre as [|p rest [g [Hg Hr]] _ IH].
  - simpl. unfold callHandler. rewrite Hf.
    unfold mbind, M_bind, bind, emit. rewrite Hp. reflexivity.
  - simpl. unfold callHandler at 1. rewrite Hg.
    unfold mbind, M_bind, bind, emit. rewrite Hr. simpl.
    rewrite IH. reflexivity.
Qed.

(** When every subscriber returns, all of them are invoked in registration
    order and nothing is logged. *)
Lemma dispatchEvent_all_return evt c :
  Forall (returnsOn evt) (eventHandlers c) ->
  dispatchEvent evt c = (Ret tt, c, invocations (eventHandlers c) evt).
Proof.
  intros H. unfold dispatchEvent, deferRecover.
  unfold mbind at 1, M_bind, bind, get.
  rewrite (rangeHandlers_all_return _ _ _ H). simpl.
  rewrite !app_nil_r. reflexivity.
Qed.

(** C1 (as amended): when a subscriber panics while handling an event, the
    panic is recovered by the single deferred function of [dispatchEvent]
    and logged once with the stack trace, [dispatchEvent] returns normally
    and leaves the client as it was; the subscribers registered before the
    panicking one, and the panicking one itself, are the only ones invoked:
    the subscribers after it are not invoked for that event. *)
Theorem dispatchEvent_panic_recovered evt pre h post c :
  eventHandlers c = pre ++ h :: post ->
  Forall (returnsOn evt) pre ->
  panicsOn evt h ->
  dispatchEvent evt c
  = (Ret tt, c,
     invocations pre evt
     ++ [EInvoke (id h) evt; ELog LogMain LError panicFormat]).
Proof.
  intros Hhs Hpre Hh.
  destruct (rangeHandlers_panic evt pre h post c Hpre Hh) as [v Hv].
  unfold dispatchEvent, deferRecover.
  unfold mbind at 1, M_bind, bind, get. rewrite Hhs, Hv. simpl.
  unfold invocations. rewrite map_app. simpl.
  rewrite <- app_assoc. reflexivity.
Qed.

Lemma dispatchEvent_panic_recovered_witness :
  dispatchEvent EvConnected threeSubscribers
  = (Ret tt, threeSubscribers,
     [EInvoke 1 EvConnected; EInvoke 2 EvConnected;
      ELog LogMain LError panicFormat]).
Proof.
  apply (dispatchEvent_panic_recovered EvConnected
           [mkWrapped (Some quietHandler) 1]
           (mkWrapped (Some panickingHandler) 2)
           [mkWrapped (Some quietHandler) 3]
           threeSubscribers).
  - reflexivity.
  - constructor; [|constructor]. exists quietHandler. split; reflexivity.
  - exists panickingHandler, "boom". split; reflexivity.
Defined.

(** C1 (as stated) fails: with three subscribers of which the middle one
    panics, the third one is never invoked with the event. *)
Lemma dispatchEvent_third_not_invoked :
  ~ In (EInvoke 3 EvConnected)
       (traceOf (dispatchEvent EvConnected threeSubscribers)).
Proof.
  vm_compute. intros [H|[H|[H|[]]]]; discriminate H.
Qed.

(** *** Removing a subscriber *)

Lemma rangeFind_found id0 pre h post k :
  Forall (hasOtherId id0) pre -> id h = id0 ->
  rangeFind id0 (pre ++ h :: post) k = Some (k + length pre)%nat.
Proof.
  intros Hpre Hh. revert k.
  induction Hpre as [|p rest Hp _ IH]; intros k; simpl.
  - rewrite bool_decide_eq_true_2 by exact Hh. f_equal. lia.
  - rewrite bool_decide_eq_false_2 by exact Hp. rewrite IH. f_equal. lia.
Qed.

Lemma rangeFind_none id0 hs k :
  Forall (hasOtherId id0) hs -> rangeFind id0 hs k = None.
Proof.
  intros H. revert k. induction H as [|p rest Hp _ IH]; intros k; simpl.
  - reflexivity.
  - rewrite bool_decide_eq_false_2 by exact Hp. apply IH.
Qed.

(** Dropping the last slot after shifting the tail one place to the left. *)
Lemma take_alter_last {A} (f : A -> A) (l : list A) (x : A) :
  take (length (alter f (length (l ++ [x]) - 1)%nat (l ++ [x])) - 1)
       (alter f (length (l ++ [x]) - 1)%nat (l ++ [x])) = l.
Proof.
  rewrite length_alter, length_app. simpl.
  replace (length l + 1 - 1)%nat with (length l) by lia.
  rewrite take_alter_ge by lia.
  apply take_app_length.
Qed.

Lemma copySlice_shift {A} (h : A) (post : list A) :
  post <> [] ->
  exists l x, copySlice (h :: post) post = post ++ [x] /\ l ++ [x] = h :: post.
Proof.
  intros Hne. unfold copySlice.
  destruct (exists_last Hne) as [l [x Hl]].
  exists (h :: l), x. split.
  - rewrite take_ge by (simpl; lia).
    f_equal. rewrite Hl. change (h :: l ++ [x]) with ((h :: l) ++ [x]).
    replace (length (l ++ [x])) with (length (h :: l))
      by (rewrite length_app; simpl; lia).
    apply drop_app_length.
  - rewrite Hl. reflexivity.
Qed.

Lemma RemoveEventHandler_found id0 pre h post c :
  eventHandlers c = pre ++ h :: post ->
  Forall (hasOtherId id0) pre ->
  id h = id0 ->
  RemoveEventHandler id0 c = (Ret true, set_eventHandlers (pre ++ post) c, []).
Proof.
  intros Hhs Hpre Hh. unfold RemoveEventHandler.
  rewrite Hhs, (rangeFind_found id0 pre h post 0 Hpre Hh). simpl Nat.add.
  destruct pre as [|p pre].
  - reflexivity.
  - rewrite bool_decide_eq_false_2 by (simpl; lia).
    cbv zeta. do 3 f_equal.
    destruct (decide (post = [])) as [->|Hne].
    + rewrite bool_decide_eq_false_2 by (rewrite length_app; simpl; lia).
      rewrite app_nil_r.
      change (p :: pre ++ [h]) with ((p :: pre) ++ [h]).
      apply take_alter_last.
    + rewrite bool_decide_eq_true_2.
      2:{ rewrite length_app. simpl. destruct post; [congruence|simpl; lia]. }
      rewrite take_app_length.
      rewrite drop_app_length.
      replace (drop (S (length (p :: pre))) ((p :: pre) ++ h :: post)) with post.
      2:{ replace (S (length (p :: pre))) with (length (p :: pre) + 1)%nat by lia.
          rewrite <- drop_drop, drop_app_length. reflexivity. }
      destruct (copySlice_shift h post Hne) as (l & x & -> & _).
      rewrite app_assoc. apply take_alter_last.
Qed.

Lemma RemoveEventHandler_missing id0 c :
  Forall (hasOtherId id0) (eventHandlers c) ->
  RemoveEventHandler id0 c = (Ret false, c, []).
Proof.
  intros H. unfold RemoveEventHandler. rewrite (rangeFind_none _ _ _ H).
  reflexivity.
Qed.




Lemma AddEventHandler_eq handler g c :
  AddEventHandler handler g c
  = (Ret (wrapU32 (g + 1)),
     set_eventHandlers
       (eventHandlers c ++ [mkWrapped handler (wrapU32 (g + 1))]) c,
     []).
Proof. reflexivity. Qed.

Lemma AddEventHandler_ids handler g c :
  0 <= g -> g + 1 < 2 ^ 32 ->
  idsBelow g (eventHandlers c) ->
  NoDup (map id (eventHandlers c)) ->
  outcomeOf (AddEventHandler handler g c) = Ret (g + 1)
  /\ eventHandlers (stateOf (AddEventHandler handler g c))
     = eventHandlers c ++ [mkWrapped handler (g + 1)]
  /\ idsBelow (g + 1) (eventHandlers (stateOf (AddEventHandler handler g c)))
  /\ NoDup (map id (eventHandlers (stateOf (AddEventHandler handler g c)))).
Proof.
  intros Hg Hlt Hbelow Hnd.
  assert (Hw : wrapU32 (g + 1) = g + 1)
    by (unfold wrapU32; apply Z.mod_small; lia).
  rewrite AddEventHandler_eq, Hw.
  unfold outcomeOf, stateOf, set_eventHandlers, eventHandlers at 1 3 5; simpl.
  repeat split.
  - apply Forall_app. split.
    + eapply Forall_impl; [exact Hbelow|]. simpl. intros; lia.
    + constructor; [simpl; lia|constructor].
  - rewrite map_app. simpl. apply NoDup_app. repeat split.
    + exact Hnd.
    + intros x Hx Hx'. apply list_elem_of_In in Hx, Hx'.
      destruct Hx' as [<-|[]].
      apply in_map_iff in Hx as (h & Hid & Hh).
      unfold idsBelow in Hbelow. rewrite Forall_forall in Hbelow.
      apply list_elem_of_In, Hbelow in Hh. lia.
    + apply NoDup_singleton.
Qed.



(** ** Disconnect callback *)

Lemma onDisconnect_stale ns remote c :
  socket c <> Some ns ->
  onDisconnect ns remote c
  = (Ret tt, c,
     [ESocketStop ns false;
      ELog LogMain LDebug "Ignoring OnDisconnect on different socket"]).
Proof.
  intros H. unfold onDisconnect. unfold_M.
  rewrite bool_decide_eq_false_2 by exact H. reflexivity.
Qed.

Lemma onDisconnect_active ns remote c :
  socket c = Some ns ->
  onDisconnect ns remote c
  = (Ret tt, set_responseWaiters ∅ (set_socket None c),
     ESocketStop ns false :: releases (responseWaiters c) ++
     (if negb (bool_decide (expectedDisconnectVal c = 1)) && remote
      then [ELog LogMain LDebug "Emitting Disconnected event";
            ESpawn (TaskDispatchEvent EvDisconnected);
            ESpawn TaskAutoReconnect]
      else if remote
           then [ELog LogMain LDebug "OnDisconnect() called, but it was expected, so not emitting event"]
           else [ELog LogMain LDebug "OnDisconnect() called after manual disconnection"])).
Proof.
  intros H. unfold onDisconnect, clearResponseWaiters, isExpectedDisconnect. unfold_M.
  rewrite bool_decide_eq_true_2 by exact H. simpl.
  destruct (bool_decide (expectedDisconnectVal c = 1)), remote; simpl; 
  rewrite ?app_nil_r; reflexivity.
Qed.

Lemma releases_complete (waiters : gmap string nat) reqID w :
  waiters !! reqID = Some w -> In (EWaiterSignal reqID w None) (releases waiters).
Proof.
  intros H. unfold releases.
  apply (in_map (fun kw => EWaiterSignal (fst kw) (snd kw) None)
           (map_to_list waiters) (reqID, w)).
  apply list_elem_of_In, elem_of_map_to_list, H.
Qed.

Lemma releases_no_spawn (waiters : gmap string nat) t :
  ~ In (ESpawn t) (releases waiters).
Proof.
  unfold releases. intros H. apply in_map_iff in H as (kw & Heq & _).
  discriminate Heq.
Qed.

(** C2: [onDisconnect ns remote] on a socket that is not the one in the slot
    changes nothing in the session (it only stops the reported socket and
    logs at debug level).  On the active socket it clears the slot, signals
    every outstanding waiter and empties the waiter map; the Disconnected
    event is dispatched, and [autoReconnect] started, exactly when [remote]
    holds and the expected-disconnect flag reads false at that moment. *)
Theorem onDisconnect_correct ns remote c :
  (socket c <> Some ns ->
   onDisconnect ns remote c
   = (Ret tt, c,
      [ESocketStop ns false;
       ELog LogMain LDebug "Ignoring OnDisconnect on different socket"]))
  /\ (socket c = Some ns ->
      outcomeOf (onDisconnect ns remote c) = Ret tt
      /\ stateOf (onDisconnect ns remote c)
         = set_responseWaiters ∅ (set_socket None c)
      /\ (forall reqID w,
             responseWaiters c !! reqID = Some w ->
             In (EWaiterSignal reqID w None) (traceOf (onDisconnect ns remote c)))
      /\ (In (ESpawn (TaskDispatchEvent EvDisconnected))
             (traceOf (onDisconnect ns remote c))
          <-> remote = true /\ outcomeOf (isExpectedDisconnect c) = Ret false)
      /\ (In (ESpawn TaskAutoReconnect) (traceOf (onDisconnect ns remote c))
          <-> remote = true /\ outcomeOf (isExpectedDisconnect c) = Ret false)).
Proof.
  split; [apply onDisconnect_stale|].
  intros H. rewrite (onDisconnect_active ns remote c H).
  unfold outcomeOf, stateOf, traceOf, isExpectedDisconnect; unfold_M; simpl.
  split; [reflexivity|]. split; [reflexivity|]. split.
  - intros reqID w Hw. right. apply in_app_iff. left.
    apply releases_complete, Hw.
  - split.
    + split.
      * intros [Hd|Hin]; [discriminate Hd|].
        apply in_app_iff in Hin as [Hin|Hin];
          [exfalso; exact (releases_no_spawn _ _ Hin)|].
        destruct (bool_decide (expectedDisconnectVal c = 1)), remote;
          simpl in Hin; intuition (try discriminate; auto).
      * intros [-> Hexp]. injection Hexp as ->. right.
        apply in_app_iff. right. simpl. auto.
    + split.
      * intros [Hd|Hin]; [discriminate Hd|].
        apply in_app_iff in Hin as [Hin|Hin];
          [exfalso; exact (releases_no_spawn _ _ Hin)|].
        destruct (bool_decide (expectedDisconnectVal c = 1)), remote;
          simpl in Hin; intuition (try discriminate; auto).
      * intros [-> Hexp]. injection Hexp as ->. right.
        apply in_app_iff. right. simpl. auto.
Qed.

Lemma onDisconnect_correct_witness :
  onDisconnect 3 true connectedClient
  = (Ret tt, connectedClient,
     [ESocketStop 3 false;
      ELog LogMain LDebug "Ignoring OnDisconnect on different socket"])
  /\ stateOf (onDisconnect 7 true connectedClient)
     = set_responseWaiters ∅ (set_socket None connectedClient).
Proof.
  split.
  - apply (proj1 (onDisconnect_correct 3 true connectedClient)).
    simpl. discriminate.
  - apply (proj2 (onDisconnect_correct 7 true connectedClient)).
    reflexivity.
Defined.

(** ** Stream error 515 *)

Lemma handleStreamError_515 node c :
  fst (attrStringOk node "code") = "515" ->
  handleStreamError node c
  = (Ret tt, set_IsLoggedIn false c,
     [ELog LogMain LInfo "Got 515 code, reconnecting...";
      ESpawn TaskReconnect515]).
Proof.
  intros H. unfold handleStreamError. rewrite H. reflexivity.
Qed.

Lemma Disconnect_active c s :
  socket c = Some s ->
  Disconnect c = (Ret tt, set_socket None c, [ESocketStop s true]).
Proof.
  intros H. unfold Disconnect, unlockedDisconnect. unfold_M.
  rewrite H. unfold_M. rewrite H. reflexivity.
Qed.

Lemma Disconnect_idle c :
  socket c = None -> Disconnect c = (Ret tt, c, []).
Proof.
  intros H. unfold Disconnect. unfold_M. rewrite H. reflexivity.
Qed.

(** [Connect] on an empty slot starts by clearing the flag, and never
    raises it. *)
Lemma Connect_idle_trace env c :
  socket c = None ->
  exists rest,
    traceOf (Connect env c) = EStoreExpectedDisconnect 0 :: ENewFrameSocket :: rest
    /\ ~ In (EStoreExpectedDisconnect 1) rest
    /\ (forall s b, ~ In (ESocketStop s b) rest).
Proof.
  intros H. unfold Connect, resetExpectedDisconnect, doHandshake. unfold_M.
  rewrite H. simpl.
  destruct (fsConnectResult env) as [e|]; simpl.
  - eexists. split; [reflexivity|]. split.
    + intros [Hd|[]]; discriminate Hd.
    + intros s b [Hd|[]]; discriminate Hd.
  - destruct (handshakeResult env) as [e|ns]; simpl.
    + eexists. split; [reflexivity|]. split.
      * intros [Hd|[]]; discriminate Hd.
      * intros s b [Hd|[]]; discriminate Hd.
    + eexists. split; [reflexivity|]. split.
      * intros [Hd|[Hd|[]]]; discriminate Hd.
      * intros s b [Hd|[Hd|[]]]; discriminate Hd.
Qed.

Lemma reconnectAfter515_trace env c s :
  socket c = Some s ->
  exists rest,
    traceOf (reconnectAfter515 env c)
    = ESocketStop s true :: EStoreExpectedDisconnect 0 :: rest
    /\ ~ In (EStoreExpectedDisconnect 1) rest.
Proof.
  intros H. unfold reconnectAfter515.
  unfold mbind at 1, M_bind, bind. rewrite (Disconnect_active c s H).
  unfold mbind at 1, M_bind, bind.
  destruct (Connect_idle_trace env (set_socket None c) eq_refl)
    as (rest & Htrace & Hno & _).
  destruct (Connect env (set_socket None c)) as [[[[e|]|v] c1] t1];
    simpl in Htrace; subst t1; unfold_M; simpl.
  - eexists. split; [reflexivity|].
    intros [Hd|Hin]; [discriminate Hd|].
    apply in_app_iff in Hin as [Hin|[Hd|[]]]; [auto|discriminate Hd].
  - eexists. split; [reflexivity|].
    rewrite app_nil_r. intros [Hd|Hin]; [discriminate Hd|auto].
  - eexists. split; [reflexivity|].
    intros [Hd|Hin]; [discriminate Hd|auto].
Qed.

(** C3 (as amended): handling a stream:error with code 515 does not touch
    the expected-disconnect flag.  The handler marks the session logged out
    and starts a task; the task calls [Disconnect], which stops the socket
    and clears the slot with the flag as it was, and then [Connect], whose
    only write to the flag clears it.  The stop raises no Disconnected
    event because the slot is already empty: an [onDisconnect] for the
    stopped socket is ignored as stale. *)
Theorem handleStreamError_515_reconnect node c env s :
  fst (attrStringOk node "code") = "515" ->
  socket c = Some s ->
  handleStreamError node c
  = (Ret tt, set_IsLoggedIn false c,
     [ELog LogMain LInfo "Got 515 code, reconnecting...";
      ESpawn TaskReconnect515])
  /\ (exists rest,
         traceOf (reconnectAfter515 env (set_IsLoggedIn false c))
         = ESocketStop s true :: EStoreExpectedDisconnect 0 :: rest
         /\ ~ In (EStoreExpectedDisconnect 1) rest)
  /\ flagAtFirstStop (expectedDisconnectVal c)
       (traceOf (handleStreamError node c)
        ++ traceOf (reconnectAfter515 env (set_IsLoggedIn false c)))
     = Some (expectedDisconnectVal c)
  /\ (forall remote,
         onDisconnect s remote (stateOf (Disconnect (set_IsLoggedIn false c)))
         = (Ret tt, stateOf (Disconnect (set_IsLoggedIn false c)),
            [ESocketStop s false;
             ELog LogMain LDebug "Ignoring OnDisconnect on different socket"])).
Proof.
  intros Hcode Hs.
  assert (Hs' : socket (set_IsLoggedIn false c) = Some s) by exact Hs.
  destruct (reconnectAfter515_trace env _ s Hs') as (rest & Htrace & Hno).
  rewrite (handleStreamError_515 node c Hcode).
  split; [reflexivity|]. split; [eauto|]. split.
  - rewrite Htrace. reflexivity.
  - intros remote. rewrite (Disconnect_active _ s Hs').
    apply onDisconnect_stale. simpl. discriminate.
Qed.

Lemma handleStreamError_515_reconnect_witness :
  handleStreamError streamError515 connectedClient
  = (Ret tt, set_IsLoggedIn false connectedClient,
     [ELog LogMain LInfo "Got 515 code, reconnecting...";
      ESpawn TaskReconnect515]).
Proof.
  apply (handleStreamError_515_reconnect streamError515 connectedClient
           connectOk 7%nat); reflexivity.
Defined.

(** C3 (as stated) fails: on a connected session whose flag is down, the
    515 handler and the task it starts stop the socket while the flag is
    still down; the flag is never raised. *)
Lemma handleStreamError_515_flag_down_at_stop :
  expectedDisconnectVal connectedClient = 0
  /\ flagAtFirstStop (expectedDisconnectVal connectedClient)
       (traceOf (handleStreamError streamError515 connectedClient)
        ++ traceOf (reconnectAfter515 connectOk
                      (stateOf (handleStreamError streamError515 connectedClient))))
     = Some 0
  /\ ~ In (EStoreExpectedDisconnect 1)
          (traceOf (handleStreamError streamError515 connectedClient)
           ++ traceOf (reconnectAfter515 connectOk
                         (stateOf (handleStreamError streamError515 connectedClient)))).
Proof.
  split; [reflexivity|]. split; [vm_compute; reflexivity|].
  vm_compute. intuition discriminate.
Qed.

(** ** The unique prefix is never reassigned *)

Lemma keepsPrefix_ret {A} (a : A) : keepsPrefix (mret a).
Proof. intros c. reflexivity. Qed.

Lemma keepsPrefix_panic {A} v : keepsPrefix (@panic A v).
Proof. intros c. reflexivity. Qed.

Lemma keepsPrefix_get : keepsPrefix get.
Proof. intros c. reflexivity. Qed.

Lemma keepsPrefix_emit e : keepsPrefix (emit e).
Proof. intros c. reflexivity. Qed.

Lemma keepsPrefix_modify (f : Client -> Client) :
  (forall c, uniqueID (f c) = uniqueID c) -> keepsPrefix (modify f).
Proof. intros H c. apply H. Qed.

Lemma keepsPrefix_bind {A B} (m : M A) (k : A -> M B) :
  keepsPrefix m -> (forall a, keepsPrefix (k a)) -> keepsPrefix (m ≫= k).
Proof.
  intros Hm Hk c. specialize (Hm c). unfold mbind, M_bind, bind.
  destruct (m c) as [[[a|v] c1] t1]; [|exact Hm].
  specialize (Hk a c1). destruct (k a c1) as [[o c2] t2].
  unfold stateOf in *. simpl in *. congruence.
Qed.

Lemma keepsPrefix_deferRecover {A} (m : M A) zero h :
  keepsPrefix m -> (forall r, keepsPrefix (h r)) ->
  keepsPrefix (deferRecover m zero h).
Proof.
  intros Hm Hh c. specialize (Hm c). unfold deferRecover.
  destruct (m c) as [[[a|v] c1] t1].
  - specialize (Hh None c1). destruct (h None c1) as [[[[]|v'] c2] t2];
      unfold stateOf in *; simpl in *; congruence.
  - specialize (Hh (Some v) c1). destruct (h (Some v) c1) as [[[[]|v'] c2] t2];
      unfold stateOf in *; simpl in *; congruence.
Qed.

Create HintDb prefix discriminated.

Ltac keeps_prefix :=
  repeat first
    [ solve [auto with prefix]
    | apply keepsPrefix_ret
    | apply keepsPrefix_panic
    | apply keepsPrefix_get
    | apply keepsPrefix_emit
    | apply keepsPrefix_bind; [|intros ?]
    | apply keepsPrefix_modify; intros ?; reflexivity
    | apply keepsPrefix_deferRecover; [|intros ?]
    | match goal with
      | |- keepsPrefix (match ?x with _ => _ end) => destruct x
      end ].

Lemma keepsPrefix_clearResponseWaiters : keepsPrefix clearResponseWaiters.
Proof. intros c. reflexivity. Qed.

Lemma keepsPrefix_RemoveEventHandler id0 : keepsPrefix (RemoveEventHandler id0).
Proof.
  intros c. unfold RemoveEventHandler.
  destruct (rangeFind id0 (eventHandlers c) 0) as [index|]; [|reflexivity].
  destruct (bool_decide (index = 0%nat)); reflexivity.
Qed.
#[local] Hint Resolve keepsPrefix_clearResponseWaiters
  keepsPrefix_RemoveEventHandler : prefix.

Lemma keepsPrefix_Disconnect : keepsPrefix Disconnect.
Proof. unfold Disconnect, unlockedDisconnect. keeps_prefix. Qed.

Lemma keepsPrefix_onDisconnect ns remote : keepsPrefix (onDisconnect ns remote).
Proof. unfold onDisconnect, isExpectedDisconnect, log, spawn. keeps_prefix. Qed.

Lemma keepsPrefix_Connect env : keepsPrefix (Connect env).
Proof.
  unfold Connect, unlockedDisconnect, resetExpectedDisconnect, doHandshake, spawn.
  keeps_prefix.
Qed.
#[local] Hint Resolve keepsPrefix_Disconnect keepsPrefix_onDisconnect
  keepsPrefix_Connect : prefix.

Lemma keepsPrefix_autoReconnectLoop envs : keepsPrefix (autoReconnectLoop envs).
Proof. induction envs as [|env rest IH]; simpl; unfold log; keeps_prefix. Qed.
#[local] Hint Resolve keepsPrefix_autoReconnectLoop : prefix.

Lemma keepsPrefix_autoReconnect envs : keepsPrefix (autoReconnect envs).
Proof. unfold autoReconnect. keeps_prefix. Qed.

Lemma keepsPrefix_reconnectAfter515 env : keepsPrefix (reconnectAfter515 env).
Proof. unfold reconnectAfter515, log. keeps_prefix. Qed.

Lemma keepsPrefix_sendIQ query env : keepsPrefix (sendIQ query env).
Proof. unfold sendIQ, generateRequestID, sendNode, log. keeps_prefix. Qed.

Lemma keepsPrefix_Store_Delete : keepsPrefix Store_Delete.
Proof. unfold Store_Delete. keeps_prefix. Qed.
#[local] Hint Resolve keepsPrefix_autoReconnect keepsPrefix_reconnectAfter515
  keepsPrefix_sendIQ keepsPrefix_Store_Delete : prefix.

Lemma keepsPrefix_Logout env : keepsPrefix (Logout env).
Proof. unfold Logout. keeps_prefix. Qed.

Lemma keepsPrefix_GetProfilePictureInfo jid preview env :
  keepsPrefix (GetProfilePictureInfo jid preview env).
Proof. unfold GetProfilePictureInfo, derefNode, assertString. keeps_prefix. Qed.

Lemma keepsPrefix_rangeHandlers hs evt : keepsPrefix (rangeHandlers hs evt).
Proof. induction hs as [|h rest IH]; simpl; unfold callHandler; keeps_prefix. Qed.
#[local] Hint Resolve keepsPrefix_rangeHandlers : prefix.

Lemma keepsPrefix_dispatchEvent evt : keepsPrefix (dispatchEvent evt).
Proof. unfold dispatchEvent, log. keeps_prefix. Qed.

Lemma keepsPrefix_AddEventHandler handler g : keepsPrefix (AddEventHandler handler g).
Proof. unfold AddEventHandler. keeps_prefix. Qed.

Lemma keepsPrefix_RemoveEventHandlers : keepsPrefix RemoveEventHandlers.
Proof. unfold RemoveEventHandlers. keeps_prefix. Qed.

Lemma keepsPrefix_handleStreamError node : keepsPrefix (handleStreamError node).
Proof. unfold handleStreamError, expectDisconnect, log, spawn. keeps_prefix. Qed.

Lemma keepsPrefix_handleConnectFailure node : keepsPrefix (handleConnectFailure node).
Proof. unfold handleConnectFailure, expectDisconnect, log, spawn. keeps_prefix. Qed.

Lemma keepsPrefix_handleConnectSuccess node now :
  keepsPrefix (handleConnectSuccess node now).
Proof. unfold handleConnectSuccess, log, spawn. keeps_prefix. Qed.

Lemma keepsPrefix_handleIB node : keepsPrefix (handleIB node).
Proof. unfold handleIB, spawn. keeps_prefix. Qed.

#[local] Hint Resolve keepsPrefix_Logout keepsPrefix_GetProfilePictureInfo
  keepsPrefix_dispatchEvent keepsPrefix_AddEventHandler
  keepsPrefix_RemoveEventHandlers keepsPrefix_handleStreamError
  keepsPrefix_handleConnectFailure keepsPrefix_handleConnectSuccess
  keepsPrefix_handleIB : prefix.

Section PrefixInvariant.

Variable Unpack : list byte -> error + list byte.
Variable Unmarshal : list byte -> error + Node.
Variable otherHandler : nodeHandler -> Node -> M unit.

(** The handlers defined in other files of the package are taken not to
    assign the prefix. *)
Hypothesis otherHandler_keeps : forall h node, keepsPrefix (otherHandler h node).

Lemma keepsPrefix_handleFrame data : keepsPrefix (handleFrame Unpack Unmarshal data).
Proof.
  unfold handleFrame, receiveResponse, isExpectedDisconnect, enqueue, log, spawn.
  keeps_prefix.
Qed.

Lemma keepsPrefix_callNodeHandler h node now :
  keepsPrefix (callNodeHandler otherHandler h node now).
Proof. destruct h as [[]|]; simpl; auto with prefix; keeps_prefix. Qed.

Lemma keepsPrefix_handlerQueueLoop cases :
  keepsPrefix (handlerQueueLoop otherHandler cases).
Proof.
  induction cases as [|[now|] rest IH]; simpl; keeps_prefix.
  apply keepsPrefix_callNodeHandler.
Qed.

Lemma keepsPrefix_runCall call :
  keepsPrefix (runCall Unpack Unmarshal otherHandler call).
Proof.
  destruct call; cbv beta iota delta [runCall];
    first
      [ apply keepsPrefix_handleFrame
      | apply keepsPrefix_bind;
        [apply keepsPrefix_handlerQueueLoop|intros ?; apply keepsPrefix_ret]
      | solve [keeps_prefix] ].
Qed.

Lemma reachable_uniqueID s0 s :
  reachable Unpack Unmarshal otherHandler s0 s ->
  uniqueID (client s) = uniqueID (client s0).
Proof.
  induction 1 as [|s s' _ IH Hstep]; [reflexivity|].
  rewrite <- IH. destruct Hstep as [s call|s before after node Hb Hroom].
  - apply keepsPrefix_runCall.
  - simpl. unfold blockingPush, enqueue. unfold_M. rewrite Hroom. reflexivity.
Qed.

End PrefixInvariant.

(** ** Request ids *)

Lemma wrapU64_add_l a b : wrapU64 (wrapU64 a + b) = wrapU64 (a + b).
Proof. unfold wrapU64. apply Zplus_mod_idemp_l. Qed.

Lemma wrapU64_range a : 0 <= wrapU64 a < 2 ^ 64.
Proof. unfold wrapU64. apply Z.mod_pos_bound. lia. Qed.

Lemma generateRequestID_eq c :
  generateRequestID c
  = (Ret (requestIDAt c 1), set_idCounter (wrapU64 (idCounter c + 1)) c, []).
Proof. reflexivity. Qed.

Lemma requestIDAt_succ c k :
  requestIDAt (set_idCounter (wrapU64 (idCounter c + 1)) c) k
  = requestIDAt c (S k).
Proof.
  unfold requestIDAt. simpl uniqueID. simpl idCounter.
  rewrite wrapU64_add_l. do 3 f_equal. lia.
Qed.

Lemma requestIDs_spec n c :
  exists c',
    requestIDs n c = (Ret (map (requestIDAt c) (seq 1 n)), c', [])
    /\ uniqueID c' = uniqueID c
    /\ wrapU64 (idCounter c') = wrapU64 (idCounter c + Z.of_nat n).
Proof.
  revert c. induction n as [|n IH]; intros c.
  - exists c. simpl. rewrite Z.add_0_r. auto.
  - destruct (IH (set_idCounter (wrapU64 (idCounter c + 1)) c))
      as (c' & Heq & Hid & Hctr).
    exists c'. split; [|split].
    + simpl requestIDs. unfold mbind at 1, M_bind, bind.
      rewrite generateRequestID_eq.
      unfold mbind at 1, M_bind, bind. rewrite Heq. unfold_M.
      assert (Hshift :
        map (requestIDAt (set_idCounter (wrapU64 (idCounter c + 1)) c)) (seq 1 n)
        = map (requestIDAt c) (seq 2 n)).
      { rewrite <- (seq_shift n 1), map_map.
        apply map_ext. intros k. apply requestIDAt_succ. }
      rewrite Hshift. reflexivity.
    + exact Hid.
    + rewrite Hctr. simpl idCounter. rewrite wrapU64_add_l. f_equal. lia.
Qed.

(** Two counter values less than 2^64 apart print differently. *)
Lemma requestIDAt_inj c i j :
  (Z.of_nat i < 2 ^ 64) -> (Z.of_nat j < 2 ^ 64) ->
  requestIDAt c i = requestIDAt c j -> i = j.
Proof.
  unfold requestIDAt. intros Hi Hj Heq.
  apply (inj (String.app (uniqueID c))) in Heq.
  apply (inj pretty) in Heq.
  unfold wrapU64 in Heq.
  assert (H : (Z.of_nat i - Z.of_nat j) mod 2 ^ 64 = 0).
  { replace (Z.of_nat i - Z.of_nat j)
      with ((idCounter c + Z.of_nat i) - (idCounter c + Z.of_nat j)) by lia.
    rewrite Zminus_mod, Heq, Z.sub_diag. reflexivity. }
  apply Z.mod_divide in H; [|lia].
  destruct H as [q Hq].
  assert (q = 0) by nia. lia.
Qed.

(** C4 (as amended): the unique prefix of a session is the decimal
    rendering of the two random bytes, separated by a dot and followed by a
    dash, as [NewClient] formats it, and the counter starts at zero; the
    prefix is the same in every session reachable from [NewClient] (the
    handlers defined in other files being taken not to assign it); the k-th
    of [n] successive request ids is that prefix followed by the decimal
    rendering of the 64-bit counter after k increments; and fewer than 2^64
    successive ids are pairwise distinct. *)
Theorem requestIDs_prefixed_distinct deviceStore randomBytes c n :
  Z.of_nat n < 2 ^ 64 ->
  (uniqueID (NewClient deviceStore randomBytes)
   = pretty (Byte.to_N (fst randomBytes)) +:+ "."
     +:+ pretty (Byte.to_N (snd randomBytes)) +:+ "-"
   /\ idCounter (NewClient deviceStore randomBytes) = 0)
  /\ (forall Unpack Unmarshal otherHandler s,
         (forall h node, keepsPrefix (otherHandler h node)) ->
         reachable Unpack Unmarshal otherHandler
           (initial deviceStore randomBytes) s ->
         uniqueID (client s) = uniqueID (NewClient deviceStore randomBytes))
  /\ exists ids c',
      requestIDs n c = (Ret ids, c', [])
      /\ ids = map (fun k => uniqueID c
                             +:+ pretty (wrapU64 (idCounter c + Z.of_nat k)))
                   (seq 1 n)
      /\ uniqueID c' = uniqueID c
      /\ NoDup ids.
Proof.
  intros Hn. split; [split; reflexivity|]. split.
  { intros Unpack Unmarshal otherHandler s Hother Hreach.
    apply (reachable_uniqueID Unpack Unmarshal otherHandler Hother _ _ Hreach). }
  destruct (requestIDs_spec n c) as (c' & Heq & Hid & _).
  exists (map (requestIDAt c) (seq 1 n)), c'.
  split; [exact Heq|]. split; [reflexivity|]. split; [exact Hid|].
  apply (NoDup_fmap_2_strong (requestIDAt c)).
  - intros i j Hi Hj. apply elem_of_seq in Hi, Hj.
    apply requestIDAt_inj; lia.
  - apply NoDup_seq.
Qed.

Lemma requestIDs_prefixed_distinct_witness :
  exists ids c',
    requestIDs 3 (NewClient pairedStore (xff, x10)) = (Ret ids, c', [])
    /\ ids = ["255.16-1"; "255.16-2"; "255.16-3"]
    /\ uniqueID c' = "255.16-"
    /\ NoDup ids.
Proof.
  destruct (requestIDs_prefixed_distinct pairedStore (xff, x10)
              (NewClient pairedStore (xff, x10)) 3)
    as (_ & _ & ids & c' & Heq & Hids & Hid & Hnd).
  - vm_compute. reflexivity.
  - exists ids, c'. repeat split; assumption.
Defined.

(** C4 (as stated) fails: for the random bytes 0xff and 0x10 the prefix is
    "255.16-", not the hex encoding "ff10". *)
Lemma uniqueID_is_not_hex :
  uniqueID (NewClient pairedStore (xff, x10)) = "255.16-"
  /\ specUniquePrefix (xff, x10) = "ff10"
  /\ uniqueID (NewClient pairedStore (xff, x10)) <> specUniquePrefix (xff, x10).
Proof.
  split; [vm_compute; reflexivity|].
  split; [vm_compute; reflexivity|].
  vm_compute. discriminate.
Qed.

(** ** Inbound router *)

Lemma receiveResponse_match c node reqID waiter :
  waiterFor c node = Some (reqID, waiter) ->
  receiveResponse node c
  = (Ret true,
     set_responseWaiters (delete reqID (responseWaiters c)) c,
     [EWaiterSignal reqID waiter (Some node)]).
Proof.
  unfold waiterFor, receiveResponse. unfold_M.
  destruct (attrStringOk node "id") as [r [|]]; [|discriminate].
  destruct (responseWaiters c !! r) as [w|] eqn:E; [|discriminate].
  intros [= -> ->]. reflexivity.
Qed.

Lemma receiveResponse_no_match c node :
  waiterFor c node = None ->
  receiveResponse node c = (Ret false, c, []).
Proof.
  unfold waiterFor, receiveResponse. unfold_M.
  destruct (attrStringOk node "id") as [r [|]]; [|reflexivity].
  destruct (responseWaiters c !! r) as [w|] eqn:E; [discriminate|].
  reflexivity.
Qed.

Section RouterFacts.

Variable Unpack : list byte -> error + list byte.
Variable Unmarshal : list byte -> error + Node.

Lemma handleFrame_streamend data decompressed node c :
  Unpack data = inr decompressed ->
  Unmarshal decompressed = inr node ->
  Tag node = "xmlstreamend" ->
  handleFrame Unpack Unmarshal data c
  = (Ret tt, c,
     recvLog ::
     (if bool_decide (expectedDisconnectVal c = 1) then []
      else [ELog LogMain LWarn "Received stream end frame"])).
Proof.
  intros Hu Hm Ht. unfold handleFrame. rewrite Hu, Hm.
  rewrite bool_decide_eq_true_2 by exact Ht.
  unfold isExpectedDisconnect. unfold_M.
  destruct (bool_decide (expectedDisconnectVal c = 1)); reflexivity.
Qed.

Lemma handleFrame_waiter data decompressed node c reqID waiter :
  Unpack data = inr decompressed ->
  Unmarshal decompressed = inr node ->
  Tag node <> "xmlstreamend" ->
  waiterFor c node = Some (reqID, waiter) ->
  handleFrame Unpack Unmarshal data c
  = (Ret tt,
     set_responseWaiters (delete reqID (responseWaiters c)) c,
     [recvLog; EWaiterSignal reqID waiter (Some node)]).
Proof.
  intros Hu Hm Ht Hw. unfold handleFrame. rewrite Hu, Hm.
  rewrite bool_decide_eq_false_2 by exact Ht.
  unfold mbind at 1, M_bind, bind. unfold log at 1, emit at 1.
  unfold mbind at 1, M_bind, bind.
  rewrite (receiveResponse_match c node reqID waiter Hw). reflexivity.
Qed.

Lemma handleFrame_unclaimed data decompressed node c :
  Unpack data = inr decompressed ->
  Unmarshal decompressed = inr node ->
  Tag node <> "xmlstreamend" ->
  waiterFor c node = None ->
  handleFrame Unpack Unmarshal data c
  = match nodeHandlers c !! Tag node with
    | Some _ =>
        if queueHasRoom c
        then (Ret tt, set_handlerQueue (handlerQueue c ++ [node]) c, [recvLog])
        else (Ret tt, c,
              [recvLog;
               ELog LogMain LWarn "Handler queue is full, message ordering is no longer guaranteed";
               ESpawn (TaskBlockingPush node)])
    | None =>
        (Ret tt, c, [recvLog; ELog LogMain LDebug "Didn't handle WhatsApp node"])
    end.
Proof.
  intros Hu Hm Ht Hw. unfold handleFrame. rewrite Hu, Hm.
  rewrite bool_decide_eq_false_2 by exact Ht.
  unfold mbind at 1, M_bind, bind. unfold log at 1, emit at 1.
  unfold mbind at 1, M_bind, bind.
  rewrite (receiveResponse_no_match c node Hw).
  unfold enqueue. unfold_M.
  destruct (nodeHandlers c !! Tag node); [|reflexivity].
  destruct (queueHasRoom c); reflexivity.
Qed.

End RouterFacts.

(** C5 (as amended): for a frame that decodes to a node, [handleFrame]
    applies its rules in order.  A node tagged xmlstreamend is neither
    delivered nor queued: it is only logged, at warn level unless the
    expected-disconnect flag is up.  Any other node whose id matches an
    outstanding waiter is delivered to that waiter, the waiter is removed
    and nothing else happens.  Otherwise a node whose tag is in the handler
    table is appended to the handler queue when the queue has room; when the
    queue is full a warning is logged and a detached task is started that
    pushes the node once there is room.  Any other node is dropped with a
    debug log. *)
Theorem handleFrame_dispatch
    (Unpack : list byte -> error + list byte)
    (Unmarshal : list byte -> error + Node)
    data decompressed node c :
  Unpack data = inr decompressed ->
  Unmarshal decompressed = inr node ->
  (Tag node = "xmlstreamend" ->
   handleFrame Unpack Unmarshal data c
   = (Ret tt, c,
      recvLog ::
      (if bool_decide (expectedDisconnectVal c = 1) then []
       else [ELog LogMain LWarn "Received stream end frame"])))
  /\ (Tag node <> "xmlstreamend" ->
      (forall reqID waiter,
          waiterFor c node = Some (reqID, waiter) ->
          handleFrame Unpack Unmarshal data c
          = (Ret tt,
             set_responseWaiters (delete reqID (responseWaiters c)) c,
             [recvLog; EWaiterSignal reqID waiter (Some node)]))
      /\ (waiterFor c node = None ->
          (is_Some (nodeHandlers c !! Tag node) ->
           queueHasRoom c = true ->
           handleFrame Unpack Unmarshal data c
           = (Ret tt, set_handlerQueue (handlerQueue c ++ [node]) c, [recvLog]))
          /\ (is_Some (nodeHandlers c !! Tag node) ->
              queueHasRoom c = false ->
              handleFrame Unpack Unmarshal data c
              = (Ret tt, c,
                 [recvLog;
                  ELog LogMain LWarn "Handler queue is full, message ordering is no longer guaranteed";
                  ESpawn (TaskBlockingPush node)])
              /\ forall c',
                  queueHasRoom c' = true ->
                  blockingPush node c'
                  = (Ret true, set_handlerQueue (handlerQueue c' ++ [node]) c', []))
          /\ (nodeHandlers c !! Tag node = None ->
              handleFrame Unpack Unmarshal data c
              = (Ret tt, c,
                 [recvLog; ELog LogMain LDebug "Didn't handle WhatsApp node"])))).
Proof.
  intros Hu Hm. split.
  - intros Ht. eapply handleFrame_streamend; eassumption.
  - intros Ht. split.
    + intros reqID waiter Hw. eapply handleFrame_waiter; eassumption.
    + intros Hw.
      pose proof (handleFrame_unclaimed Unpack Unmarshal data decompressed
                    node c Hu Hm Ht Hw) as H.
      split; [|split].
      * intros [h Hh] Hroom. rewrite H, Hh, Hroom. reflexivity.
      * intros [h Hh] Hfull. split.
        -- rewrite H, Hh, Hfull. reflexivity.
        -- intros c' Hroom. unfold blockingPush, enqueue. unfold_M.
           rewrite Hroom. reflexivity.
      * intros Hnone. rewrite H, Hnone. reflexivity.
Qed.

Lemma handleFrame_dispatch_witness :
  handleFrame plainUnpack (decodesTo iqResult) [] connectedClient
  = (Ret tt,
     set_responseWaiters (delete "255.16-1" (responseWaiters connectedClient))
       connectedClient,
     [recvLog; EWaiterSignal "255.16-1" 4 (Some iqResult)])
  /\ handleFrame plainUnpack (decodesTo messageNode) [] connectedClient
     = (Ret tt,
        set_handlerQueue (handlerQueue connectedClient ++ [messageNode])
          connectedClient,
        [recvLog]).
Proof.
  split.
  - apply (proj1 (proj2 (handleFrame_dispatch plainUnpack (decodesTo iqResult)
                           [] [] iqResult connectedClient eq_refl eq_refl)
                    ltac:(discriminate))).
    vm_compute. reflexivity.
  - apply (proj1 (proj2 (proj2 (handleFrame_dispatch plainUnpack
                                  (decodesTo messageNode) [] [] messageNode
                                  connectedClient eq_refl eq_refl)
                           ltac:(discriminate))
                    ltac:(vm_compute; reflexivity))).
    + vm_compute. eexists. reflexivity.
    + vm_compute. reflexivity.
Defined.

(** C5 (as stated) fails: a decoded node tagged xmlstreamend whose id
    matches an outstanding waiter is not delivered to that waiter; the
    waiter stays registered and only the warning is logged. *)
Lemma handleFrame_streamend_not_delivered :
  waiterFor connectedClient streamEndWithID = Some ("255.16-1", 4%nat)
  /\ handleFrame plainUnpack (decodesTo streamEndWithID) [] connectedClient
     = (Ret tt, connectedClient,
        [recvLog; ELog LogMain LWarn "Received stream end frame"]).
Proof.
  split; vm_compute; reflexivity.
Qed.

(** ** Auto-reconnect *)

Lemma wrapS64_small z : - 2 ^ 63 <= z < 2 ^ 63 -> wrapS64 z = z.
Proof. intros H. unfold wrapS64. rewrite Z.mod_small; lia. Qed.

Lemma autoReconnectDelay_small k :
  0 <= k <= maxReconnectErrors ->
  autoReconnectDelay k = k * 2 * time_Second.
Proof.
  unfold maxReconnectErrors, autoReconnectDelay, time_Second. intros H.
  rewrite (wrapS64_small k) by lia.
  rewrite (wrapS64_small (k * 2)) by lia.
  apply wrapS64_small. lia.
Qed.

Lemma sleepsOf_app t1 t2 : sleepsOf (t1 ++ t2) = sleepsOf t1 ++ sleepsOf t2.
Proof.
  induction t1 as [|e t1 IH]; [reflexivity|].
  destruct e; simpl; rewrite ?IH; reflexivity.
Qed.

Lemma reconnectDelays_succ from n :
  reconnectDelays from (S n)
  = (from + 1) * 2 * time_Second :: reconnectDelays (from + 1) n.
Proof.
  unfold reconnectDelays. simpl map. f_equal.
  rewrite <- (seq_shift n 1), map_map. apply map_ext. intros k.
  f_equal. f_equal. lia.
Qed.

Lemma Connect_idle_fails env c :
  socket c = None ->
  connectFails env = true ->
  exists e t,
    Connect env c = (Ret (Some e), set_expectedDisconnectVal 0 c, t)
    /\ errors_Is e ErrAlreadyConnected = false
    /\ sleepsOf t = [].
Proof.
  intros Hs Hf. unfold connectFails in Hf.
  unfold Connect, resetExpectedDisconnect, doHandshake. unfold_M.
  rewrite Hs. simpl.
  destruct (fsConnectResult env) as [e|].
  - exists e. eexists. split; [reflexivity|].
    split; [apply negb_true_iff, Hf|reflexivity].
  - destruct (handshakeResult env) as [e|ns]; [|discriminate].
    eexists. eexists. split; [reflexivity|].
    split; [apply negb_true_iff, Hf|reflexivity].
Qed.

Lemma Connect_idle_ok env c ns :
  socket c = None ->
  fsConnectResult env = None ->
  handshakeResult env = inr ns ->
  Connect env c
  = (Ret None, set_socket (Some ns) (set_expectedDisconnectVal 0 c),
     [EStoreExpectedDisconnect 0; ENewFrameSocket;
      ESpawn (TaskKeepAliveLoop ns); ESpawn (TaskHandlerQueueLoop ns)]).
Proof.
  intros Hs Hf Hh.
  unfold Connect, resetExpectedDisconnect, doHandshake. unfold_M.
  rewrite Hs, Hf, Hh. reflexivity.
Qed.

Lemma Connect_already env c s :
  socket c = Some s ->
  socketIsConnected env = true ->
  Connect env c = (Ret (Some ErrAlreadyConnected), c, []).
Proof.
  intros Hs Hc. unfold Connect. unfold_M. rewrite Hs, Hc. reflexivity.
Qed.

(** One turn of the loop, by what [Connect] returns. *)
Lemma autoReconnectLoop_turn env rest c :
  autoReconnectLoop (env :: rest) c
  = let c1 := set_AutoReconnectErrors (wrapS64 (AutoReconnectErrors c + 1)) c in
    let head := [ELog LogMain LDebug "Automatically reconnecting after %v";
                 ESleep (autoReconnectDelay (AutoReconnectErrors c1))] in
    match Connect env c1 with
    | (Ret None, c2, t) => (Ret Exited, c2, head ++ t)
    | (Ret (Some e), c2, t) =>
        if errors_Is e ErrAlreadyConnected then
          (Ret Exited, c2,
           head ++ t ++ [ELog LogMain LDebug "Connect() said we're already connected after autoreconnect sleep"])
        else
          match autoReconnectLoop rest c2 with
          | (o, c3, t3) =>
              (o, c3,
               head ++ t
               ++ ELog LogMain LError "Error reconnecting after autoreconnect sleep: %v"
               :: t3)
          end
    | (Panic v, c2, t) => (Panic v, c2, head ++ t)
    end.
Proof.
  simpl autoReconnectLoop. unfold_M. simpl.
  destruct (Connect env _) as [[[[e|]|v] c2] t]; simpl; try reflexivity.
  - destruct (errors_Is e ErrAlreadyConnected); simpl.
    + reflexivity.
    + destruct (autoReconnectLoop rest c2) as [[o c3] t3]. simpl.
      reflexivity.
  - rewrite app_nil_r. reflexivity.
Qed.

(** A run of failing attempts: each one adds one to the error count and
    sleeps twice that many seconds; afterwards the loop goes on. *)
Lemma autoReconnectLoop_failures fails rest c :
  socket c = None ->
  0 <= AutoReconnectErrors c ->
  AutoReconnectErrors c + Z.of_nat (length fails) <= maxReconnectErrors ->
  Forall (fun env => connectFails env = true) fails ->
  exists c' t,
    socket c' = None
    /\ AutoReconnectErrors c' = AutoReconnectErrors c + Z.of_nat (length fails)
    /\ sleepsOf t = reconnectDelays (AutoReconnectErrors c) (length fails)
    /\ autoReconnectLoop (fails ++ rest) c
       = match autoReconnectLoop rest c' with
         | (o, c2, t2) => (o, c2, t ++ t2)
         end.
Proof.
  intros Hs H0 Hmax Hf. revert c Hs H0 Hmax.
  induction Hf as [|env fails Henv _ IH]; intros c Hs H0 Hmax.
  - exists c, []. rewrite Z.add_0_r. repeat split; try assumption.
    simpl. destruct (autoReconnectLoop rest c) as [[o c2] t2]. reflexivity.
  - simpl length in Hmax. unfold maxReconnectErrors in Hmax.
    assert (Hw : wrapS64 (AutoReconnectErrors c + 1) = AutoReconnectErrors c + 1)
      by (apply wrapS64_small; lia).
    set (c1 := set_AutoReconnectErrors (wrapS64 (AutoReconnectErrors c + 1)) c).
    destruct (Connect_idle_fails env c1 Hs Henv) as (e & tc & Hc & He & Hsl).
    destruct (IH (set_expectedDisconnectVal 0 c1)) as (c' & t & Hs' & Hn & Ht & Heq).
    + exact Hs.
    + simpl. lia.
    + simpl. unfold maxReconnectErrors. lia.
    + simpl AutoReconnectErrors in Hn, Ht. rewrite Hw in Hn, Ht.
      exists c',
        ([ELog LogMain LDebug "Automatically reconnecting after %v";
          ESleep (autoReconnectDelay (AutoReconnectErrors c1))]
         ++ tc
         ++ ELog LogMain LError "Error reconnecting after autoreconnect sleep: %v"
         :: t).
      split; [exact Hs'|]. split; [simpl length; lia|]. split.
      * simpl length. rewrite reconnectDelays_succ.
        rewrite !sleepsOf_app. simpl sleepsOf. rewrite Hsl, Ht.
        simpl AutoReconnectErrors. rewrite Hw.
        rewrite autoReconnectDelay_small by (unfold maxReconnectErrors; lia).
        reflexivity.
      * change ((env :: fails) ++ rest) with (env :: (fails ++ rest)).
        rewrite autoReconnectLoop_turn. fold c1. cbv zeta.
        rewrite Hc, He, Heq.
        destruct (autoReconnectLoop rest c') as [[o c2] t2].
        f_equal. rewrite <- !app_assoc. simpl. reflexivity.
Qed.

Lemma autoReconnect_enabled envs c :
  EnableAutoReconnect c = true -> ID (Store c) <> None ->
  autoReconnect envs c = autoReconnectLoop envs c.
Proof.
  intros He Hid. unfold autoReconnect. unfold_M. rewrite He.
  rewrite bool_decide_eq_false_2 by exact Hid. simpl.
  destruct (autoReconnectLoop envs c) as [[o c2] t2]. reflexivity.
Qed.

(** C6: [autoReconnect] returns at once when auto-reconnect is disabled or
    the device has no identity.  Otherwise every attempt adds one to the
    error counter, sleeps the counter times two seconds and calls
    [Connect]: as long as [Connect] fails with an error other than
    AlreadyConnected the loop keeps running, whatever the number of
    attempts; it exits at the first attempt on which [Connect] succeeds or
    reports AlreadyConnected.  [handleConnectSuccess] sets the counter back
    to zero.  (The counter is taken small enough for its delay to fit the
    64-bit nanosecond count.) *)
Theorem autoReconnect_correct c :
  (forall envs,
      EnableAutoReconnect c = false \/ ID (Store c) = None ->
      autoReconnect envs c = (Ret Exited, c, []))
  /\ (EnableAutoReconnect c = true ->
      ID (Store c) <> None ->
      0 <= AutoReconnectErrors c ->
      (forall envs,
          socket c = None ->
          AutoReconnectErrors c + Z.of_nat (length envs) <= maxReconnectErrors ->
          Forall (fun env => connectFails env = true) envs ->
          exists c' t,
            autoReconnect envs c = (Ret StillLooping, c', t)
            /\ AutoReconnectErrors c'
               = AutoReconnectErrors c + Z.of_nat (length envs)
            /\ sleepsOf t = reconnectDelays (AutoReconnectErrors c) (length envs))
      /\ (forall fails env rest ns,
             socket c = None ->
             AutoReconnectErrors c + Z.of_nat (length fails) + 1
             <= maxReconnectErrors ->
             Forall (fun env => connectFails env = true) fails ->
             fsConnectResult env = None ->
             handshakeResult env = inr ns ->
             exists c' t,
               autoReconnect (fails ++ env :: rest) c = (Ret Exited, c', t)
               /\ socket c' = Some ns
               /\ AutoReconnectErrors c'
                  = AutoReconnectErrors c + Z.of_nat (length fails) + 1
               /\ sleepsOf t
                  = reconnectDelays (AutoReconnectErrors c) (S (length fails)))
      /\ (forall env rest s,
             socket c = Some s ->
             socketIsConnected env = true ->
             AutoReconnectErrors c + 1 <= maxReconnectErrors ->
             exists t,
               autoReconnect (env :: rest) c
               = (Ret Exited,
                  set_AutoReconnectErrors (AutoReconnectErrors c + 1) c, t)
               /\ sleepsOf t = reconnectDelays (AutoReconnectErrors c) 1))
  /\ (forall node now,
         AutoReconnectErrors (stateOf (handleConnectSuccess node now c)) = 0).
Proof.
  split; [|split].
  - intros envs Hoff. unfold autoReconnect. unfold_M.
    destruct Hoff as [-> | ->]; [reflexivity|].
    rewrite orb_true_r. reflexivity.
  - intros Hon Hid H0. split; [|split].
    + intros envs Hs Hmax Hf.
      rewrite (autoReconnect_enabled envs c Hon Hid).
      destruct (autoReconnectLoop_failures envs [] c Hs H0 Hmax Hf)
        as (c' & t & _ & Hn & Ht & Heq).
      rewrite app_nil_r in Heq. simpl in Heq. rewrite app_nil_r in Heq.
      exists c', t. auto.
    + intros fails env rest ns Hs Hmax Hf Hfs Hh.
      rewrite (autoReconnect_enabled _ c Hon Hid).
      destruct (autoReconnectLoop_failures fails (env :: rest) c Hs H0
                  ltac:(lia) Hf) as (c' & t & Hs' & Hn & Ht & Heq).
      rewrite Heq, autoReconnectLoop_turn. cbv zeta.
      assert (Hw : wrapS64 (AutoReconnectErrors c' + 1) = AutoReconnectErrors c' + 1)
        by (apply wrapS64_small; unfold maxReconnectErrors in Hmax; lia).
      rewrite (Connect_idle_ok env (set_AutoReconnectErrors _ c') ns Hs' Hfs Hh).
      eexists. eexists. split; [reflexivity|].
      split; [reflexivity|]. split; [simpl; lia|].
      rewrite !sleepsOf_app, Ht. simpl. rewrite Hw.
      rewrite autoReconnectDelay_small by lia.
      unfold reconnectDelays.
      replace (S (length fails)) with (length fails + 1)%nat by lia.
      rewrite seq_app, map_app. simpl. rewrite Hn.
      do 3 f_equal. lia.
    + intros env rest s Hs Hc Hmax.
      rewrite (autoReconnect_enabled _ c Hon Hid), autoReconnectLoop_turn.
      cbv zeta.
      assert (Hw : wrapS64 (AutoReconnectErrors c + 1) = AutoReconnectErrors c + 1)
        by (apply wrapS64_small; unfold maxReconnectErrors in Hmax; lia).
      rewrite (Connect_already env (set_AutoReconnectErrors _ c) s Hs Hc).
      simpl errors_Is. cbv iota.
      rewrite Hw. eexists. split; [reflexivity|].
      simpl. rewrite autoReconnectDelay_small by lia. reflexivity.
  - intros node now. reflexivity.
Qed.

Lemma autoReconnect_correct_witness :
  autoReconnect [connectOk] (NewClient emptyStore (xff, x10))
  = (Ret Exited, NewClient emptyStore (xff, x10), [])
  /\ (exists c' t,
         autoReconnect [connectRefused; connectRefused] disconnectedClient
         = (Ret StillLooping, c', t)
         /\ AutoReconnectErrors c' = 4
         /\ sleepsOf t = [6000000000; 8000000000])
  /\ (exists c' t,
         autoReconnect [connectRefused; connectOk; connectRefused]
           disconnectedClient
         = (Ret Exited, c', t)
         /\ socket c' = Some 8%nat
         /\ AutoReconnectErrors c' = 4
         /\ sleepsOf t = [6000000000; 8000000000]).
Proof.
  split; [|split].
  - apply (proj1 (autoReconnect_correct (NewClient emptyStore (xff, x10)))).
    right. reflexivity.
  - apply (proj1 (proj1 (proj2 (autoReconnect_correct disconnectedClient))
                    eq_refl ltac:(discriminate) ltac:(simpl; lia))
             [connectRefused; connectRefused]).
    + reflexivity.
    + vm_compute. discriminate.
    + repeat constructor.
  - apply (proj1 (proj2 (proj1 (proj2 (autoReconnect_correct disconnectedClient))
                           eq_refl ltac:(discriminate) ltac:(simpl; lia)))
             [connectRefused] connectOk [connectRefused] 8%nat).
    + reflexivity.
    + vm_compute. discriminate.
    + repeat constructor.
    + reflexivity.
    + reflexivity.
Defined.

(** ** Logout *)

(** What [sendIQ] leaves alone: the socket slot and the store; it panics on
    no input, its trace holds only the send log and the frame, and it
    succeeds only on a session that has a socket. *)
Lemma sendIQ_frame query env c :
  socket (stateOf (sendIQ query env c)) = socket c
  /\ Store (stateOf (sendIQ query env c)) = Store c
  /\ (exists res, outcomeOf (sendIQ query env c) = Ret res)
  /\ (forall e, In e (traceOf (sendIQ query env c)) ->
                e = ELog LogSend LDebug "%s"
                \/ exists sock node, e = ESendFrame sock node)
  /\ (forall resp, outcomeOf (sendIQ query env c) = Ret (resp, None) ->
                   exists s, socket c = Some s).
Proof.
  unfold sendIQ, generateRequestID, sendNode. unfold_M. simpl.
  destruct (socket c) as [s|] eqn:Hs; simpl;
    [destruct (marshalResult (iqSend env)) as [e|]; simpl;
     [|destruct (sendFrameResult (iqSend env)) as [e|]; simpl;
       [|destruct (iqReply env) as [n| |]; simpl;
         [destruct (isErrorReply n); simpl| |]]]|];
    (repeat split; eauto; try discriminate;
     intros e' He'; simpl in He'; intuition (subst; eauto)).
Qed.

Lemma sendIQ_sends query env c sock node :
  In (ESendFrame sock node) (traceOf (sendIQ query env c)) ->
  Tag node = "iq" /\ Content node = ContentNodes (IQContent query).
Proof.
  unfold sendIQ, generateRequestID, sendNode. unfold_M. simpl.
  destruct (socket c) as [s|] eqn:Hs; simpl;
    [destruct (marshalResult (iqSend env)) as [e|]; simpl;
     [|destruct (sendFrameResult (iqSend env)) as [e|]; simpl;
       [|destruct (iqReply env) as [n| |]; simpl;
         [destruct (isErrorReply n); simpl| |]]]|];
    intros H; simpl in H;
    repeat (destruct H as [H|H]; [try discriminate H|]); try contradiction;
    injection H as <- <-; split; reflexivity.
Qed.

(** [Logout] on a paired device, by what [sendIQ] returns. *)
Lemma Logout_paired env c jid :
  ID (Store c) = Some jid ->
  Logout env c
  = match sendIQ (logoutQuery jid) env c with
    | (Ret (_, Some err), c1, t1) =>
        (Ret (Some (ErrWrap "error sending logout request" err)), c1, t1)
    | (Ret (_, None), c1, t1) =>
        let stop := match socket c1 with
                    | Some s => [ESocketStop s true]
                    | None => []
                    end in
        match DeleteResult (Store c1) with
        | Some e =>
            (Ret (Some (ErrWrap "error deleting data from store" e)),
             set_socket None c1, t1 ++ stop ++ [EStoreDelete])
        | None =>
            (Ret None,
             set_Store (mkDevice None "" None) (set_socket None c1),
             t1 ++ stop ++ [EStoreDelete])
        end
    | (Panic v, c1, t1) => (Panic v, c1, t1)
    end.
Proof.
  intros Hid. unfold Logout. unfold mbind at 1, M_bind, bind, get.
  rewrite Hid. unfold mbind at 1, M_bind, bind.
  destruct (sendIQ (logoutQuery jid) env c) as [[[[resp [err|]]|v] c1] t1];
    simpl; [rewrite app_nil_r; reflexivity| |reflexivity].
  unfold Disconnect, unlockedDisconnect, Store_Delete. unfold_M.
  destruct c1 as [st [s|] ? ? ? ? ? ? ? ? ? ? ?]; simpl;
    destruct (DeleteResult st); reflexivity.
Qed.

(** [Logout] by the outcome of its IQ: what is returned, and whether the
    socket is stopped and the store's Delete called. *)
Lemma Logout_outcomes env c :
  (ID (Store c) = None ->
   Logout env c = (Ret (Some ErrNotLoggedIn), c, []))
  /\ (forall jid,
         ID (Store c) = Some jid ->
         (forall sock node,
             In (ESendFrame sock node) (traceOf (Logout env c)) ->
             Tag node = "iq"
             /\ Content node = ContentNodes (IQContent (logoutQuery jid)))
         /\ (forall resp err,
                outcomeOf (sendIQ (logoutQuery jid) env c) = Ret (resp, Some err) ->
                outcomeOf (Logout env c)
                = Ret (Some (ErrWrap "error sending logout request" err))
                /\ socket (stateOf (Logout env c)) = socket c
                /\ Store (stateOf (Logout env c)) = Store c
                /\ (forall s b, ~ In (ESocketStop s b) (traceOf (Logout env c)))
                /\ ~ In EStoreDelete (traceOf (Logout env c)))
         /\ (forall resp,
                outcomeOf (sendIQ (logoutQuery jid) env c) = Ret (resp, None) ->
                exists s,
                  socket c = Some s
                  /\ In (ESocketStop s true) (traceOf (Logout env c))
                  /\ In EStoreDelete (traceOf (Logout env c))
                  /\ socket (stateOf (Logout env c)) = None
                  /\ outcomeOf (Logout env c)
                     = Ret (match DeleteResult (Store c) with
                            | Some e => Some (ErrWrap "error deleting data from store" e)
                            | None => None
                            end)
                  /\ (DeleteResult (Store c) = None ->
                      ID (Store (stateOf (Logout env c))) = None))
         /\ ((exists s b, In (ESocketStop s b) (traceOf (Logout env c)))
             <-> exists resp,
                 outcomeOf (sendIQ (logoutQuery jid) env c) = Ret (resp, None))
         /\ (In EStoreDelete (traceOf (Logout env c))
             <-> exists resp,
                 outcomeOf (sendIQ (logoutQuery jid) env c) = Ret (resp, None))).
Proof.
  split.
  - intros Hid. unfold Logout. unfold_M. rewrite Hid. reflexivity.
  - intros jid Hid.
    destruct (sendIQ_frame (logoutQuery jid) env c)
      as (Hsock & Hstore & [res Hres] & Htrace & Hok).
    pose proof (sendIQ_sends (logoutQuery jid) env c) as Hsends.
    rewrite (Logout_paired env c jid Hid).
    destruct (sendIQ (logoutQuery jid) env c) as [[[[resp [err|]]|v] c1] t1];
      unfold outcomeOf, stateOf, traceOf in *; simpl in *.
    + (* the IQ failed *)
      assert (Hnostop : forall s b, ~ In (ESocketStop s b) t1).
      { intros s b Hin. apply Htrace in Hin as [Hd|(? & ? & Hd)]; discriminate Hd. }
      assert (Hnodel : ~ In EStoreDelete t1).
      { intros Hin. apply Htrace in Hin as [Hd|(? & ? & Hd)]; discriminate Hd. }
      split; [exact Hsends|]. split; [|split; [|split]].
      * intros resp' err' [= -> ->]. auto.
      * intros resp' [=].
      * split; [intros (s & b & Hin); exfalso; exact (Hnostop s b Hin)|].
        intros (resp' & [=]).
      * split; [intros Hin; exfalso; exact (Hnodel Hin)|].
        intros (resp' & [=]).
    + (* the IQ succeeded *)
      destruct (Hok resp eq_refl) as [s Hs].
      assert (Hs1 : socket c1 = Some s) by congruence.
      rewrite Hs1, Hstore.
      assert (Hstop : In (ESocketStop s true)
                        (t1 ++ [ESocketStop s true] ++ [EStoreDelete]))
        by (apply in_app_iff; right; simpl; auto).
      assert (Hdel : In EStoreDelete
                       (t1 ++ [ESocketStop s true] ++ [EStoreDelete]))
        by (apply in_app_iff; right; simpl; auto).
      destruct (DeleteResult (Store c)) as [e|]; simpl.
      * split.
        { intros sock node Hin. apply in_app_iff in Hin as [Hin|Hin];
            [eauto|]. simpl in Hin. destruct Hin as [Hd|[Hd|[]]]; discriminate Hd. }
        split; [intros resp' err' [=]|].
        split; [intros resp' _; exists s; repeat split; auto; discriminate|].
        split; split; eauto.
      * split.
        { intros sock node Hin. apply in_app_iff in Hin as [Hin|Hin];
            [eauto|]. simpl in Hin. destruct Hin as [Hd|[Hd|[]]]; discriminate Hd. }
        split; [intros resp' err' [=]|].
        split; [intros resp' _; exists s; repeat split; auto|].
        split; split; eauto.
    + (* [sendIQ] does not panic *)
      discriminate Hres.
Qed.

Lemma sentFrames_app t1 t2 :
  sentFrames (t1 ++ t2) = sentFrames t1 ++ sentFrames t2.
Proof.
  induction t1 as [|e t1 IH]; [reflexivity|].
  destruct e; simpl; rewrite ?IH; reflexivity.
Qed.

(** The frame of [sendIQ]: on a session with a socket, and when the node
    can be marshalled, exactly one frame is handed to the socket, an [iq]
    with the fresh request id, the query's namespace, type and addressee,
    and the query's content; otherwise none. *)
Lemma sendIQ_sentFrames query env c :
  sentFrames (traceOf (sendIQ query env c))
  = match socket c, marshalResult (iqSend env) with
    | Some sock, None =>
        [(sock,
          mkNode "iq"
            (<["id" := AString (uniqueID c +:+ pretty (wrapU64 (idCounter c + 1)))]>
               (<["xmlns" := AString (Namespace query)]>
                  (<["type" := AString (IQType query)]>
                     {["to" := AJID (To query)]})))
            (ContentNodes (IQContent query)))]
    | _, _ => []
    end.
Proof.
  unfold sendIQ, generateRequestID, sendNode. unfold_M. simpl.
  destruct (socket c) as [s|] eqn:Hs; simpl;
    [destruct (marshalResult (iqSend env)) as [e|]; simpl;
     [|destruct (sendFrameResult (iqSend env)) as [e|]; simpl;
       [|destruct (iqReply env) as [n| |]; simpl;
         [destruct (isErrorReply n); simpl| |]]]|];
    reflexivity.
Qed.

(** C7: without a stored identity [Logout] returns NotLoggedIn and sends
    nothing.  Otherwise it sends the unlink IQ: on a session with a socket
    (and when the node can be marshalled) exactly one frame is handed to
    that socket, an [iq] of type set in namespace md addressed to the
    server, whose only child is [remove-companion-device] with the stored
    identity as jid and reason user_initiated; without a socket no frame can
    go out and the IQ fails with NotConnected.  When the IQ fails, [Logout]
    returns an error wrapping the failure, stops no socket, does not call
    the store's Delete, and leaves slot and store as they were.  When the
    IQ succeeds it stops the socket, clears the slot and calls Delete
    (dropping the identity when Delete succeeds, returning the wrapped error
    otherwise).  So the socket is stopped, and Delete called, if and only
    if the IQ succeeded. *)
Theorem Logout_correct env c :
  (ID (Store c) = None ->
   Logout env c = (Ret (Some ErrNotLoggedIn), c, []))
  /\ (forall jid,
         ID (Store c) = Some jid ->
         sentFrames (traceOf (Logout env c))
         = match socket c, marshalResult (iqSend env) with
           | Some sock, None =>
               [(sock,
                 mkNode "iq"
                   (<["id" := AString (uniqueID c +:+ pretty (wrapU64 (idCounter c + 1)))]>
                      (<["xmlns" := AString "md"]>
                         (<["type" := AString "set"]>
                            {["to" := AJID "s.whatsapp.net"]})))
                   (ContentNodes
                      [ mkNode "remove-companion-device"
                          (<["jid" := AJID jid]> {["reason" := AString "user_initiated"]})
                          ContentNil ]))]
           | _, _ => []
           end
         /\ (socket c = None ->
             outcomeOf (Logout env c)
             = Ret (Some (ErrWrap "error sending logout request" ErrNotConnected)))
         /\ (forall sock node,
             In (ESendFrame sock node) (traceOf (Logout env c)) ->
             Tag node = "iq"
             /\ Content node = ContentNodes (IQContent (logoutQuery jid)))
         /\ (forall resp err,
                outcomeOf (sendIQ (logoutQuery jid) env c) = Ret (resp, Some err) ->
                outcomeOf (Logout env c)
                = Ret (Some (ErrWrap "error sending logout request" err))
                /\ socket (stateOf (Logout env c)) = socket c
                /\ Store (stateOf (Logout env c)) = Store c
                /\ (forall s b, ~ In (ESocketStop s b) (traceOf (Logout env c)))
                /\ ~ In EStoreDelete (traceOf (Logout env c)))
         /\ (forall resp,
                outcomeOf (sendIQ (logoutQuery jid) env c) = Ret (resp, None) ->
                exists s,
                  socket c = Some s
                  /\ In (ESocketStop s true) (traceOf (Logout env c))
                  /\ In EStoreDelete (traceOf (Logout env c))
                  /\ socket (stateOf (Logout env c)) = None
                  /\ outcomeOf (Logout env c)
                     = Ret (match DeleteResult (Store c) with
                            | Some e => Some (ErrWrap "error deleting data from store" e)
                            | None => None
                            end)
                  /\ (DeleteResult (Store c) = None ->
                      ID (Store (stateOf (Logout env c))) = None))
         /\ ((exists s b, In (ESocketStop s b) (traceOf (Logout env c)))
             <-> exists resp,
                 outcomeOf (sendIQ (logoutQuery jid) env c) = Ret (resp, None))
         /\ (In EStoreDelete (traceOf (Logout env c))
             <-> exists resp,
                 outcomeOf (sendIQ (logoutQuery jid) env c) = Ret (resp, None))).
Proof.
  destruct (Logout_outcomes env c) as [Hnone Hpaired].
  split; [exact Hnone|].
  intros jid Hid.
  split; [|split; [|exact (Hpaired jid Hid)]].
  - transitivity (sentFrames (traceOf (sendIQ (logoutQuery jid) env c)));
      [|rewrite sendIQ_sentFrames; reflexivity].
    rewrite (Logout_paired env c jid Hid).
    destruct (sendIQ (logoutQuery jid) env c) as [[[[resp [err|]]|v] c1] t1];
      unfold traceOf; simpl; [reflexivity| |reflexivity].
    destruct (socket c1), (DeleteResult (Store c1)); simpl;
      rewrite sentFrames_app; simpl; rewrite app_nil_r; reflexivity.
  - intros Hs. rewrite (Logout_paired env c jid Hid).
    unfold sendIQ, generateRequestID, sendNode. unfold_M. simpl.
    rewrite Hs. reflexivity.
Qed.

Lemma Logout_correct_witness :
  Logout iqResultEnv (NewClient emptyStore (xff, x10))
  = (Ret (Some ErrNotLoggedIn), NewClient emptyStore (xff, x10), [])
  /\ sentFrames (traceOf (Logout iqResultEnv connectedClient))
     = [(7%nat,
         mkNode "iq"
           (<["id" := AString "255.16-2"]>
              (<["xmlns" := AString "md"]>
                 (<["type" := AString "set"]>
                    {["to" := AJID "s.whatsapp.net"]})))
           (ContentNodes
              [ mkNode "remove-companion-device"
                  (<["jid" := AJID "12345@s.whatsapp.net"]>
                     {["reason" := AString "user_initiated"]})
                  ContentNil ]))]
  /\ outcomeOf (Logout iqResultEnv disconnectedClient)
     = Ret (Some (ErrWrap "error sending logout request" ErrNotConnected))
  /\ (outcomeOf (Logout iqTimeoutEnv connectedClient)
      = Ret (Some (ErrWrap "error sending logout request" ErrIQTimedOut))
      /\ socket (stateOf (Logout iqTimeoutEnv connectedClient)) = Some 7%nat
      /\ ~ In EStoreDelete (traceOf (Logout iqTimeoutEnv connectedClient)))
  /\ (In (ESocketStop 7 true) (traceOf (Logout iqResultEnv connectedClient))
      /\ In EStoreDelete (traceOf (Logout iqResultEnv connectedClient))
      /\ ID (Store (stateOf (Logout iqResultEnv connectedClient))) = None).
Proof.
  split; [|split; [|split; [|split]]].
  - apply (proj1 (Logout_correct iqResultEnv (NewClient emptyStore (xff, x10)))).
    reflexivity.
  - exact (proj1 (proj2 (Logout_correct iqResultEnv connectedClient)
                    "12345@s.whatsapp.net" eq_refl)).
  - exact (proj1 (proj2 (proj2 (Logout_correct iqResultEnv disconnectedClient)
                           "12345@s.whatsapp.net" eq_refl))
             eq_refl).
  - destruct (proj1 (proj2 (proj2 (proj2 (proj2 (Logout_correct iqTimeoutEnv connectedClient)
                              "12345@s.whatsapp.net" eq_refl))))
                None ErrIQTimedOut)
      as (Hout & Hsock & _ & _ & Hdel).
    + vm_compute. reflexivity.
    + repeat split; assumption.
  - destruct (proj1 (proj2 (proj2 (proj2 (proj2 (proj2 (Logout_correct iqResultEnv connectedClient)
                                     "12345@s.whatsapp.net" eq_refl)))))
                (Some (mkNode "iq" {["type" := AString "result"]} ContentNil)))
      as (s & Hs & Hstop & Hdel & _ & _ & Hid).
    + vm_compute. reflexivity.
    + injection Hs as <-.
      split; [exact Hstop|]. split; [exact Hdel|].
      apply Hid. reflexivity.
Defined.

(** ** Profile pictures *)

(** The error path of [GetProfilePictureInfo], by what [sendIQ] returns. *)
Lemma GetProfilePictureInfo_failure jid preview env c resp err :
  outcomeOf (sendIQ (profilePictureQuery jid preview) env c)
  = Ret (resp, Some err) ->
  outcomeOf (GetProfilePictureInfo jid preview env c)
  = if errors_Is err ErrIQError then
      match resp with
      | None => Panic "invalid memory address or nil pointer dereference"
      | Some r =>
          match Attrs (GetChildByTag r "error") !! "code" with
          | Some (AString code) =>
              if bool_decide (code = "404") then Ret (None, None)
              else if bool_decide (code = "401")
                   then Ret (None, Some ErrProfilePictureUnauthorized)
                   else Ret (None, Some err)
          | _ => Panic "interface conversion: interface {} is not string"
          end
      end
    else Ret (None, Some err).
Proof.
  unfold GetProfilePictureInfo. unfold mbind at 1, M_bind, bind.
  destruct (sendIQ (profilePictureQuery jid preview) env c) as [[o c1] t1].
  unfold outcomeOf. simpl. intros ->. simpl.
  destruct (errors_Is err ErrIQError); [|reflexivity].
  unfold derefNode, assertString. unfold_M.
  destruct resp as [r|]; [|reflexivity]. simpl.
  destruct (Attrs (GetChildByTag r "error") !! "code") as [[code| |]|];
    try reflexivity.
  simpl. destruct (bool_decide (code = "404")); [reflexivity|].
  destruct (bool_decide (code = "401")); reflexivity.
Qed.

Example GetProfilePictureInfo_404 :
  outcomeOf (GetProfilePictureInfo "123@s.whatsapp.net" false
               (iqReplyEnv (iqErrorWithCode "404")) connectedClient)
  = Ret (None, None).
Proof. vm_compute. reflexivity. Qed.

Example GetProfilePictureInfo_401 :
  outcomeOf (GetProfilePictureInfo "123@s.whatsapp.net" false
               (iqReplyEnv (iqErrorWithCode "401")) connectedClient)
  = Ret (None, Some ErrProfilePictureUnauthorized).
Proof. vm_compute. reflexivity. Qed.

Example GetProfilePictureInfo_500 :
  outcomeOf (GetProfilePictureInfo "123@s.whatsapp.net" false
               (iqReplyEnv (iqErrorWithCode "500")) connectedClient)
  = Ret (None, Some ErrIQError).
Proof. vm_compute. reflexivity. Qed.

Example GetProfilePictureInfo_timeout :
  outcomeOf (GetProfilePictureInfo "123@s.whatsapp.net" false
               iqTimeoutEnv connectedClient)
  = Ret (None, Some ErrIQTimedOut).
Proof. vm_compute. reflexivity. Qed.

(** C10 (the code departs from it): when the IQ fails with a server IQ
    error whose error child carries no code attribute, the failure is not
    returned as the underlying error: the unchecked type assertion on the
    code attribute panics. *)
Theorem GetProfilePictureInfo_panics_without_code :
  sendIQ (profilePictureQuery "123@s.whatsapp.net" false)
    (iqReplyEnv iqErrorWithoutCode) connectedClient
  = (Ret (Some iqErrorWithoutCode, Some ErrIQError),
     set_idCounter 2 connectedClient,
     [ELog LogSend LDebug "%s";
      ESendFrame 7
        (mkNode "iq"
           (<["id" := AString "255.16-2"]>
              (<["xmlns" := AString "w:profile:picture"]>
                 (<["type" := AString "get"]>
                    {["to" := AJID "123@s.whatsapp.net"]})))
           (ContentNodes
              (IQContent (profilePictureQuery "123@s.whatsapp.net" false))))])
  /\ outcomeOf (GetProfilePictureInfo "123@s.whatsapp.net" false
                  (iqReplyEnv iqErrorWithoutCode) connectedClient)
     = Panic "interface conversion: interface {} is not string".
Proof. split; vm_compute; reflexivity. Qed.

(** ** The handler table and the handler queue *)

Lemma spawnedPushers_app t1 t2 :
  spawnedPushers (t1 ++ t2) = spawnedPushers t1 ++ spawnedPushers t2.
Proof.
  induction t1 as [|e t1 IH]; [reflexivity|].
  destruct e as [| [] | | | | | | | | | ]; simpl; rewrite ?IH; reflexivity.
Qed.

Lemma keepsRouter_ret {A} (a : A) : keepsRouter (mret a).
Proof. intros c. repeat split. Qed.

Lemma keepsRouter_panic {A} v : keepsRouter (@panic A v).
Proof. intros c. repeat split. Qed.

Lemma keepsRouter_get : keepsRouter get.
Proof. intros c. repeat split. Qed.

Lemma keepsRouter_bind {A B} (m : M A) (k : A -> M B) :
  keepsRouter m -> (forall a, keepsRouter (k a)) -> keepsRouter (m ≫= k).
Proof.
  intros Hm Hk c. specialize (Hm c).
  unfold mbind, M_bind, bind.
  destruct (m c) as [[[a|v] c1] t1]; [|exact Hm].
  specialize (Hk a c1). destruct (k a c1) as [[o c2] t2].
  unfold stateOf, traceOf in *. simpl in *.
  destruct Hm as (H1 & H2 & Ht1), Hk as (H3 & H4 & Ht2).
  rewrite spawnedPushers_app, Ht1, Ht2, H3, H4. auto.
Qed.

Lemma keepsRouter_modify (f : Client -> Client) :
  (forall c, nodeHandlers (f c) = nodeHandlers c
             /\ handlerQueue (f c) = handlerQueue c) ->
  keepsRouter (modify f).
Proof. intros H c. destruct (H c). repeat split; assumption. Qed.

Lemma keepsRouter_emit e : spawnedPushers [e] = [] -> keepsRouter (emit e).
Proof. intros H c. repeat split. exact H. Qed.

Lemma keepsRouter_deferRecover {A} (m : M A) zero h :
  keepsRouter m -> (forall r, keepsRouter (h r)) ->
  keepsRouter (deferRecover m zero h).
Proof.
  intros Hm Hh c. specialize (Hm c). unfold deferRecover.
  destruct (m c) as [[[a|v] c1] t1].
  - specialize (Hh None c1). destruct (h None c1) as [[[[]|v'] c2] t2];
      unfold stateOf, traceOf in *; simpl in *;
      destruct Hm as (H1 & H2 & Ht1), Hh as (H3 & H4 & Ht2);
      rewrite spawnedPushers_app, Ht1, Ht2, H3, H4; auto.
  - specialize (Hh (Some v) c1). destruct (h (Some v) c1) as [[[[]|v'] c2] t2];
      unfold stateOf, traceOf in *; simpl in *;
      destruct Hm as (H1 & H2 & Ht1), Hh as (H3 & H4 & Ht2);
      rewrite spawnedPushers_app, Ht1, Ht2, H3, H4; auto.
Qed.

Create HintDb router discriminated.

(** Decomposes a computation along its binds and branches. *)
Ltac keeps :=
  repeat first
    [ solve [auto with router]
    | apply keepsRouter_ret
    | apply keepsRouter_panic
    | apply keepsRouter_get
    | apply keepsRouter_bind; [|intros ?]
    | apply keepsRouter_modify; intros ?; split; reflexivity
    | apply keepsRouter_emit; reflexivity
    | apply keepsRouter_deferRecover; [|intros ?]
    | match goal with
      | |- keepsRouter (match ?x with _ => _ end) => destruct x
      end ].

Lemma keepsRouter_expectDisconnect : keepsRouter expectDisconnect.
Proof. unfold expectDisconnect. keeps. Qed.
Lemma keepsRouter_resetExpectedDisconnect : keepsRouter resetExpectedDisconnect.
Proof. unfold resetExpectedDisconnect. keeps. Qed.
Lemma keepsRouter_isExpectedDisconnect : keepsRouter isExpectedDisconnect.
Proof. unfold isExpectedDisconnect. keeps. Qed.
Lemma keepsRouter_unlockedDisconnect : keepsRouter unlockedDisconnect.
Proof. unfold unlockedDisconnect. keeps. Qed.
#[local] Hint Resolve keepsRouter_expectDisconnect
  keepsRouter_resetExpectedDisconnect keepsRouter_isExpectedDisconnect
  keepsRouter_unlockedDisconnect : router.

Lemma keepsRouter_Disconnect : keepsRouter Disconnect.
Proof. unfold Disconnect. keeps. Qed.

Lemma keepsRouter_clearResponseWaiters : keepsRouter clearResponseWaiters.
Proof.
  intros c. repeat split. unfold clearResponseWaiters, traceOf. simpl.
  induction (map_to_list (responseWaiters c)) as [|kw l IH]; [reflexivity|exact IH].
Qed.
#[local] Hint Resolve keepsRouter_Disconnect keepsRouter_clearResponseWaiters : router.

Lemma keepsRouter_onDisconnect ns remote : keepsRouter (onDisconnect ns remote).
Proof. unfold onDisconnect, log, spawn. keeps. Qed.

Lemma keepsRouter_doHandshake env : keepsRouter (doHandshake env).
Proof. unfold doHandshake. keeps. Qed.
#[local] Hint Resolve keepsRouter_onDisconnect keepsRouter_doHandshake : router.

Lemma keepsRouter_Connect env : keepsRouter (Connect env).
Proof. unfold Connect, spawn. keeps. Qed.
#[local] Hint Resolve keepsRouter_Connect : router.

Lemma keepsRouter_autoReconnectLoop envs : keepsRouter (autoReconnectLoop envs).
Proof.
  induction envs as [|env rest IH]; simpl; unfold log; keeps.
Qed.
#[local] Hint Resolve keepsRouter_autoReconnectLoop : router.

Lemma keepsRouter_autoReconnect envs : keepsRouter (autoReconnect envs).
Proof. unfold autoReconnect. keeps. Qed.

Lemma keepsRouter_reconnectAfter515 env : keepsRouter (reconnectAfter515 env).
Proof. unfold reconnectAfter515, log. keeps. Qed.
#[local] Hint Resolve keepsRouter_autoReconnect keepsRouter_reconnectAfter515 : router.

Lemma keepsRouter_generateRequestID : keepsRouter generateRequestID.
Proof. unfold generateRequestID. keeps. Qed.

Lemma keepsRouter_sendNode node env : keepsRouter (sendNode node env).
Proof. unfold sendNode, log. keeps. Qed.
#[local] Hint Resolve keepsRouter_generateRequestID keepsRouter_sendNode : router.

Lemma keepsRouter_sendIQ query env : keepsRouter (sendIQ query env).
Proof. unfold sendIQ. keeps. Qed.

Lemma keepsRouter_Store_Delete : keepsRouter Store_Delete.
Proof. unfold Store_Delete. keeps. Qed.
#[local] Hint Resolve keepsRouter_sendIQ keepsRouter_Store_Delete : router.

Lemma keepsRouter_Logout env : keepsRouter (Logout env).
Proof. unfold Logout. keeps. Qed.

Lemma keepsRouter_GetProfilePictureInfo jid preview env :
  keepsRouter (GetProfilePictureInfo jid preview env).
Proof. unfold GetProfilePictureInfo, derefNode, assertString. keeps. Qed.

Lemma keepsRouter_rangeHandlers hs evt : keepsRouter (rangeHandlers hs evt).
Proof.
  induction hs as [|h rest IH]; simpl; unfold callHandler; keeps.
Qed.
#[local] Hint Resolve keepsRouter_rangeHandlers : router.

Lemma keepsRouter_dispatchEvent evt : keepsRouter (dispatchEvent evt).
Proof. unfold dispatchEvent, log. keeps. Qed.

Lemma keepsRouter_AddEventHandler handler g : keepsRouter (AddEventHandler handler g).
Proof. unfold AddEventHandler. keeps. Qed.

Lemma keepsRouter_RemoveEventHandler id0 : keepsRouter (RemoveEventHandler id0).
Proof.
  intros c. unfold RemoveEventHandler.
  destruct (rangeFind id0 (eventHandlers c) 0) as [index|]; [|repeat split].
  destruct (bool_decide (index = 0%nat)); repeat split.
Qed.

Lemma keepsRouter_RemoveEventHandlers : keepsRouter RemoveEventHandlers.
Proof. unfold RemoveEventHandlers. keeps. Qed.

Lemma keepsRouter_handleStreamError node : keepsRouter (handleStreamError node).
Proof. unfold handleStreamError, log, spawn. keeps. Qed.

Lemma keepsRouter_handleConnectFailure node : keepsRouter (handleConnectFailure node).
Proof. unfold handleConnectFailure, log, spawn. keeps. Qed.

Lemma keepsRouter_handleConnectSuccess node now :
  keepsRouter (handleConnectSuccess node now).
Proof. unfold handleConnectSuccess, log, spawn. keeps. Qed.

Lemma keepsRouter_handleIB node : keepsRouter (handleIB node).
Proof. unfold handleIB, spawn. keeps. Qed.

#[local] Hint Resolve keepsRouter_Logout keepsRouter_GetProfilePictureInfo
  keepsRouter_dispatchEvent keepsRouter_AddEventHandler
  keepsRouter_RemoveEventHandler keepsRouter_RemoveEventHandlers
  keepsRouter_handleStreamError keepsRouter_handleConnectFailure
  keepsRouter_handleConnectSuccess keepsRouter_handleIB : router.

Lemma keepsRouter_preserves {A} (m : M A) table c :
  keepsRouter m ->
  nodeHandlers c = table ->
  Forall (routed table) (handlerQueue c) ->
  nodeHandlers (stateOf (m c)) = table
  /\ Forall (routed table) (handlerQueue (stateOf (m c)))
  /\ Forall (routed table) (spawnedPushers (traceOf (m c))).
Proof.
  intros Hm Ht Hq. destruct (Hm c) as (H1 & H2 & H3).
  rewrite H1, H2, H3. auto.
Qed.

Section RouterInvariant.

Variable Unpack : list byte -> error + list byte.
Variable Unmarshal : list byte -> error + Node.
Variable otherHandler : nodeHandler -> Node -> M unit.

(** The handlers defined in other files of the package are taken not to
    touch the handler table or the handler queue. *)
Hypothesis otherHandler_keeps : forall h node, keepsRouter (otherHandler h node).

Lemma keepsRouter_callNodeHandler h node now :
  keepsRouter (callNodeHandler otherHandler h node now).
Proof.
  destruct h as [[]|]; simpl; auto with router; keeps.
Qed.

Lemma handleFrame_preserves table data c :
  nodeHandlers c = table ->
  Forall (routed table) (handlerQueue c) ->
  nodeHandlers (stateOf (handleFrame Unpack Unmarshal data c)) = table
  /\ Forall (routed table)
       (handlerQueue (stateOf (handleFrame Unpack Unmarshal data c)))
  /\ Forall (routed table)
       (spawnedPushers (traceOf (handleFrame Unpack Unmarshal data c))).
Proof.
  intros Ht Hq. unfold handleFrame.
  destruct (Unpack data) as [e|decompressed];
    [apply keepsRouter_preserves; auto; unfold log; keeps|].
  destruct (Unmarshal decompressed) as [e|node];
    [apply keepsRouter_preserves; auto; unfold log; keeps|].
  destruct (bool_decide (Tag node = "xmlstreamend"));
    [apply keepsRouter_preserves; auto; unfold log; keeps|].
  unfold receiveResponse, isExpectedDisconnect, enqueue. unfold_M. simpl.
  destruct (attrStringOk node "id") as [reqID [|]];
    [destruct (responseWaiters c !! reqID) as [w|]|]; simpl; auto.
  - destruct (nodeHandlers c !! Tag node) as [h|] eqn:Hh; simpl; auto.
    assert (Hr : routed table node) by (unfold routed; rewrite <- Ht, Hh; eauto).
    destruct (queueHasRoom c); simpl; auto.
    split; [exact Ht|]. split; [|constructor].
    apply Forall_app. auto.
  - destruct (nodeHandlers c !! Tag node) as [h|] eqn:Hh; simpl; auto.
    assert (Hr : routed table node) by (unfold routed; rewrite <- Ht, Hh; eauto).
    destruct (queueHasRoom c); simpl; auto.
    split; [exact Ht|]. split; [|constructor].
    apply Forall_app. auto.
Qed.

Lemma handlerQueueRecv_preserves table now c :
  nodeHandlers c = table ->
  Forall (routed table) (handlerQueue c) ->
  nodeHandlers (stateOf (handlerQueueLoop otherHandler [RecvNode now] c)) = table
  /\ Forall (routed table)
       (handlerQueue (stateOf (handlerQueueLoop otherHandler [RecvNode now] c)))
  /\ Forall (routed table)
       (spawnedPushers (traceOf (handlerQueueLoop otherHandler [RecvNode now] c))).
Proof.
  intros Ht Hq. simpl handlerQueueLoop. unfold_M. cbv beta.
  destruct (handlerQueue c) as [|node queue] eqn:Hc.
  - unfold stateOf, traceOf. simpl. rewrite Hc.
    split; [exact Ht|]. split; constructor.
  - apply Forall_cons in Hq as [_ Hq].
    pose proof (keepsRouter_callNodeHandler (nodeHandlers c !! Tag node) node now
                  (set_handlerQueue queue c)) as (H1 & H2 & H3).
    destruct (callNodeHandler otherHandler (nodeHandlers c !! Tag node) node now
                (set_handlerQueue queue c)) as [[[[]|v] c1] t1];
      unfold stateOf, traceOf in *; simpl in *;
      rewrite ?app_nil_r, H1, H2, H3; auto.
Qed.

Lemma runCall_preserves table call c :
  nodeHandlers c = table ->
  Forall (routed table) (handlerQueue c) ->
  nodeHandlers (stateOf (runCall Unpack Unmarshal otherHandler call c)) = table
  /\ Forall (routed table)
       (handlerQueue (stateOf (runCall Unpack Unmarshal otherHandler call c)))
  /\ Forall (routed table)
       (spawnedPushers (traceOf (runCall Unpack Unmarshal otherHandler call c))).
Proof.
  intros Ht Hq.
  destruct call; cbv beta iota delta [runCall];
    try solve [apply keepsRouter_preserves; [keeps|exact Ht|exact Hq]].
  - apply handleFrame_preserves; assumption.
  - pose proof (handlerQueueRecv_preserves table now c Ht Hq) as H.
    unfold mbind, M_bind, bind.
    destruct (handlerQueueLoop otherHandler [RecvNode now] c) as [[[a|v] c1] t1];
      unfold stateOf, traceOf in *; simpl in *; rewrite ?app_nil_r; exact H.
Qed.

Lemma step_preserves table s s' :
  routerInvariant table s ->
  step Unpack Unmarshal otherHandler s s' ->
  routerInvariant table s'.
Proof.
  intros (Ht & Hq & Hp) Hstep. destruct Hstep as [s call|s before after node Hb Hroom].
  - destruct (runCall_preserves table call (client s) Ht Hq) as (H1 & H2 & H3).
    split; [exact H1|]. split; [exact H2|]. simpl. apply Forall_app. auto.
  - rewrite Hb in Hp. apply Forall_app in Hp as [Hbefore Hp].
    apply Forall_cons in Hp as [Hnode Hafter].
    unfold routerInvariant, blockingPush, enqueue. unfold_M. rewrite Hroom. simpl.
    split; [exact Ht|]. split; apply Forall_app; auto.
Qed.

Lemma reachable_invariant deviceStore randomBytes s :
  reachable Unpack Unmarshal otherHandler (initial deviceStore randomBytes) s ->
  routerInvariant (nodeHandlers (NewClient deviceStore randomBytes)) s.
Proof.
  induction 1 as [|s s' _ IH Hstep].
  - repeat split; constructor.
  - eapply step_preserves; eassumption.
Qed.

End RouterInvariant.

(** C9: in every session reachable from [NewClient] by calls into the
    client and completions of blocked pushes, the handler table is still
    the one built by [NewClient], and every node buffered in the handler
    queue, or held by a detached pusher, has a tag that is a key of the
    table; so when the worker receives a node, its lookup yields a handler
    and the call is not a call of the nil func.  (The handlers defined in
    other files of the package are assumed to leave the table and the queue
    alone.) *)
Theorem handlerQueue_lookup_never_nil
    (Unpack : list byte -> error + list byte)
    (Unmarshal : list byte -> error + Node)
    (otherHandler : nodeHandler -> Node -> M unit)
    deviceStore randomBytes s :
  (forall h node, keepsRouter (otherHandler h node)) ->
  reachable Unpack Unmarshal otherHandler (initial deviceStore randomBytes) s ->
  nodeHandlers (client s) = nodeHandlers (NewClient deviceStore randomBytes)
  /\ (forall node,
         In node (handlerQueue (client s)) \/ In node (blockedPushers s) ->
         exists h, nodeHandlers (client s) !! Tag node = Some h)
  /\ (forall now node queue,
         handlerQueue (client s) = node :: queue ->
         exists h,
           nodeHandlers (client s) !! Tag node = Some h
           /\ handlerQueueLoop otherHandler [RecvNode now] (client s)
              = (modify (set_handlerQueue queue);;
                 callNodeHandler otherHandler (Some h) node now;;
                 mret StillLooping) (client s)).
Proof.
  intros Hother Hreach.
  destruct (reachable_invariant Unpack Unmarshal otherHandler Hother
              deviceStore randomBytes s Hreach) as (Ht & Hq & Hp).
  rewrite Forall_forall in Hq, Hp.
  assert (Hlookup : forall node,
             In node (handlerQueue (client s)) \/ In node (blockedPushers s) ->
             exists h, nodeHandlers (client s) !! Tag node = Some h).
  { intros node [Hin|Hin]; rewrite Ht.
    - apply list_elem_of_In, Hq in Hin. exact Hin.
    - apply list_elem_of_In, Hp in Hin. exact Hin. }
  split; [exact Ht|]. split; [exact Hlookup|].
  intros now node queue Hqueue.
  destruct (Hlookup node) as [h Hh]; [left; rewrite Hqueue; left; reflexivity|].
  exists h. split; [exact Hh|].
  simpl handlerQueueLoop. unfold mbind at 1, M_bind, bind, get.
  rewrite Hqueue, Hh. 
  destruct ((modify (set_handlerQueue queue);;
             callNodeHandler otherHandler (Some h) node now;;
             mret StillLooping) (client s)) as [[o c2] t2].
  reflexivity.
Qed.

Lemma handlerQueue_lookup_never_nil_witness :
  nodeHandlers (client afterOneMessage)
  = nodeHandlers (NewClient pairedStore (xff, x10))
  /\ handlerQueue (client afterOneMessage) = [messageNode]
  /\ exists h, nodeHandlers (client afterOneMessage) !! Tag messageNode = Some h.
Proof.
  destruct (handlerQueue_lookup_never_nil plainUnpack (decodesTo messageNode)
              idleHandler pairedStore (xff, x10) afterOneMessage)
    as (Htable & Hlookup & _).
  - intros h node c. repeat split; reflexivity.
  - apply (reachable_step plainUnpack (decodesTo messageNode) idleHandler
             (initial pairedStore (xff, x10))
             (initial pairedStore (xff, x10)) afterOneMessage).
    + apply reachable_refl.
    + apply (step_call plainUnpack (decodesTo messageNode) idleHandler
               (initial pairedStore (xff, x10)) (CallHandleFrame [])).
  - split; [exact Htable|]. split; [vm_compute; reflexivity|].
    apply Hlookup. left. vm_compute. left. reflexivity.
Defined.

(** * Further properties of the code *)

(** ** Connect and Disconnect *)

(** X1: [Connect] never panics.  It returns nil only after a successful
    handshake, and then the slot holds the new socket, the
    expected-disconnect flag is cleared and exactly the keepalive loop and
    the handler-queue loop of that socket were started.  When it returns an
    error, either the error is AlreadyConnected from a socket that reports
    connected and nothing at all was changed or done, or the slot is left
    empty, the frame socket was closed, the flag is cleared and no task was
    started. *)
Theorem Connect_outcomes env c :
  (exists res, outcomeOf (Connect env c) = Ret res)
  /\ (outcomeOf (Connect env c) = Ret None ->
      exists ns,
        handshakeResult env = inr ns
        /\ socket (stateOf (Connect env c)) = Some ns
        /\ expectedDisconnectVal (stateOf (Connect env c)) = 0
        /\ spawnedTasks (traceOf (Connect env c))
           = [TaskKeepAliveLoop ns; TaskHandlerQueueLoop ns])
  /\ (forall e,
         outcomeOf (Connect env c) = Ret (Some e) ->
         (Connect env c = (Ret (Some ErrAlreadyConnected), c, [])
          /\ exists s, socket c = Some s /\ socketIsConnected env = true)
         \/ (socket (stateOf (Connect env c)) = None
             /\ expectedDisconnectVal (stateOf (Connect env c)) = 0
             /\ spawnedTasks (traceOf (Connect env c)) = []
             /\ In (EFrameSocketClose 0) (traceOf (Connect env c)))).
Proof.
  unfold Connect, unlockedDisconnect, resetExpectedDisconnect, doHandshake.
  unfold_M. unfold outcomeOf, stateOf, traceOf.
  destruct (socket c) as [s|] eqn:Hs; simpl;
    [destruct (socketIsConnected env) eqn:Hc; simpl; rewrite ?Hs; simpl|];
    try (destruct (fsConnectResult env) as [e1|]; simpl;
         [|destruct (handshakeResult env) as [e2|ns]; simpl]);
    (split; [eauto|]); (split; [try discriminate; intros _; eauto|]);
    intros e He; try discriminate He;
    first [ left; split; [reflexivity|eauto]
          | right; simpl; intuition auto ].
Qed.

(** X2: when the slot holds a socket that no longer reports connected,
    [Connect] stops that socket before it creates the new frame socket, and
    stops nothing else; afterwards the slot holds the socket of the
    handshake, or nothing when the connection or the handshake failed. *)
Theorem Connect_replaces_dead_socket env c s :
  socket c = Some s ->
  socketIsConnected env = false ->
  (exists rest,
      traceOf (Connect env c)
      = ESocketStop s true :: EStoreExpectedDisconnect 0 :: ENewFrameSocket :: rest
      /\ forall s' b, ~ In (ESocketStop s' b) rest)
  /\ socket (stateOf (Connect env c))
     = match fsConnectResult env, handshakeResult env with
       | None, inr ns => Some ns
       | _, _ => None
       end.
Proof.
  intros Hs Hc.
  unfold Connect, unlockedDisconnect, resetExpectedDisconnect, doHandshake.
  unfold_M. unfold stateOf, traceOf. rewrite Hs, Hc. simpl. rewrite Hs. simpl.
  destruct (fsConnectResult env) as [e1|]; simpl;
    [|destruct (handshakeResult env) as [e2|ns]; simpl];
    (split; [eexists; split; [reflexivity|]|reflexivity]);
    intros s' b Hin; simpl in Hin; intuition discriminate.
Qed.

Lemma Connect_replaces_dead_socket_witness :
  socket (stateOf (Connect connectOk connectedClient)) = Some 8%nat.
Proof.
  apply (proj2 (Connect_replaces_dead_socket connectOk connectedClient 7%nat
                  eq_refl eq_refl)).
Defined.

Lemma set_socket_None_idle c : socket c = None -> set_socket None c = c.
Proof. destruct c. simpl. intros ->. reflexivity. Qed.

(** X3: [Disconnect] stops the socket in the slot, if there is one, and
    empties the slot.  It leaves the waiter map as it is and signals no
    waiter, does not touch the expected-disconnect flag, starts no task, and
    a second [Disconnect] does nothing. *)
Theorem Disconnect_clears_slot_only c :
  Disconnect c
  = (Ret tt, set_socket None c,
     match socket c with
     | Some s => [ESocketStop s true]
     | None => []
     end)
  /\ responseWaiters (stateOf (Disconnect c)) = responseWaiters c
  /\ expectedDisconnectVal (stateOf (Disconnect c)) = expectedDisconnectVal c
  /\ waiterSignals (traceOf (Disconnect c)) = []
  /\ spawnedTasks (traceOf (Disconnect c)) = []
  /\ Disconnect (stateOf (Disconnect c)) = (Ret tt, stateOf (Disconnect c), []).
Proof.
  assert (H : Disconnect c
              = (Ret tt, set_socket None c,
                 match socket c with
                 | Some s => [ESocketStop s true]
                 | None => []
                 end)).
  { destruct (socket c) as [s|] eqn:Hs.
    - apply Disconnect_active, Hs.
    - rewrite (Disconnect_idle c Hs), (set_socket_None_idle c Hs). reflexivity. }
  rewrite H. unfold stateOf, traceOf. simpl.
  repeat split; destruct (socket c); reflexivity.
Qed.

Lemma Connect_ok_state env c :
  outcomeOf (Connect env c) = Ret None ->
  exists ns,
    socket (stateOf (Connect env c)) = Some ns
    /\ expectedDisconnectVal (stateOf (Connect env c)) = 0.
Proof.
  unfold Connect, unlockedDisconnect, resetExpectedDisconnect, doHandshake.
  unfold_M. unfold outcomeOf, stateOf.
  destruct (socket c) as [s|] eqn:Hs; simpl;
    [destruct (socketIsConnected env) eqn:Hc; simpl; rewrite ?Hs; simpl|];
    try (destruct (fsConnectResult env) as [e1|]; simpl;
         [|destruct (handshakeResult env) as [e2|ns]; simpl]);
    intros H; try discriminate H; eauto.
Qed.

(** X4: [IsConnected] answers true exactly when [Connect] would refuse with
    AlreadyConnected and do nothing; it never changes the client; and after
    [Disconnect] it answers false whatever the old socket reports. *)
Theorem IsConnected_agrees_with_Connect env c :
  (outcomeOf (IsConnected (socketIsConnected env) c) = Ret true
   <-> Connect env c = (Ret (Some ErrAlreadyConnected), c, []))
  /\ stateOf (IsConnected (socketIsConnected env) c) = c
  /\ outcomeOf (IsConnected (socketIsConnected env) (stateOf (Disconnect c)))
     = Ret false.
Proof.
  split; [|split].
  - unfold IsConnected, Connect, unlockedDisconnect, resetExpectedDisconnect,
      doHandshake.
    unfold_M. unfold outcomeOf.
    destruct (socket c) as [s|] eqn:Hs; simpl;
      [destruct (socketIsConnected env) eqn:Hc; simpl; rewrite ?Hs; simpl|];
      try (destruct (fsConnectResult env) as [e1|]; simpl;
           [|destruct (handshakeResult env) as [e2|ns]; simpl]);
      split; intros H; try reflexivity; discriminate H.
  - unfold IsConnected. unfold_M. destruct (socket c); reflexivity.
  - destruct (socket c) as [s|] eqn:Hs.
    + rewrite (Disconnect_active c s Hs). reflexivity.
    + rewrite (Disconnect_idle c Hs). unfold IsConnected. unfold_M.
      unfold stateOf. simpl. rewrite Hs. reflexivity.
Qed.

(** ** The disconnect callback *)

(** X5: the callback acts at most once per socket: after [onDisconnect] has
    run for a socket, a second call for the same socket finds a different
    slot and is ignored (no waiter is signalled, no event dispatched, no
    reconnect started), whatever the two [remote] arguments are. *)
Theorem onDisconnect_second_call_is_stale ns remote1 remote2 c :
  onDisconnect ns remote2 (stateOf (onDisconnect ns remote1 c))
  = (Ret tt, stateOf (onDisconnect ns remote1 c),
     [ESocketStop ns false;
      ELog LogMain LDebug "Ignoring OnDisconnect on different socket"]).
Proof.
  destruct (decide (socket c = Some ns)) as [Hs|Hs].
  - rewrite (onDisconnect_active ns remote1 c Hs).
    apply onDisconnect_stale. simpl. discriminate.
  - rewrite (onDisconnect_stale ns remote1 c Hs).
    apply onDisconnect_stale. exact Hs.
Qed.

(** X6: a successful [Connect] rearms the disconnect event: whatever the
    expected-disconnect flag was before the call, a remote close of the new
    socket dispatches Disconnected and starts [autoReconnect]. *)
Theorem Connect_rearms_disconnect_event env c :
  outcomeOf (Connect env c) = Ret None ->
  exists ns,
    socket (stateOf (Connect env c)) = Some ns
    /\ spawnedTasks (traceOf (onDisconnect ns true (stateOf (Connect env c))))
       = [TaskDispatchEvent EvDisconnected; TaskAutoReconnect].
Proof.
  intros Hok. destruct (Connect_ok_state env c Hok) as (ns & Hs & Hflag).
  exists ns. split; [exact Hs|].
  rewrite (onDisconnect_active ns true _ Hs), Hflag. unfold traceOf. simpl.
  unfold releases.
  induction (map_to_list (responseWaiters (stateOf (Connect env c))))
    as [|kw l IH]; [reflexivity|exact IH].
Qed.

Lemma Connect_rearms_disconnect_event_witness :
  exists ns,
    socket (stateOf (Connect connectOk (stateOf (expectDisconnect disconnectedClient))))
    = Some ns
    /\ spawnedTasks
         (traceOf (onDisconnect ns true
                     (stateOf (Connect connectOk
                                 (stateOf (expectDisconnect disconnectedClient))))))
       = [TaskDispatchEvent EvDisconnected; TaskAutoReconnect].
Proof.
  apply (Connect_rearms_disconnect_event connectOk
           (stateOf (expectDisconnect disconnectedClient))).
  reflexivity.
Defined.

(** ** Connection event handlers *)

Lemma releases_spawn_nothing (waiters : gmap string nat) :
  spawnedTasks (releases waiters) = [].
Proof.
  unfold releases.
  induction (map_to_list waiters) as [|kw l IH]; [reflexivity|exact IH].
Qed.

(** With the expected-disconnect flag up, the callback starts nothing. *)
Lemma onDisconnect_expected_spawns_nothing ns remote c :
  expectedDisconnectVal c = 1 ->
  spawnedTasks (traceOf (onDisconnect ns remote c)) = [].
Proof.
  intros Hflag. destruct (decide (socket c = Some ns)) as [Hs|Hs].
  - rewrite (onDisconnect_active ns remote c Hs), Hflag. unfold traceOf.
    simpl. assert (Hsp : forall t1 t2, spawnedTasks (t1 ++ t2)
                                        = spawnedTasks t1 ++ spawnedTasks t2).
    { intros t1 t2. induction t1 as [|e t1 IH]; [reflexivity|].
      destruct e; simpl; rewrite ?IH; reflexivity. }
    rewrite Hsp, releases_spawn_nothing. destruct remote; reflexivity.
  - rewrite (onDisconnect_stale ns remote c Hs). reflexivity.
Qed.

(** X7: on a stream:error with code 401 and a conflict child of type
    device_removed the handler raises the expected-disconnect flag, marks
    the session logged out, dispatches LoggedOut with OnConnect false and
    calls the store's Delete (the identity is gone when Delete succeeds).
    The close of the socket that follows is then not reported: the
    disconnect callback dispatches no Disconnected event and starts no
    reconnect. *)
Theorem handleStreamError_device_removed node c :
  streamErrorCode node = "401" ->
  isDeviceRemoved node = true ->
  outcomeOf (handleStreamError node c) = Ret tt
  /\ expectedDisconnectVal (stateOf (handleStreamError node c)) = 1
  /\ IsLoggedIn (stateOf (handleStreamError node c)) = false
  /\ socket (stateOf (handleStreamError node c)) = socket c
  /\ spawnedTasks (traceOf (handleStreamError node c))
     = [TaskDispatchEvent (EvLoggedOut false)]
  /\ In EStoreDelete (traceOf (handleStreamError node c))
  /\ (DeleteResult (Store c) = None ->
      ID (Store (stateOf (handleStreamError node c))) = None)
  /\ (forall ns remote,
         spawnedTasks
           (traceOf (onDisconnect ns remote (stateOf (handleStreamError node c))))
         = []).
Proof.
  unfold streamErrorCode, isDeviceRemoved. intros Hcode Hconf.
  assert (H : handleStreamError node c
              = (Ret tt,
                 match DeleteResult (Store c) with
                 | Some _ => set_expectedDisconnectVal 1 (set_IsLoggedIn false c)
                 | None =>
                     set_Store (mkDevice None "" None)
                       (set_expectedDisconnectVal 1 (set_IsLoggedIn false c))
                 end,
                 [EStoreExpectedDisconnect 1;
                  ELog LogMain LInfo "Got device removed stream error, sending LoggedOut event and deleting session";
                  ESpawn (TaskDispatchEvent (EvLoggedOut false));
                  EStoreDelete]
                 ++ match DeleteResult (Store c) with
                    | Some _ => [ELog LogMain LWarn "Failed to delete store after device_removed error: %v"]
                    | None => []
                    end)).
  { unfold handleStreamError. rewrite Hcode. simpl bool_decide. cbv iota.
    destruct (GetOptionalChildByTag node "conflict") as [conflict ok].
    simpl in Hconf. rewrite Hconf.
    unfold expectDisconnect, Store_Delete. unfold_M. simpl.
    destruct (DeleteResult (Store c)); reflexivity. }
  rewrite H. unfold outcomeOf, stateOf, traceOf. simpl.
  split; [reflexivity|].
  split; [destruct (DeleteResult (Store c)); reflexivity|].
  split; [destruct (DeleteResult (Store c)); reflexivity|].
  split; [destruct (DeleteResult (Store c)); reflexivity|].
  split; [destruct (DeleteResult (Store c)); reflexivity|].
  split; [auto 6|].
  split; [intros ->; reflexivity|].
  intros ns remote. apply onDisconnect_expected_spawns_nothing.
  destruct (DeleteResult (Store c)); reflexivity.
Qed.

Lemma handleStreamError_device_removed_witness :
  expectedDisconnectVal (stateOf (handleStreamError deviceRemovedError connectedClient)) = 1
  /\ spawnedTasks (traceOf (handleStreamError deviceRemovedError connectedClient))
     = [TaskDispatchEvent (EvLoggedOut false)].
Proof.
  destruct (handleStreamError_device_removed deviceRemovedError connectedClient)
    as (_ & Hflag & _ & _ & Hsp & _); [reflexivity|reflexivity|].
  split; assumption.
Defined.

(** X8: every other stream:error (a code that is not 515, and not 401 with
    a device_removed conflict; also a node with no code attribute, whose
    code reads as the empty string) is only reported: the handler marks the
    session logged out, dispatches one StreamError event carrying the code
    and the node, and leaves the flag, the store and the socket alone. *)
Theorem handleStreamError_unknown_code node c :
  streamErrorCode node <> "515" ->
  (streamErrorCode node = "401" -> isDeviceRemoved node = false) ->
  outcomeOf (handleStreamError node c) = Ret tt
  /\ stateOf (handleStreamError node c) = set_IsLoggedIn false c
  /\ spawnedTasks (traceOf (handleStreamError node c))
     = [TaskDispatchEvent (EvStreamError (streamErrorCode node) node)]
  /\ ~ In EStoreDelete (traceOf (handleStreamError node c))
  /\ ~ In (EStoreExpectedDisconnect 1) (traceOf (handleStreamError node c)).
Proof.
  unfold streamErrorCode, isDeviceRemoved. intros H515 H401.
  unfold handleStreamError.
  rewrite (bool_decide_eq_false_2 _ H515).
  destruct (bool_decide (fst (attrStringOk node "code") = "401")) eqn:E.
  - apply bool_decide_eq_true_1 in E. specialize (H401 E).
    destruct (GetOptionalChildByTag node "conflict") as [conflict ok].
    simpl in H401. rewrite H401.
    unfold outcomeOf, stateOf, traceOf. unfold_M. simpl.
    repeat split; intuition discriminate.
  - unfold outcomeOf, stateOf, traceOf. unfold_M. simpl.
    repeat split; intuition discriminate.
Qed.

Lemma handleStreamError_unknown_code_witness :
  spawnedTasks (traceOf (handleStreamError emptyNode connectedClient))
  = [TaskDispatchEvent (EvStreamError "" emptyNode)].
Proof.
  destruct (handleStreamError_unknown_code emptyNode connectedClient)
    as (_ & _ & Hsp & _).
  - vm_compute. discriminate.
  - vm_compute. discriminate.
  - exact Hsp.
Defined.

(** X9: on a failure node with reason 401 the handler raises the
    expected-disconnect flag, dispatches LoggedOut with OnConnect true and
    calls the store's Delete, so that the close that follows is not reported
    and, once the identity is deleted, [autoReconnect] does nothing.  On any
    other reason (also a missing one) it changes nothing in the client and
    dispatches one ConnectFailure event carrying the reason and the node. *)
Theorem handleConnectFailure_cases node c :
  outcomeOf (handleConnectFailure node c) = Ret tt
  /\ (fst (attrStringOk node "reason") = "401" ->
      expectedDisconnectVal (stateOf (handleConnectFailure node c)) = 1
      /\ spawnedTasks (traceOf (handleConnectFailure node c))
         = [TaskDispatchEvent (EvLoggedOut true)]
      /\ In EStoreDelete (traceOf (handleConnectFailure node c))
      /\ (forall ns remote,
             spawnedTasks
               (traceOf (onDisconnect ns remote
                           (stateOf (handleConnectFailure node c))))
             = [])
      /\ (DeleteResult (Store c) = None ->
          forall envs,
            autoReconnect envs (stateOf (handleConnectFailure node c))
            = (Ret Exited, stateOf (handleConnectFailure node c), [])))
  /\ (fst (attrStringOk node "reason") <> "401" ->
      stateOf (handleConnectFailure node c) = c
      /\ spawnedTasks (traceOf (handleConnectFailure node c))
         = [TaskDispatchEvent
              (EvConnectFailure (fst (attrStringOk node "reason")) node)]
      /\ ~ In EStoreDelete (traceOf (handleConnectFailure node c))).
Proof.
  unfold handleConnectFailure.
  destruct (bool_decide (fst (attrStringOk node "reason") = "401")) eqn:E.
  - apply bool_decide_eq_true_1 in E.
    unfold expectDisconnect, Store_Delete. unfold_M.
    unfold outcomeOf, stateOf, traceOf. simpl.
    destruct (DeleteResult (Store c)) as [e|] eqn:Hd; simpl;
      (split; [reflexivity|]); (split; [|intros Hne; contradiction]);
      intros _; (split; [reflexivity|]); (split; [reflexivity|]);
      (split; [auto 6|]);
      (split; [intros ns remote;
               apply onDisconnect_expected_spawns_nothing; reflexivity|]).
    + intros Hnone. discriminate Hnone.
    + intros _ envs. unfold autoReconnect. unfold_M. simpl.
      rewrite orb_true_r. reflexivity.
  - apply bool_decide_eq_false_1 in E.
    unfold outcomeOf, stateOf, traceOf. unfold_M. simpl.
    split; [reflexivity|]. split; [intros Heq; contradiction|].
    intros _. repeat split. intuition discriminate.
Qed.

Lemma handleConnectFailure_cases_witness :
  expectedDisconnectVal (stateOf (handleConnectFailure failure401 connectedClient)) = 1
  /\ stateOf (handleConnectFailure emptyNode connectedClient) = connectedClient.
Proof.
  split.
  - apply (proj1 (proj2 (handleConnectFailure_cases failure401 connectedClient))).
    reflexivity.
  - apply (proj2 (proj2 (handleConnectFailure_cases emptyNode connectedClient))).
    vm_compute. discriminate.
Defined.

(** X10: [handleIB] dispatches QRScannedWithoutMultidevice exactly when the
    node has a single child and that child is tagged downgrade_webclient;
    it starts nothing else and never changes the client. *)
Theorem handleIB_dispatches_only_on_downgrade node c :
  outcomeOf (handleIB node c) = Ret tt
  /\ stateOf (handleIB node c) = c
  /\ (traceOf (handleIB node c)
      = [ESpawn (TaskDispatchEvent EvQRScannedWithoutMultidevice)]
      <-> exists child,
          GetChildren node = [child] /\ Tag child = "downgrade_webclient")
  /\ ((~ exists child,
          GetChildren node = [child] /\ Tag child = "downgrade_webclient")
      -> traceOf (handleIB node c) = []).
Proof.
  unfold handleIB, outcomeOf, stateOf, traceOf. unfold_M.
  destruct (GetChildren node) as [|child [|child2 rest]]; simpl.
  - repeat split; try discriminate.
    intros (child & Hd & _). discriminate Hd.
  - destruct (bool_decide (Tag child = "downgrade_webclient")) eqn:E; simpl.
    + apply bool_decide_eq_true_1 in E. repeat split; eauto.
      intros Hno. exfalso. apply Hno. eauto.
    + apply bool_decide_eq_false_1 in E. repeat split; try discriminate.
      intros (child' & [= <-] & Ht). contradiction.
  - repeat split; try discriminate.
    intros (child' & Hd & _). discriminate Hd.
Qed.

(** X11: the connection handlers return normally on every node, also on one
    without attributes or children; none of them stops a socket, touches
    the socket slot or the waiter map, or signals a waiter. *)
Theorem connection_handlers_total node now c :
  (outcomeOf (handleStreamError node c) = Ret tt
   /\ socket (stateOf (handleStreamError node c)) = socket c
   /\ responseWaiters (stateOf (handleStreamError node c)) = responseWaiters c
   /\ forall s b, ~ In (ESocketStop s b) (traceOf (handleStreamError node c)))
  /\ (outcomeOf (handleConnectFailure node c) = Ret tt
      /\ socket (stateOf (handleConnectFailure node c)) = socket c
      /\ responseWaiters (stateOf (handleConnectFailure node c)) = responseWaiters c
      /\ forall s b, ~ In (ESocketStop s b) (traceOf (handleConnectFailure node c)))
  /\ (outcomeOf (handleConnectSuccess node now c) = Ret tt
      /\ socket (stateOf (handleConnectSuccess node now c)) = socket c
      /\ responseWaiters (stateOf (handleConnectSuccess node now c)) = responseWaiters c
      /\ forall s b, ~ In (ESocketStop s b) (traceOf (handleConnectSuccess node now c)))
  /\ (outcomeOf (handleIB node c) = Ret tt
      /\ socket (stateOf (handleIB node c)) = socket c
      /\ responseWaiters (stateOf (handleIB node c)) = responseWaiters c
      /\ forall s b, ~ In (ESocketStop s b) (traceOf (handleIB node c))).
Proof.
  split; [|split; [|split]].
  - unfold handleStreamError, expectDisconnect, Store_Delete.
    unfold outcomeOf, stateOf, traceOf. unfold_M.
    destruct (bool_decide (fst (attrStringOk node "code") = "515")); simpl;
      [|destruct (bool_decide (fst (attrStringOk node "code") = "401")); simpl;
        [destruct (GetOptionalChildByTag node "conflict") as [conflict [|]]; simpl;
         [destruct (bool_decide (fst (attrStringOk conflict "type") = "device_removed"));
          simpl; [destruct (DeleteResult (Store c)); simpl|]|]|]];
      repeat split; intros s b Hin; simpl in Hin; intuition discriminate.
  - unfold handleConnectFailure, expectDisconnect, Store_Delete.
    unfold outcomeOf, stateOf, traceOf. unfold_M.
    destruct (bool_decide (fst (attrStringOk node "reason") = "401")); simpl;
      [destruct (DeleteResult (Store c)); simpl|];
      repeat split; intros s b Hin; simpl in Hin; intuition discriminate.
  - unfold handleConnectSuccess, outcomeOf, stateOf, traceOf. unfold_M. simpl.
    repeat split; intros s b Hin; simpl in Hin; intuition discriminate.
  - unfold handleIB, outcomeOf, stateOf, traceOf. unfold_M.
    destruct (GetChildren node) as [|child [|child2 rest]]; simpl;
      [|destruct (bool_decide (Tag child = "downgrade_webclient")); simpl|];
      repeat split; intros s b Hin; simpl in Hin; intuition discriminate.
Qed.

(** X12: after a success node the backoff starts again: whatever the error
    counter was, the first attempt of the next [autoReconnect] sleeps two
    seconds. *)
Theorem handleConnectSuccess_restarts_backoff node now c env rest :
  EnableAutoReconnect c = true ->
  ID (Store c) <> None ->
  exists later,
    sleepsOf (traceOf (autoReconnect (env :: rest)
                         (stateOf (handleConnectSuccess node now c))))
    = 2 * time_Second :: later.
Proof.
  intros Hon Hid.
  rewrite autoReconnect_enabled by assumption.
  rewrite autoReconnectLoop_turn. cbv zeta.
  destruct (Connect env _) as [[[[e|]|v] c2] t]; unfold traceOf; simpl.
  - destruct (errors_Is e ErrAlreadyConnected); simpl.
    + eexists. reflexivity.
    + destruct (autoReconnectLoop rest c2) as [[o c3] t3]. simpl.
      eexists. reflexivity.
  - eexists. reflexivity.
  - eexists. reflexivity.
Qed.

Lemma handleConnectSuccess_restarts_backoff_witness :
  exists later,
    sleepsOf (traceOf (autoReconnect [connectRefused]
                         (stateOf (handleConnectSuccess emptyNode 0 disconnectedClient))))
    = 2 * time_Second :: later.
Proof.
  apply (handleConnectSuccess_restarts_backoff emptyNode 0 disconnectedClient
           connectRefused []); [reflexivity|discriminate].
Defined.

(** ** Sending nodes *)

(** X13: [sendNode] never changes the client and never panics.  Without a
    socket it returns NotConnected, and when the node cannot be marshalled
    it returns the wrapped marshal error; in both cases nothing is sent.
    Otherwise exactly one frame, carrying the node, goes to the socket in
    the slot, and the result is what SendFrame returned. *)
Theorem sendNode_cases node env c :
  stateOf (sendNode node env c) = c
  /\ (socket c = None ->
      sendNode node env c = (Ret (Some ErrNotConnected), c, []))
  /\ (forall sock,
         socket c = Some sock ->
         (forall e,
             marshalResult env = Some e ->
             sendNode node env c
             = (Ret (Some (ErrWrap "failed to marshal ping IQ" e)), c, []))
         /\ (marshalResult env = None ->
             outcomeOf (sendNode node env c) = Ret (sendFrameResult env)
             /\ sentFrames (traceOf (sendNode node env c)) = [(sock, node)])).
Proof.
  unfold sendNode, outcomeOf, stateOf, traceOf. unfold_M.
  destruct (socket c) as [s|]; simpl.
  - destruct (marshalResult env) as [e|]; simpl.
    + split; [reflexivity|]. split; [discriminate|].
      intros sock [= <-]. split; [intros e' [= <-]; reflexivity|discriminate].
    + split; [reflexivity|]. split; [discriminate|].
      intros sock [= <-]. split; [discriminate|]. intros _. split; reflexivity.
  - split; [reflexivity|]. split; [reflexivity|]. discriminate.
Qed.

Lemma sendNode_cases_witness :
  sendNode messageNode (mkSendEnv None None) disconnectedClient
  = (Ret (Some ErrNotConnected), disconnectedClient, [])
  /\ sentFrames (traceOf (sendNode messageNode (mkSendEnv None None) connectedClient))
     = [(7%nat, messageNode)].
Proof.
  split.
  - apply (proj1 (proj2 (sendNode_cases messageNode (mkSendEnv None None)
                           disconnectedClient))).
    reflexivity.
  - apply (proj2 (proj2 (sendNode_cases messageNode (mkSendEnv None None)
                           connectedClient)) 7%nat eq_refl).
    reflexivity.
Defined.

Lemma length_zero_empty (s : string) : String.length s = 0%nat <-> s = "".
Proof. destruct s; simpl; split; intros H; try reflexivity; discriminate H. Qed.

(** X14: with an empty push name [SendPresence] returns NoPushName and
    sends nothing, also on a connected session; with a push name it is
    [sendNode] of a presence node carrying the name and the state, so it
    reports NotConnected on an empty slot and otherwise sends that one
    node. *)
Theorem SendPresence_needs_push_name state env c :
  (PushName (Store c) = "" ->
   SendPresence state env c = (Ret (Some ErrNoPushName), c, []))
  /\ (PushName (Store c) <> "" ->
      SendPresence state env c
      = sendNode (presenceNode (PushName (Store c)) state) env c
      /\ (socket c = None ->
          SendPresence state env c = (Ret (Some ErrNotConnected), c, []))
      /\ (forall sock,
             socket c = Some sock -> marshalResult env = None ->
             sentFrames (traceOf (SendPresence state env c))
             = [(sock, presenceNode (PushName (Store c)) state)])).
Proof.
  split.
  - intros Hname. unfold SendPresence. unfold_M.
    rewrite bool_decide_eq_true_2 by (apply length_zero_empty, Hname).
    reflexivity.
  - intros Hname.
    assert (H : SendPresence state env c
                = sendNode (presenceNode (PushName (Store c)) state) env c).
    { unfold SendPresence. unfold mbind, M_bind, bind, get.
      rewrite bool_decide_eq_false_2
        by (intros Hl; apply Hname, length_zero_empty, Hl).
      destruct (sendNode _ env c) as [[o c2] t2]. reflexivity. }
    rewrite H. split; [reflexivity|].
    unfold sendNode, traceOf. unfold_M. split.
    + intros ->. reflexivity.
    + intros sock -> ->. reflexivity.
Qed.

Lemma SendPresence_needs_push_name_witness :
  SendPresence "available" (mkSendEnv None None)
    (set_socket (Some 7%nat) (NewClient emptyStore (xff, x10)))
  = (Ret (Some ErrNoPushName),
     set_socket (Some 7%nat) (NewClient emptyStore (xff, x10)), [])
  /\ sentFrames (traceOf (SendPresence "available" (mkSendEnv None None) connectedClient))
     = [(7%nat, presenceNode "me" "available")].
Proof.
  split.
  - apply (proj1 (SendPresence_needs_push_name "available" (mkSendEnv None None)
                    (set_socket (Some 7%nat) (NewClient emptyStore (xff, x10))))).
    reflexivity.
  - apply (proj2 (proj2 (proj2 (SendPresence_needs_push_name "available"
                                  (mkSendEnv None None) connectedClient)
                           ltac:(discriminate))) 7%nat); reflexivity.
Defined.

(** X15: [SendChatPresence] dereferences the stored identity while it
    builds the node: on a device without identity it panics, before the
    socket slot is looked at and with nothing sent, whether or not the
    session is connected.  With an identity it is [sendNode] of a chatstate
    node from that identity to the chat, whose only child is tagged with the
    state. *)
Theorem SendChatPresence_needs_identity state jid env c :
  (ID (Store c) = None ->
   SendChatPresence state jid env c
   = (Panic "invalid memory address or nil pointer dereference", c, []))
  /\ (forall own,
         ID (Store c) = Some own ->
         SendChatPresence state jid env c
         = sendNode (chatstateNode own jid state) env c
         /\ GetChildren (chatstateNode own jid state) = [mkNode state ∅ ContentNil]).
Proof.
  split.
  - intros Hid. unfold SendChatPresence. unfold_M. rewrite Hid. reflexivity.
  - intros own Hid. split; [|reflexivity].
    unfold SendChatPresence. unfold mbind, M_bind, bind, get. rewrite Hid.
    destruct (sendNode _ env c) as [[o c2] t2]. reflexivity.
Qed.

Lemma SendChatPresence_needs_identity_witness :
  SendChatPresence "composing" "123@s.whatsapp.net" (mkSendEnv None None)
    (set_socket (Some 7%nat) (NewClient emptyStore (xff, x10)))
  = (Panic "invalid memory address or nil pointer dereference",
     set_socket (Some 7%nat) (NewClient emptyStore (xff, x10)), []).
Proof.
  apply (proj1 (SendChatPresence_needs_identity "composing" "123@s.whatsapp.net"
                  (mkSendEnv None None)
                  (set_socket (Some 7%nat) (NewClient emptyStore (xff, x10))))).
  reflexivity.
Defined.

(** ** Event bus *)

(** A nil func met by the loop panics before it is invoked. *)
Lemma rangeHandlers_nil_func evt pre h post c :
  Forall (returnsOn evt) pre ->
  fn h = None ->
  rangeHandlers (pre ++ h :: post) evt c
  = (Panic "invalid memory address or nil pointer dereference", c,
     invocations pre evt).
Proof.
  intros Hpre Hf.
  induction Hpre as [|p rest [g [Hg Hr]] _ IH].
  - simpl. unfold callHandler. rewrite Hf. reflexivity.
  - simpl. unfold callHandler at 1. rewrite Hg.
    unfold mbind, M_bind, bind, emit. rewrite Hr. simpl.
    rewrite IH. reflexivity.
Qed.

(** Either every subscriber returns on the event, or there is a first one
    that does not: it panics, or its func is nil. *)
Lemma first_not_returning evt (hs : list wrappedEventHandler) :
  Forall (returnsOn evt) hs
  \/ exists pre h post,
      hs = pre ++ h :: post
      /\ Forall (returnsOn evt) pre
      /\ (panicsOn evt h \/ fn h = None).
Proof.
  induction hs as [|x rest IH]; [left; constructor|].
  destruct (fn x) as [f|] eqn:Hf.
  - destruct (f evt) as [|v] eqn:Hr.
    + assert (Hx : returnsOn evt x) by (exists f; split; assumption).
      destruct IH as [Hall|(pre & h & post & -> & Hpre & Hh)].
      * left. constructor; assumption.
      * right. exists (x :: pre), h, post. repeat split; [|exact Hh].
        constructor; assumption.
    + right. exists [], x, rest. repeat split; [constructor|].
      left. exists f, v. split; assumption.
  - right. exists [], x, rest. repeat split; [constructor|]. right. exact Hf.
Qed.

(** X16: [dispatchEvent] always returns normally and never changes the
    client, whatever the subscribers do (return, panic, or be a nil func).
    Its trace is fixed by the first subscriber that does not return: when
    all return, all are invoked in registration order and nothing is
    logged; when the first that does not return panics, the subscribers up
    to and including it are invoked and one error line is logged after the
    invocations; when it is a nil func, only the subscribers before it are
    invoked and one error line is logged.  So it logs exactly when a
    subscriber did not return, and no subscriber after that one is
    invoked. *)
Theorem dispatchEvent_total evt c :
  outcomeOf (dispatchEvent evt c) = Ret tt
  /\ stateOf (dispatchEvent evt c) = c
  /\ ((Forall (returnsOn evt) (eventHandlers c)
       /\ traceOf (dispatchEvent evt c) = invocations (eventHandlers c) evt)
      \/ (exists pre h post,
             eventHandlers c = pre ++ h :: post
             /\ Forall (returnsOn evt) pre
             /\ panicsOn evt h
             /\ traceOf (dispatchEvent evt c)
                = invocations (pre ++ [h]) evt
                  ++ [ELog LogMain LError panicFormat])
      \/ (exists pre h post,
             eventHandlers c = pre ++ h :: post
             /\ Forall (returnsOn evt) pre
             /\ fn h = None
             /\ traceOf (dispatchEvent evt c)
                = invocations pre evt ++ [ELog LogMain LError panicFormat])).
Proof.
  destruct (first_not_returning evt (eventHandlers c))
    as [Hall|(pre & h & post & Heq & Hpre & [Hh|Hh])].
  - rewrite (dispatchEvent_all_return evt c Hall).
    split; [reflexivity|]. split; [reflexivity|]. left. split; [exact Hall|reflexivity].
  - destruct (rangeHandlers_panic evt pre h post c Hpre Hh) as [v Hv].
    assert (Hd : dispatchEvent evt c
                 = (Ret tt, c,
                    invocations (pre ++ [h]) evt
                    ++ [ELog LogMain LError panicFormat])).
    { unfold dispatchEvent, deferRecover. unfold mbind at 1, M_bind, bind, get.
      rewrite Heq, Hv. reflexivity. }
    rewrite Hd.
    split; [reflexivity|]. split; [reflexivity|].
    right. left. exists pre, h, post. repeat split; assumption.
  - assert (Hd : dispatchEvent evt c
                 = (Ret tt, c,
                    invocations pre evt ++ [ELog LogMain LError panicFormat])).
    { unfold dispatchEvent, deferRecover. unfold mbind at 1, M_bind, bind, get.
      rewrite Heq, (rangeHandlers_nil_func evt pre h post c Hpre Hh).
      reflexivity. }
    rewrite Hd.
    split; [reflexivity|]. split; [reflexivity|].
    right. right. exists pre, h, post. repeat split; assumption.
Qed.

(** X17: after [RemoveEventHandlers] a dispatch invokes nobody and logs
    nothing, every [RemoveEventHandler] answers false, and only the
    subscriber list was changed. *)
Theorem RemoveEventHandlers_clears_all evt id0 c :
  RemoveEventHandlers c = (Ret tt, set_eventHandlers [] c, [])
  /\ dispatchEvent evt (set_eventHandlers [] c)
     = (Ret tt, set_eventHandlers [] c, [])
  /\ RemoveEventHandler id0 (set_eventHandlers [] c)
     = (Ret false, set_eventHandlers [] c, []).
Proof. repeat split. Qed.

(** X18: registration order is dispatch order: a subscriber added with
    [AddEventHandler] gets the incremented process-wide counter as its id
    and is invoked after all the subscribers registered before it. *)
Theorem AddEventHandler_dispatch_order f g evt c :
  Forall (returnsOn evt) (eventHandlers c) ->
  f evt = HReturns ->
  outcomeOf (AddEventHandler (Some f) g c) = Ret (wrapU32 (g + 1))
  /\ dispatchEvent evt (stateOf (AddEventHandler (Some f) g c))
     = (Ret tt, stateOf (AddEventHandler (Some f) g c),
        invocations (eventHandlers c) evt ++ [EInvoke (wrapU32 (g + 1)) evt]).
Proof.
  intros Hall Hf. rewrite AddEventHandler_eq. split; [reflexivity|].
  unfold stateOf. simpl.
  rewrite dispatchEvent_all_return.
  - simpl. unfold invocations. rewrite map_app. reflexivity.
  - simpl. apply Forall_app. split; [exact Hall|].
    constructor; [|constructor]. exists f. split; [reflexivity|exact Hf].
Qed.

Lemma AddEventHandler_dispatch_order_witness :
  outcomeOf (AddEventHandler (Some quietHandler) 2 twoQuietSubscribers) = Ret 3
  /\ dispatchEvent EvConnected
       (stateOf (AddEventHandler (Some quietHandler) 2 twoQuietSubscribers))
     = (Ret tt,
        stateOf (AddEventHandler (Some quietHandler) 2 twoQuietSubscribers),
        [EInvoke 1 EvConnected; EInvoke 2 EvConnected; EInvoke 3 EvConnected]).
Proof.
  refine (AddEventHandler_dispatch_order quietHandler 2 EvConnected
            twoQuietSubscribers _ eq_refl).
  cbn.
  repeat first [apply Forall_nil_2 | apply Forall_cons_2];
    exists quietHandler; split; reflexivity.
Defined.

Lemma set_eventHandlers_same c : set_eventHandlers (eventHandlers c) c = c.
Proof. destruct c. reflexivity. Qed.

(** X19: adding a subscriber and removing it by the id that was handed out
    gives back the client as it was, provided no registered subscriber
    already carries that id. *)
Theorem AddEventHandler_RemoveEventHandler_roundtrip handler g c :
  Forall (hasOtherId (wrapU32 (g + 1))) (eventHandlers c) ->
  RemoveEventHandler (wrapU32 (g + 1)) (stateOf (AddEventHandler handler g c))
  = (Ret true, c, []).
Proof.
  intros Hfresh. rewrite AddEventHandler_eq. unfold stateOf. simpl.
  rewrite (RemoveEventHandler_found (wrapU32 (g + 1)) (eventHandlers c)
             (mkWrapped handler (wrapU32 (g + 1))) []).
  - simpl. rewrite app_nil_r.
    destruct c. reflexivity.
  - reflexivity.
  - exact Hfresh.
  - reflexivity.
Qed.

Lemma AddEventHandler_RemoveEventHandler_roundtrip_witness :
  RemoveEventHandler 4 (stateOf (AddEventHandler None 3 threeSubscribers))
  = (Ret true, threeSubscribers, []).
Proof.
  apply (AddEventHandler_RemoveEventHandler_roundtrip None 3 threeSubscribers).
  repeat first [apply Forall_nil_2 | apply Forall_cons_2];
    vm_compute; discriminate.
Defined.

Lemma first_with_id id0 (hs : list wrappedEventHandler) :
  Forall (hasOtherId id0) hs
  \/ exists pre h post,
      hs = pre ++ h :: post /\ id h = id0 /\ Forall (hasOtherId id0) pre.
Proof.
  induction hs as [|x rest IH]; [left; constructor|].
  destruct (decide (id x = id0)) as [Hx|Hx].
  - right. exists [], x, rest. repeat split; [exact Hx|constructor].
  - destruct IH as [Hall|(pre & h & post & -> & Hid & Hpre)].
    + left. constructor; assumption.
    + right. exists (x :: pre), h, post. repeat split; [exact Hid|].
      constructor; assumption.
Qed.

(** X20: on any subscriber list, also one in which ids repeat,
    [RemoveEventHandler] answers true exactly when some registered
    subscriber carries the id; it then removes the first such subscriber
    and no other, keeping the order of the rest, and otherwise changes
    nothing.  Nothing but the subscriber list is ever changed. *)
Theorem RemoveEventHandler_first_match id0 c :
  (outcomeOf (RemoveEventHandler id0 c) = Ret true
   <-> exists h, In h (eventHandlers c) /\ id h = id0)
  /\ (outcomeOf (RemoveEventHandler id0 c) = Ret true ->
      exists pre h post,
        eventHandlers c = pre ++ h :: post
        /\ id h = id0
        /\ Forall (hasOtherId id0) pre
        /\ RemoveEventHandler id0 c = (Ret true, set_eventHandlers (pre ++ post) c, []))
  /\ (outcomeOf (RemoveEventHandler id0 c) <> Ret true ->
      RemoveEventHandler id0 c = (Ret false, c, [])).
Proof.
  destruct (first_with_id id0 (eventHandlers c))
    as [Hnone|(pre & h & post & Hhs & Hid & Hpre)].
  - rewrite (RemoveEventHandler_missing id0 c Hnone). unfold outcomeOf. simpl.
    split; [|split].
    + split; [discriminate|]. intros (h & Hin & Hid).
      rewrite Forall_forall in Hnone.
      apply list_elem_of_In, Hnone in Hin. contradiction.
    + discriminate.
    + reflexivity.
  - rewrite (RemoveEventHandler_found id0 pre h post c Hhs Hpre Hid).
    unfold outcomeOf. simpl. split; [|split].
    + split; [|reflexivity]. intros _. exists h. split; [|exact Hid].
      rewrite Hhs. apply in_app_iff. right. left. reflexivity.
    + intros _. exists pre, h, post. auto.
    + intros Hne. contradiction.
Qed.

(** ** Inbound router *)

(** X21: a frame that cannot be decompressed or decoded is dropped: the
    client is unchanged and the only effects are a warning and a debug line
    with the hex dump. *)
Theorem handleFrame_decode_failure
    (Unpack : list byte -> error + list byte)
    (Unmarshal : list byte -> error + Node) data c :
  decodeFrame Unpack Unmarshal data = None ->
  exists warning,
    handleFrame Unpack Unmarshal data c
    = (Ret tt, c,
       [ELog LogMain LWarn warning;
        ELog LogMain LDebug "Errored frame hex: %s"]).
Proof.
  unfold decodeFrame, handleFrame.
  destruct (Unpack data) as [e|decompressed].
  - intros _. eexists. reflexivity.
  - destruct (Unmarshal decompressed) as [e|node]; [|discriminate].
    intros _. eexists. reflexivity.
Qed.

Lemma handleFrame_decode_failure_witness :
  exists warning,
    handleFrame (fun _ => inl (ErrExternal "zlib: invalid header"))
      (decodesTo messageNode) [] connectedClient
    = (Ret tt, connectedClient,
       [ELog LogMain LWarn warning;
        ELog LogMain LDebug "Errored frame hex: %s"]).
Proof.
  apply (handleFrame_decode_failure
           (fun _ => inl (ErrExternal "zlib: invalid header"))
           (decodesTo messageNode) [] connectedClient).
  reflexivity.
Defined.

(** X22: whatever the frame, [handleFrame] returns normally and changes at
    most the waiter map and the handler queue: the waiter map can only lose
    entries, the queue keeps its nodes in place and grows by at most one
    node at the tail, and every effect is a log line, a delivery to a
    waiter or the start of a detached pusher (no socket is stopped, no
    frame sent, no event dispatched). *)
Theorem handleFrame_touches_only_waiters_and_queue
    (Unpack : list byte -> error + list byte)
    (Unmarshal : list byte -> error + Node) data c :
  outcomeOf (handleFrame Unpack Unmarshal data c) = Ret tt
  /\ stateOf (handleFrame Unpack Unmarshal data c)
     = set_handlerQueue
         (handlerQueue (stateOf (handleFrame Unpack Unmarshal data c)))
         (set_responseWaiters
            (responseWaiters (stateOf (handleFrame Unpack Unmarshal data c)))
            c)
  /\ responseWaiters (stateOf (handleFrame Unpack Unmarshal data c))
     ⊆ responseWaiters c
  /\ (exists added,
         handlerQueue (stateOf (handleFrame Unpack Unmarshal data c))
         = handlerQueue c ++ added
         /\ (length added <= 1)%nat)
  /\ Forall routerEffect (traceOf (handleFrame Unpack Unmarshal data c)).
Proof.
  assert (Hc : set_handlerQueue (handlerQueue c)
                 (set_responseWaiters (responseWaiters c) c) = c)
    by (destruct c; reflexivity).
  assert (Hnil : exists added : list Node,
             handlerQueue c = handlerQueue c ++ added /\ (length added <= 1)%nat)
    by (exists []; rewrite app_nil_r; auto).
  unfold handleFrame, receiveResponse, isExpectedDisconnect, enqueue.
  unfold outcomeOf, stateOf, traceOf. unfold_M.
  destruct (Unpack data) as [e|decompressed]; simpl;
    [repeat split; auto; repeat constructor|].
  destruct (Unmarshal decompressed) as [e|node]; simpl;
    [repeat split; auto; repeat constructor|].
  destruct (bool_decide (Tag node = "xmlstreamend")); simpl;
    [destruct (bool_decide (expectedDisconnectVal c = 1)); simpl;
     repeat split; auto; repeat constructor|].
  destruct (attrStringOk node "id") as [reqID [|]]; simpl;
    [destruct (responseWaiters c !! reqID) as [w|] eqn:Hw; simpl|].
  - split; [reflexivity|]. split; [destruct c; reflexivity|].
    split; [apply delete_subseteq|]. split; [exact Hnil|].
    repeat constructor.
  - destruct (nodeHandlers c !! Tag node); simpl;
      [destruct (queueHasRoom c); simpl|];
      (split; [reflexivity|]); (split; [destruct c; reflexivity|]);
      (split; [reflexivity|]);
      (split; [first [exact Hnil | exists [node]; split; [reflexivity|simpl; lia]]|]);
      repeat constructor.
  - destruct (nodeHandlers c !! Tag node); simpl;
      [destruct (queueHasRoom c); simpl|];
      (split; [reflexivity|]); (split; [destruct c; reflexivity|]);
      (split; [reflexivity|]);
      (split; [first [exact Hnil | exists [node]; split; [reflexivity|simpl; lia]]|]);
      repeat constructor.
Qed.

Lemma handleFrames_accepts
    (Unpack : list byte -> error + list byte)
    (Unmarshal : list byte -> error + Node) c frames nodes :
  Forall2 (fun data node =>
             decodeFrame Unpack Unmarshal data = Some node /\ queuedBy c node)
          frames nodes ->
  forall queue,
    (length queue + length nodes <= handlerQueueSize)%nat ->
    handleFrames Unpack Unmarshal frames (set_handlerQueue queue c)
    = (Ret tt, set_handlerQueue (queue ++ nodes) c,
       map (fun _ => recvLog) nodes).
Proof.
  induction 1 as [|data node frames nodes [Hdec (Htag & Hw & Hh)] _ IH];
    intros queue Hroom.
  - simpl. rewrite app_nil_r. reflexivity.
  - simpl handleFrames. unfold mbind, M_bind, bind.
    unfold decodeFrame in Hdec.
    destruct (Unpack data) as [e|decompressed] eqn:Hu; [discriminate|].
    destruct (Unmarshal decompressed) as [e|node'] eqn:Hm; [discriminate|].
    injection Hdec as ->.
    rewrite (handleFrame_unclaimed Unpack Unmarshal data decompressed node
               (set_handlerQueue queue c) Hu Hm Htag Hw).
    simpl nodeHandlers. destruct Hh as [h Hh]. rewrite Hh.
    unfold queueHasRoom. simpl handlerQueue.
    rewrite bool_decide_eq_true_2 by (simpl in Hroom; lia).
    change (set_handlerQueue (queue ++ [node]) (set_handlerQueue queue c))
      with (set_handlerQueue (queue ++ [node]) c).
    rewrite IH by (rewrite length_app; simpl in *; lia).
    rewrite <- app_assoc. reflexivity.
Qed.

(** X23: arrival order is queue order: when every frame of a sequence
    decodes to a node that goes to the handler queue (no stream end, no
    waiter claims it, its tag is in the table) and the queue has room for
    all of them, handling the frames one after the other appends exactly
    these nodes to the queue, in the order of arrival, behind the nodes
    already queued; no pusher is started and nothing else changes. *)
Theorem handleFrames_fifo
    (Unpack : list byte -> error + list byte)
    (Unmarshal : list byte -> error + Node) c frames nodes :
  Forall2 (fun data node =>
             decodeFrame Unpack Unmarshal data = Some node /\ queuedBy c node)
          frames nodes ->
  (length (handlerQueue c) + length nodes <= handlerQueueSize)%nat ->
  handleFrames Unpack Unmarshal frames c
  = (Ret tt, set_handlerQueue (handlerQueue c ++ nodes) c,
     map (fun _ => recvLog) nodes).
Proof.
  intros Hall Hroom.
  pose proof (handleFrames_accepts Unpack Unmarshal c frames nodes Hall
                (handlerQueue c) Hroom) as H.
  replace (set_handlerQueue (handlerQueue c) c) with c in H
    by (destruct c; reflexivity).
  exact H.
Qed.

Lemma handleFrames_fifo_witness :
  handleFrames plainUnpack
    (fun data => inr (mkNode (if bool_decide (data = []) then "message" else "receipt")
                        ∅ ContentNil))
    [[]; [x01]] (NewClient pairedStore (xff, x10))
  = (Ret tt,
     set_handlerQueue
       [mkNode "message" ∅ ContentNil; mkNode "receipt" ∅ ContentNil]
       (NewClient pairedStore (xff, x10)),
     [recvLog; recvLog]).
Proof.
  apply (handleFrames_fifo plainUnpack
           (fun data => inr (mkNode (if bool_decide (data = []) then "message" else "receipt")
                               ∅ ContentNil))
           (NewClient pairedStore (xff, x10))
           [[]; [x01]]
           [mkNode "message" ∅ ContentNil; mkNode "receipt" ∅ ContentNil]).
  - constructor; [|constructor; [|constructor]];
      (split; [reflexivity|]); (split; [discriminate|]);
      (split; [reflexivity|]); vm_compute; eexists; reflexivity.
  - unfold handlerQueueSize. simpl. lia.
Defined.

(** ** Handler queue worker *)

(** A receive turn of the worker, by what the handler does. *)
Lemma handlerQueueLoop_recv
    (otherHandler : nodeHandler -> Node -> M unit) now rest c :
  handlerQueueLoop otherHandler (RecvNode now :: rest) c
  = match handlerQueue c with
    | [] => handlerQueueLoop otherHandler rest c
    | node :: queue =>
        match callNodeHandler otherHandler (nodeHandlers c !! Tag node) node now
                (set_handlerQueue queue c) with
        | (Ret _, c1, t1) =>
            match handlerQueueLoop otherHandler rest c1 with
            | (o, c2, t2) => (o, c2, t1 ++ t2)
            end
        | (Panic v, c1, t1) => (Panic v, c1, t1)
        end
    end.
Proof.
  simpl handlerQueueLoop. unfold_M.
  destruct (handlerQueue c) as [|node queue].
  - destruct (handlerQueueLoop otherHandler rest c) as [[o c2] t2]. reflexivity.
  - simpl.
    destruct (callNodeHandler otherHandler (nodeHandlers c !! Tag node) node now
                (set_handlerQueue queue c)) as [[[[]|v] c1] t1]; [|reflexivity].
    destruct (handlerQueueLoop otherHandler rest c1) as [[o c2] t2]. reflexivity.
Qed.

(** X24: the worker only ever takes nodes from the front of the queue: for
    every script of its [select], the queue afterwards is the queue before
    without its first [k] nodes, [k] being at most the number of turns; the
    handler table is left as it is.  When the loop is still running after
    as many receives as nodes were queued, it has consumed one node per
    turn; and it exits only on a done context.  (The handlers defined in
    other files are taken not to touch table or queue.) *)
Theorem handlerQueueLoop_consumes_front
    (otherHandler : nodeHandler -> Node -> M unit) cases c :
  (forall h node, keepsRouter (otherHandler h node)) ->
  exists k,
    (k <= length cases)%nat
    /\ handlerQueue (stateOf (handlerQueueLoop otherHandler cases c))
       = drop k (handlerQueue c)
    /\ nodeHandlers (stateOf (handlerQueueLoop otherHandler cases c))
       = nodeHandlers c
    /\ (outcomeOf (handlerQueueLoop otherHandler cases c) = Ret StillLooping ->
        (length cases <= length (handlerQueue c))%nat ->
        k = length cases)
    /\ (outcomeOf (handlerQueueLoop otherHandler cases c) = Ret Exited ->
        In CtxDone cases).
Proof.
  intros Hother. revert c.
  induction cases as [|[now|] rest IH]; intros c.
  - exists 0%nat. unfold outcomeOf, stateOf. simpl.
    split; [lia|]. repeat split. discriminate.
  - rewrite handlerQueueLoop_recv.
    destruct (handlerQueue c) as [|node queue] eqn:Hq.
    + destruct (IH c) as (k & Hk & Hdrop & Htable & _ & Hexit).
      exists k. split; [simpl; lia|]. rewrite Hdrop, Hq, drop_nil.
      split; [reflexivity|]. split; [exact Htable|].
      split; [simpl; intros _ Hlen; lia|]. intros Ho. right. apply Hexit, Ho.
    + pose proof (keepsRouter_callNodeHandler otherHandler Hother
                    (nodeHandlers c !! Tag node) node now
                    (set_handlerQueue queue c)) as (H1 & H2 & _).
      destruct (callNodeHandler otherHandler (nodeHandlers c !! Tag node) node
                  now (set_handlerQueue queue c)) as [[[[]|v] c1] t1];
        unfold stateOf in H1, H2; simpl in H1, H2.
      * destruct (IH c1) as (k & Hk & Hdrop & Htable & Hstill & Hexit).
        destruct (handlerQueueLoop otherHandler rest c1) as [[o c2] t2].
        unfold outcomeOf, stateOf in *. simpl in *.
        exists (S k). split; [lia|]. simpl.
        split; [congruence|]. split; [congruence|].
        split.
        -- intros Ho Hlen. f_equal. apply Hstill; [exact Ho|].
           rewrite H2. lia.
        -- intros Ho. right. apply Hexit, Ho.
      * exists 1%nat. unfold outcomeOf, stateOf. simpl.
        split; [lia|]. split; [exact H2|]. split; [exact H1|].
        split; discriminate.
  - exists 0%nat. unfold outcomeOf, stateOf. simpl.
    split; [lia|]. repeat split; [discriminate|]. intros _. left. reflexivity.
Qed.

Lemma handlerQueueLoop_consumes_front_witness :
  exists k,
    (k <= 2)%nat
    /\ handlerQueue (stateOf (handlerQueueLoop idleHandler [RecvNode 0; CtxDone]
                                (client afterOneMessage)))
       = drop k [messageNode].
Proof.
  destruct (handlerQueueLoop_consumes_front idleHandler [RecvNode 0; CtxDone]
              (client afterOneMessage))
    as (k & Hk & Hdrop & _).
  - intros h node c. repeat split; reflexivity.
  - exists k. split; [exact Hk|exact Hdrop].
Defined.

(** ** Profile pictures, the success path *)

Lemma GetProfilePictureInfo_ok jid preview env c resp :
  outcomeOf (sendIQ (profilePictureQuery jid preview) env c)
  = Ret (Some resp, None) ->
  outcomeOf (GetProfilePictureInfo jid preview env c)
  = let picture := GetChildByTag resp "picture" in
    let info :=
      mkProfilePictureInfo
        (fst (attrStringOk picture "url")) (fst (attrStringOk picture "id"))
        (fst (attrStringOk picture "type"))
        (fst (attrStringOk picture "direct_path")) in
    if negb (snd (GetOptionalChildByTag resp "picture"))
    then Ret (None,
              Some (ErrExternal "missing <picture> element in response to profile picture query"))
    else if snd (attrStringOk picture "id") && snd (attrStringOk picture "url")
            && snd (attrStringOk picture "type")
            && snd (attrStringOk picture "direct_path")
         then Ret (Some info, None)
         else Ret (Some info, Some (ErrExternal "attribute getter errors")).
Proof.
  unfold GetProfilePictureInfo, GetChildByTag. unfold mbind at 1, M_bind, bind.
  destruct (sendIQ (profilePictureQuery jid preview) env c) as [[o c1] t1].
  unfold outcomeOf. simpl. intros ->. simpl.
  unfold derefNode. unfold_M. simpl.
  destruct (GetOptionalChildByTag resp "picture") as [picture [|]]; simpl;
    [|reflexivity].
  destruct (snd (attrStringOk picture "id")),
           (snd (attrStringOk picture "url")),
           (snd (attrStringOk picture "type")),
           (snd (attrStringOk picture "direct_path")); reflexivity.
Qed.

(** X25: when the IQ succeeds, a response without a picture child gives an
    error and no info.  With a picture child the info always comes back,
    its fields read from the attributes id, url, type and direct_path (the
    empty string for one that is missing or not a string), and the error is
    nil exactly when all four are present as strings. *)
Theorem GetProfilePictureInfo_success jid preview env c resp :
  outcomeOf (sendIQ (profilePictureQuery jid preview) env c)
  = Ret (Some resp, None) ->
  (snd (GetOptionalChildByTag resp "picture") = false ->
   outcomeOf (GetProfilePictureInfo jid preview env c)
   = Ret (None,
          Some (ErrExternal "missing <picture> element in response to profile picture query")))
  /\ (snd (GetOptionalChildByTag resp "picture") = true ->
      exists err,
        outcomeOf (GetProfilePictureInfo jid preview env c)
        = Ret (Some
                 (mkProfilePictureInfo
                    (fst (attrStringOk (GetChildByTag resp "picture") "url"))
                    (fst (attrStringOk (GetChildByTag resp "picture") "id"))
                    (fst (attrStringOk (GetChildByTag resp "picture") "type"))
                    (fst (attrStringOk (GetChildByTag resp "picture") "direct_path"))),
               err)
        /\ (err = None
            <-> snd (attrStringOk (GetChildByTag resp "picture") "id") = true
                /\ snd (attrStringOk (GetChildByTag resp "picture") "url") = true
                /\ snd (attrStringOk (GetChildByTag resp "picture") "type") = true
                /\ snd (attrStringOk (GetChildByTag resp "picture") "direct_path") = true)).
Proof.
  intros Hok. rewrite (GetProfilePictureInfo_ok jid preview env c resp Hok).
  cbv zeta. split.
  - intros ->. reflexivity.
  - intros ->. simpl negb. cbv iota.
    destruct (snd (attrStringOk (GetChildByTag resp "picture") "id")),
             (snd (attrStringOk (GetChildByTag resp "picture") "url")),
             (snd (attrStringOk (GetChildByTag resp "picture") "type")),
             (snd (attrStringOk (GetChildByTag resp "picture") "direct_path"));
      simpl; eexists; (split; [reflexivity|]);
      split; intros H; try discriminate H; try reflexivity;
      intuition discriminate.
Qed.

Lemma GetProfilePictureInfo_success_witness :
  exists err,
    outcomeOf (GetProfilePictureInfo "123@s.whatsapp.net" false
                 (iqReplyEnv pictureResult) connectedClient)
    = Ret (Some (mkProfilePictureInfo "https://pps.whatsapp.net/a" "1" "image" "/a"),
           err).
Proof.
  destruct (proj2 (GetProfilePictureInfo_success "123@s.whatsapp.net" false
                     (iqReplyEnv pictureResult) connectedClient pictureResult
                     ltac:(vm_compute; reflexivity))
              ltac:(vm_compute; reflexivity))
    as (err & Hout & _).
  exists err. exact Hout.
Defined.

(** ** Device lists *)

Section DeviceListFacts.

Context {ADJID : Type} `{EqDecision ADJID}.
Variable NewADJID : string -> Z -> Z -> ADJID.
Variable GetInt64 : Node -> string -> Z * bool.

(** The loop appends, behind what is there, the devices the children stand
    for. *)
Lemma rangeDevices_listed user children appendTo ignore :
  rangeDevices NewADJID GetInt64 user children appendTo ignore
  = appendTo ++ listedDevices NewADJID GetInt64 user children ignore.
Proof.
  revert appendTo. unfold listedDevices.
  induction children as [|device rest IH]; intros appendTo.
  - simpl. rewrite app_nil_r. reflexivity.
  - cbn [rangeDevices List.filter].
    destruct (GetInt64 device "id") as [deviceID ok] eqn:Hg.
    assert (Hn : namesDevice GetInt64 device
                 = bool_decide (Tag device = "device") && ok)
      by (unfold namesDevice; rewrite Hg; reflexivity).
    assert (Hj : deviceJIDOf NewADJID GetInt64 user device
                 = NewADJID user 0 (toByte deviceID))
      by (unfold deviceJIDOf; rewrite Hg; reflexivity).
    rewrite Hn.
    destruct (bool_decide (Tag device = "device")); simpl; [|apply IH].
    destruct ok; simpl; [|apply IH].
    rewrite Hj.
    destruct ignore as [ignored|].
    + destruct (decide (NewADJID user 0 (toByte deviceID) = ignored)) as [He|He].
      * rewrite (bool_decide_eq_true_2 _ He).
        rewrite bool_decide_eq_true_2 by (f_equal; exact He).
        simpl. apply IH.
      * rewrite (bool_decide_eq_false_2 _ He).
        rewrite bool_decide_eq_false_2 by (intros [= Hx]; contradiction).
        simpl. rewrite IH, <- app_assoc. reflexivity.
    + rewrite bool_decide_eq_false_2 by discriminate.
      simpl. rewrite IH, <- app_assoc. reflexivity.
Qed.

Lemma listedDevices_sound user children ignore jid :
  In jid (listedDevices NewADJID GetInt64 user children ignore) ->
  Some jid <> ignore
  /\ exists device deviceID,
      In device children
      /\ Tag device = "device"
      /\ GetInt64 device "id" = (deviceID, true)
      /\ jid = NewADJID user 0 (deviceID mod 256).
Proof.
  unfold listedDevices. intros Hin.
  apply filter_In in Hin as [Hin Hne].
  apply negb_true_iff, bool_decide_eq_false_1 in Hne.
  split; [exact Hne|].
  apply in_map_iff in Hin as (device & <- & Hdev).
  apply filter_In in Hdev as [Hdev Hnames].
  unfold namesDevice in Hnames. apply andb_true_iff in Hnames as [Htag Hok].
  apply bool_decide_eq_true_1 in Htag.
  exists device, (fst (GetInt64 device "id")).
  split; [exact Hdev|]. split; [exact Htag|]. split; [|reflexivity].
  destruct (GetInt64 device "id") as [deviceID ok]. simpl in *. subst ok.
  reflexivity.
Qed.

Lemma listedDevices_length user children ignore :
  (length (listedDevices NewADJID GetInt64 user children ignore)
   <= length children)%nat.
Proof.
  unfold listedDevices.
  etransitivity; [apply List.filter_length_le|].
  rewrite length_map. apply List.filter_length_le.
Qed.

End DeviceListFacts.

(** X26: [parseDeviceList] returns nil and leaves the caller's slice alone
    unless the node is tagged devices and has a device-list child.
    Otherwise it returns the slice it was given (an empty one for a nil
    pointer) followed, in order, by one JID for every child tagged device
    whose id [GetInt64] accepts, the ignored JID left out; a slice passed by
    pointer is updated to the same value.  Each appended JID has agent 0
    and, as device, the low eight bits of the id, so at most as many JIDs
    are appended as there are children and ids that agree modulo 256 give
    the same JID. *)
Theorem parseDeviceList_appends_listed
    {ADJID : Type} `{EqDecision ADJID}
    (NewADJID : string -> Z -> Z -> ADJID)
    (GetInt64 : Node -> string -> Z * bool)
    user deviceNode appendTo ignore :
  (Tag deviceNode <> "devices"
   \/ Tag (GetChildByTag deviceNode "device-list") <> "device-list" ->
   parseDeviceList NewADJID GetInt64 user deviceNode appendTo ignore
   = (None, appendTo))
  /\ (Tag deviceNode = "devices" ->
      Tag (GetChildByTag deviceNode "device-list") = "device-list" ->
      exists added,
        parseDeviceList NewADJID GetInt64 user deviceNode appendTo ignore
        = (Some (match appendTo with Some arr => arr | None => [] end ++ added),
           match appendTo with
           | Some arr => Some (arr ++ added)
           | None => None
           end)
        /\ added
           = listedDevices NewADJID GetInt64 user
               (GetChildren (GetChildByTag deviceNode "device-list")) ignore
        /\ (length added
            <= length (GetChildren (GetChildByTag deviceNode "device-list")))%nat
        /\ forall jid,
            In jid added ->
            Some jid <> ignore
            /\ exists device deviceID,
                In device (GetChildren (GetChildByTag deviceNode "device-list"))
                /\ Tag device = "device"
                /\ GetInt64 device "id" = (deviceID, true)
                /\ jid = NewADJID user 0 (deviceID mod 256)).
Proof.
  unfold parseDeviceList. split.
  - intros [Hd|Hl].
    + rewrite (bool_decide_eq_false_2 _ Hd). reflexivity.
    + rewrite (bool_decide_eq_false_2 _ Hl), orb_true_r. reflexivity.
  - intros Hd Hl.
    rewrite (bool_decide_eq_true_2 _ Hd), (bool_decide_eq_true_2 _ Hl).
    simpl. rewrite rangeDevices_listed.
    eexists. split; [destruct appendTo; reflexivity|].
    split; [reflexivity|]. split; [apply listedDevices_length|].
    intros jid. apply listedDevices_sound.
Qed.

Lemma parseDeviceList_appends_listed_witness :
  parseDeviceList (fun user agent device => (user, agent, device)) tableInt64
    "123" devicesNode (Some [("9", 0, 0)]) (Some ("123", 0, 0))
  = (Some [("9", 0, 0); ("123", 0, 1); ("123", 0, 1)],
     Some [("9", 0, 0); ("123", 0, 1); ("123", 0, 1)]).
Proof.
  destruct (proj2 (parseDeviceList_appends_listed
                     (fun user agent device => (user, agent, device)) tableInt64
                     "123" devicesNode (Some [("9", 0, 0)]) (Some ("123", 0, 0)))
              eq_refl eq_refl)
    as (added & Heq & Hadded & _).
  rewrite Heq, Hadded. vm_compute. reflexivity.
Defined.

(** ** The format of the unique prefix *)

Lemma pretty_N_go_digits (x : N) (s : string) :
  digitsOnly s = true -> digitsOnly (pretty_N_go x s) = true.
Proof.
  revert s. induction (N.lt_wf_0 x) as [x _ IH]; intros s Hs.
  assert (x = 0 \/ 0 < x)%N as [->|Hpos] by lia.
  - rewrite pretty_N_go_0. exact Hs.
  - rewrite pretty_N_go_step by exact Hpos. apply IH.
    + apply N.div_lt; [exact Hpos|reflexivity].
    + simpl. rewrite Hs, andb_true_r.
      unfold pretty_N_char. repeat case_match; reflexivity.
Qed.

Lemma pretty_N_digits (n : N) : digitsOnly (pretty n) = true.
Proof.
  unfold pretty, pretty_N. destruct (decide (n = 0%N)); [reflexivity|].
  apply pretty_N_go_digits. reflexivity.
Qed.

(** Two strings of digits followed by the same non-digit agree as soon as
    the whole strings agree. *)
Lemma digits_split (d : Ascii.ascii) (s1 s2 r1 r2 : string) :
  isDigitChar d = false ->
  digitsOnly s1 = true -> digitsOnly s2 = true ->
  s1 +:+ String d r1 = s2 +:+ String d r2 ->
  s1 = s2 /\ r1 = r2.
Proof.
  intros Hd. revert s2.
  induction s1 as [|a s1 IH]; intros [|b s2] H1 H2 Heq; simpl in *.
  - injection Heq as ->. auto.
  - injection Heq as -> _. apply andb_true_iff in H2 as [H2 _]. congruence.
  - injection Heq as -> _. apply andb_true_iff in H1 as [H1 _]. congruence.
  - injection Heq as -> Heq.
    apply andb_true_iff in H1 as [_ H1]. apply andb_true_iff in H2 as [_ H2].
    destruct (IH s2 H1 H2 Heq) as [-> ->]. auto.
Qed.

Lemma byte_to_N_inj (a b : byte) : Byte.to_N a = Byte.to_N b -> a = b.
Proof.
  intros H. apply (f_equal Byte.of_N) in H.
  rewrite !Byte.of_to_N in H. congruence.
Qed.

Lemma string_app_assoc (s1 s2 s3 : string) :
  (s1 +:+ s2) +:+ s3 = s1 +:+ (s2 +:+ s3).
Proof.
  induction s1 as [|a s1 IH]; [reflexivity|].
  change (String a ((s1 +:+ s2) +:+ s3) = String a (s1 +:+ (s2 +:+ s3))).
  f_equal. exact IH.
Qed.

Lemma string_app_nil_r (s : string) : s +:+ "" = s.
Proof.
  induction s as [|a s IH]; [reflexivity|].
  change (String a (s +:+ "") = String a s). f_equal. exact IH.
Qed.

(** X27: the prefix determines the random bytes: two clients whose random
    bytes differ get different prefixes; and because the prefix ends with a
    dash that no decimal number contains, a prefix followed by a decimal
    counter determines both, so ids made under different prefixes never
    coincide. *)
Theorem uniqueID_determines_bytes store1 store2 bytes1 bytes2 :
  (uniqueID (NewClient store1 bytes1) = uniqueID (NewClient store2 bytes2) ->
   bytes1 = bytes2)
  /\ (forall n1 n2 : N,
         uniqueID (NewClient store1 bytes1) +:+ pretty n1
         = uniqueID (NewClient store2 bytes2) +:+ pretty n2 ->
         bytes1 = bytes2 /\ n1 = n2).
Proof.
  assert (Hgen : forall s1 s2 : string,
             uniqueID (NewClient store1 bytes1) +:+ s1
             = uniqueID (NewClient store2 bytes2) +:+ s2 ->
             bytes1 = bytes2 /\ s1 = s2).
  { intros s1 s2 Heq. simpl uniqueID in Heq.
    rewrite !string_app_assoc in Heq. simpl in Heq.
    apply digits_split in Heq as [Ha Heq];
      [|reflexivity|apply pretty_N_digits|apply pretty_N_digits].
    apply digits_split in Heq as [Hb Heq];
      [|reflexivity|apply pretty_N_digits|apply pretty_N_digits].
    apply (inj pretty), byte_to_N_inj in Ha.
    apply (inj pretty), byte_to_N_inj in Hb.
    split; [|exact Heq].
    destruct bytes1, bytes2. simpl in *. congruence. }
  split.
  - intros Heq. destruct (Hgen "" "") as [Hb _]; [|exact Hb].
    rewrite !string_app_nil_r. exact Heq.
  - intros n1 n2 Heq. destruct (Hgen _ _ Heq) as [Hb Hn].
    split; [exact Hb|]. apply (inj pretty), Hn.
Qed.
